(** * Internet Printing Protocol dissector: a shallow embedding of
    [epan/dissectors/packet-ipp.c] and the properties checked against it.

    The embedding follows the C code function by function.  A [tvbuff_t] is
    the list of captured bytes; the dissector's accessors either return a
    value or raise the tvbuff bounds exception, so fallible reads live in the
    result type [res] and tree-building code in the state-and-exception monad
    [M].  The per-conversation transaction table ([wmem_map_t] keyed by the
    request id) is a [gmap Z ipp_transaction_t].

    Offsets and lengths are C [int]s in the source.  They are modelled as
    unbounded [Z]: a loop iteration starts only at an offset inside the
    buffer and adds at most [1 + 2 + 65535 + 2 + 65535], so for every buffer
    shorter than [2^31 - 131075] bytes no [int] computation wraps (lemma
    [parse_attributes_body_int_range]). *)

From Stdlib Require Import ZArith String Ascii DecimalString DecimalFacts List
  Lia Bool.
From Stdlib.Strings Require Import Byte.
From stdpp Require Import base option list numbers gmap.
Import ListNotations.

Local Open Scope Z_scope.

(** ** Outcomes of fallible computations *)

(** The exceptions of [epan/exceptions.h] that the tvbuff accessors raise.
    The buffer is modelled with one length (captured = reported), which leaves
    a single kind of bounds failure. *)
Inductive exception : Type :=
| BoundsError.

(** What running a piece of dissector code yields: a value, a raised
    exception, or (only for the iteration budget of the modelled [while] loop)
    an exhausted budget. *)
Inductive res (A : Type) : Type :=
| Ok (a : A)
| Throw (e : exception)
| OutOfFuel.

Arguments Ok {A} a.
Arguments Throw {A} e.
Arguments OutOfFuel {A}.

#[global] Instance res_ret : MRet res := fun A a => Ok a.
#[global] Instance res_bind : MBind res := fun A B k r =>
  match r with
  | Ok a => k a
  | Throw e => Throw e
  | OutOfFuel => OutOfFuel
  end.

(** ** Bytes and big-endian integers *)

Abbreviation tvbuff_t := (list byte) (only parsing).

#[global] Instance byte_eq_decision : EqDecision byte := Byte.byte_eq_dec.

Definition byte_to_Z (b : byte) : Z := Z.of_N (Byte.to_N b).

Definition byte_of_Z (z : Z) : byte :=
  match Byte.of_N (Z.to_N (z mod 256)) with
  | Some b => b
  | None => x00
  end.

Definition bytes_of_Zs (l : list Z) : list byte := map byte_of_Z l.

(** Big-endian value of a byte string ([pntoh16], [pntoh32]). *)
Definition be_value (bs : list byte) : Z :=
  fold_left (fun acc b => Z.lor (Z.shiftl acc 8) (byte_to_Z b)) bs 0.

(** ** tvbuff accessors *)

Definition tvb_captured_length (tvb : tvbuff_t) : Z := Z.of_nat (length tvb).

(** Modelled from the spec: [compute_offset] of epan/tvbuff.c is not among the
    sources.  The spec fixes a message as an immutable byte buffer read at an
    offset; tvbuff counts a negative offset from the end of the buffer and
    fails for an offset outside it. *)
Definition compute_offset (tvb : tvbuff_t) (offset : Z) : res Z :=
  let len := tvb_captured_length tvb in
  if 0 <=? offset then
    if offset <=? len then Ok offset else Throw BoundsError
  else
    if - offset <=? len then Ok (len + offset) else Throw BoundsError.

(** Modelled from the spec: [tvb_offset_exists] of epan/tvbuff.c, the "bytes
    remain at the current offset" test of the parser loop.  It never raises. *)
Definition tvb_offset_exists (tvb : tvbuff_t) (offset : Z) : bool :=
  match compute_offset tvb offset with
  | Ok abs_offset => abs_offset <? tvb_captured_length tvb
  | _ => false
  end.

(** Modelled from the spec: [ensure_contiguous] of epan/tvbuff.c, the bounds
    check behind every accessor that returns data.  The [length] bytes at
    [offset] are returned when they all lie in the buffer; otherwise the
    bounds exception is raised.  A length of -1 means "to the end". *)
Definition ensure_contiguous (tvb : tvbuff_t) (offset length : Z)
  : res (list byte) :=
  abs_offset ← compute_offset tvb offset;
  if length <? -1 then Throw BoundsError
  else
    let n := if length =? -1 then tvb_captured_length tvb - abs_offset
             else length in
    if abs_offset + n <=? tvb_captured_length tvb
    then Ok (take (Z.to_nat n) (drop (Z.to_nat abs_offset) tvb))
    else Throw BoundsError.

(** Modelled from the spec: [tvb_get_ptr] of epan/tvbuff.c. *)
Definition tvb_get_ptr (tvb : tvbuff_t) (offset length : Z) : res (list byte) :=
  ensure_contiguous tvb offset length.

(** Modelled from the spec: [tvb_get_guint8] of epan/tvbuff.c. *)
Definition tvb_get_guint8 (tvb : tvbuff_t) (offset : Z) : res Z :=
  bs ← ensure_contiguous tvb offset 1; Ok (be_value bs).

(** Modelled from the spec: [tvb_get_ntohs] of epan/tvbuff.c (u16,
    big-endian). *)
Definition tvb_get_ntohs (tvb : tvbuff_t) (offset : Z) : res Z :=
  bs ← ensure_contiguous tvb offset 2; Ok (be_value bs).

(** Modelled from the spec: [tvb_get_ntohl] of epan/tvbuff.c (u32,
    big-endian). *)
Definition tvb_get_ntohl (tvb : tvbuff_t) (offset : Z) : res Z :=
  bs ← ensure_contiguous tvb offset 4; Ok (be_value bs).

(** Modelled from the spec: [tvb_memeql] of epan/tvbuff.c.  It compares
    [size] buffer bytes at [offset] with [str] and returns 0 when they are
    equal and -1 otherwise, also when the bytes are not all in the buffer; it
    never raises. *)
Definition tvb_memeql (tvb : tvbuff_t) (offset : Z) (str : string) (size : Z)
  : Z :=
  match ensure_contiguous tvb offset size with
  | Ok bs =>
      if decide (bs = take (Z.to_nat size) (list_byte_of_string str))
      then 0 else -1
  | _ => -1
  end.

(** Modelled from the spec: [tvb_get_string_enc] of epan/tvbuff.c with
    [ENC_ASCII]: seven-bit bytes are kept, any other byte becomes the UTF-8
    encoding of U+FFFD. *)
Definition get_ascii_string (bs : list byte) : list byte :=
  flat_map (fun b => if byte_to_Z b <? 128 then [b] else [xef; xbf; xbd]) bs.

Definition tvb_get_string_enc_ascii (tvb : tvbuff_t) (offset length : Z)
  : res (list byte) :=
  bs ← ensure_contiguous tvb offset length; Ok (get_ascii_string bs).

(** ** C strings and the pieces of [g_snprintf] the dissector uses *)

(** The C string that starts at the first byte of [bs]: it ends before the
    first NUL. *)
Fixpoint c_str (bs : list byte) : list byte :=
  match bs with
  | [] => []
  | b :: bs' => if decide (b = x00) then [] else b :: c_str bs'
  end.

(** [strcmp (s, lit) == 0] for a NUL-free literal. *)
Definition c_streq (s : list byte) (lit : string) : bool :=
  bool_decide (c_str s = list_byte_of_string lit).

(** [%d] of a C [int]. *)
Definition fmt_d (z : Z) : string := NilZero.string_of_int (Z.to_int z).

(** The [int] with the bit pattern of a [guint32]: what [%d] prints when it is
    handed a [guint32], and what [int x = tvb_get_ntohl (...)] stores. *)
Definition to_int32 (u : Z) : Z :=
  if u <? 2 ^ 31 then u else u - 2 ^ 32.

(** [%u] of an unsigned value. *)
Definition fmt_u (z : Z) : string := NilZero.string_of_int (Z.to_int z).

Fixpoint replicate_char (n : nat) (c : ascii) : string :=
  match n with
  | O => EmptyString
  | S n' => String c (replicate_char n' c)
  end.

(** Left padding up to a minimum field width. *)
Definition pad_left (c : ascii) (width : nat) (s : string) : string :=
  String.append (replicate_char (width - String.length s) c) s.

(** [%0<width>d] of a non-negative value. *)
Definition fmt_0d (width : nat) (z : Z) : string :=
  pad_left "0"%char width (fmt_d z).

Definition hex_digit (d : Z) : ascii :=
  match d with
  | 0 => "0" | 1 => "1" | 2 => "2" | 3 => "3" | 4 => "4" | 5 => "5"
  | 6 => "6" | 7 => "7" | 8 => "8" | 9 => "9" | 10 => "a" | 11 => "b"
  | 12 => "c" | 13 => "d" | 14 => "e" | _ => "f"
  end%char.

Fixpoint hex_digits (fuel : nat) (z : Z) (acc : string) : string :=
  match fuel with
  | O => acc
  | S n =>
      let acc' := String (hex_digit (z mod 16)) acc in
      if z / 16 =? 0 then acc' else hex_digits n (z / 16) acc'
  end.

(** [%0<width>x] of an unsigned value below [2^32]. *)
Definition fmt_0x (width : nat) (z : Z) : string :=
  pad_left "0"%char width (hex_digits 8 z EmptyString).

(** [%c]. *)
Definition fmt_c (b : Z) : string :=
  String (ascii_of_byte (byte_of_Z b)) EmptyString.

(** What a caller reads back from a buffer of [size] bytes filled by
    [g_snprintf]: at most [size - 1] characters, ending before a NUL that
    [%c] may have written. *)
Definition g_snprintf (size : nat) (formatted : string) : string :=
  string_of_list_byte
    (c_str (take (size - 1)%nat (list_byte_of_string formatted))).

(** ** [value_string] tables *)

Abbreviation value_string := (list (Z * string)) (only parsing).

(** Modelled from the spec: [try_val_to_str] of epan/value_string.c, the
    lookup in a static symbol table: the string of the first entry whose value
    matches. *)
Fixpoint try_val_to_str (val : Z) (vs : value_string) : option string :=
  match vs with
  | [] => None
  | (v, s) :: vs' => if v =? val then Some s else try_val_to_str val vs'
  end.

(** Modelled from the spec: [val_to_str] of epan/value_string.c, which
    renders a value without a symbol through a printf format; [fmt], applied
    to the value, stands for that format. *)
Definition val_to_str (val : Z) (vs : value_string) (fmt : Z -> string)
  : string :=
  match try_val_to_str val vs with
  | Some s => s
  | None => fmt val
  end.

(** Modelled from the spec: [val_to_str_const] of epan/value_string.c, which
    renders a value without a symbol as a fixed placeholder. *)
Definition val_to_str_const (val : Z) (vs : value_string) (unknown_str : string)
  : string :=
  match try_val_to_str val vs with
  | Some s => s
  | None => unknown_str
  end.

(** ** Constants of the dissector *)

Definition STATUS_SUCCESSFUL : Z := 0x0000.
Definition STATUS_INFORMATIONAL : Z := 0x0100.
Definition STATUS_REDIRECTION : Z := 0x0200.
Definition STATUS_CLIENT_ERROR : Z := 0x0400.
Definition STATUS_SERVER_ERROR : Z := 0x0500.

Definition STATUS_TYPE_MASK : Z := 0xFF00.

Definition TAG_TYPE (x : Z) : Z := Z.land x 0xF0.

Definition TAG_TYPE_DELIMITER : Z := 0x00.
Definition TAG_TYPE_OUTOFBAND : Z := 0x10.
Definition TAG_TYPE_INTEGER : Z := 0x20.
Definition TAG_TYPE_OCTETSTRING : Z := 0x30.
Definition TAG_TYPE_CHARSTRING : Z := 0x40.

Definition TAG_END_OF_ATTRIBUTES : Z := 0x03.

Definition TAG_INTEGER : Z := 0x21.
Definition TAG_BOOLEAN : Z := 0x22.
Definition TAG_ENUM : Z := 0x23.

Definition TAG_OCTETSTRING : Z := 0x30.
Definition TAG_DATETIME : Z := 0x31.
Definition TAG_RESOLUTION : Z := 0x32.
Definition TAG_RANGEOFINTEGER : Z := 0x33.
Definition TAG_BEGINCOLLECTION : Z := 0x34.
Definition TAG_TEXTWITHLANGUAGE : Z := 0x35.
Definition TAG_NAMEWITHLANGUAGE : Z := 0x36.
Definition TAG_ENDCOLLECTION : Z := 0x37.

Definition TAG_TEXTWITHOUTLANGUAGE : Z := 0x41.
Definition TAG_NAMEWITHOUTLANGUAGE : Z := 0x42.
Definition TAG_KEYWORD : Z := 0x44.
Definition TAG_URI : Z := 0x45.
Definition TAG_URISCHEME : Z := 0x46.
Definition TAG_CHARSET : Z := 0x47.
Definition TAG_NATURALLANGUAGE : Z := 0x48.
Definition TAG_MIMEMEDIATYPE : Z := 0x49.
Definition TAG_MEMBERNAME : Z := 0x4a.

Definition operation_vals : value_string :=
  [ (0x0002, "Print-Job"%string);
    (0x0003, "Print-URI"%string);
    (0x0004, "Validate-Job"%string);
    (0x0005, "Create-Job"%string);
    (0x0006, "Send-Document"%string);
    (0x0007, "Send-URI"%string);
    (0x0008, "Cancel-Job"%string);
    (0x0009, "Get-Job-Attributes"%string);
    (0x000A, "Get-Jobs"%string);
    (0x000B, "Get-Printer-Attributes"%string);
    (0x000C, "Hold-Job"%string);
    (0x000D, "Release-Job"%string);
    (0x000E, "Restart-Job"%string);
    (0x0010, "Pause-Printer"%string);
    (0x0011, "Resume-Printer"%string);
    (0x0012, "Purge-Jobs"%string);
    (0x0013, "Set-Printer-Attributes"%string);
    (0x0014, "Set-Job-Attributes"%string);
    (0x0015, "Get-Printer-Supported-Values"%string);
    (0x0016, "Create-Printer-Subscriptions"%string);
    (0x0017, "Create-Job-Subscriptions"%string);
    (0x0018, "Get-Subscription-Attributes"%string);
    (0x0019, "Get-Subscriptions"%string);
    (0x001A, "Renew-Subscription"%string);
    (0x001B, "Cancel-Subscription"%string);
    (0x001C, "Get-Notifications"%string);
    (0x001D, "Reserved (ipp-indp-method)"%string);
    (0x001E, "Reserved (ipp-get-resources)"%string);
    (0x001F, "Reserved (ipp-get-resources)"%string);
    (0x0020, "Reserved (ipp-get-resources)"%string);
    (0x0021, "Reserved (ipp-install)"%string);
    (0x0022, "Enable-Printer"%string);
    (0x0023, "Disable-Printer"%string);
    (0x0024, "Pause-Printer-After-Current-Job"%string);
    (0x0025, "Hold-New-Jobs"%string);
    (0x0026, "Release-Held-New-Jobs"%string);
    (0x0027, "Deactivate-Printer"%string);
    (0x0028, "Activate-Printer"%string);
    (0x0029, "Restart-Printer"%string);
    (0x002A, "Shutdown-Printer"%string);
    (0x002B, "Startup-Printer"%string);
    (0x002C, "Reprocess-Job"%string);
    (0x002D, "Cancel-Current-Job"%string);
    (0x002E, "Suspend-Current-Job"%string);
    (0x002F, "Resume-Job"%string);
    (0x0030, "Promote-Job"%string);
    (0x0031, "Schedule-Job-After"%string);
    (0x0033, "Cancel-Document"%string);
    (0x0034, "Get-Document-Attributes"%string);
    (0x0035, "Get-Documents"%string);
    (0x0036, "Delete-Document"%string);
    (0x0037, "Set-Document-Attributes"%string);
    (0x0038, "Cancel-Jobs"%string);
    (0x0039, "Cancel-My-Jobs"%string);
    (0x003A, "Resubmit-Job"%string);
    (0x003B, "Close-Job"%string);
    (0x003C, "Identify-Printer"%string);
    (0x003D, "Validate-Document"%string);
    (0x003E, "Add-Document-Images"%string);
    (0x003F, "Acknowledge-Document"%string);
    (0x0040, "Acknowledge-Identify-Printer"%string);
    (0x0041, "Acknowledge-Job"%string);
    (0x0042, "Fetch-Document"%string);
    (0x0043, "Fetch-Job"%string);
    (0x0044, "Get-Output-Device-Attributes"%string);
    (0x0045, "Update-Active-Jobs"%string);
    (0x0046, "Deregister-Output-Device"%string);
    (0x0047, "Update-Document-Status"%string);
    (0x0048, "Update-Job-Status"%string);
    (0x0049, "Update-Output-Device-Attributes"%string);
    (0x004A, "Get-Next-Document-Data"%string);
    (0x4001, "CUPS-Get-Default"%string);
    (0x4002, "CUPS-Get-Printers"%string);
    (0x4003, "CUPS-Add-Modify-Printer"%string);
    (0x4004, "CUPS-Delete-Printer"%string);
    (0x4005, "CUPS-Get-Classes"%string);
    (0x4006, "CUPS-Add-Modify-Class"%string);
    (0x4007, "CUPS-Delete-Class"%string);
    (0x4008, "CUPS-Accept-Jobs"%string);
    (0x4009, "CUPS-Reject-Jobs"%string);
    (0x400A, "CUPS-Set-Default"%string);
    (0x400B, "CUPS-Get-Devices"%string);
    (0x400C, "CUPS-Get-PPDs"%string);
    (0x400D, "CUPS-Move-Job"%string);
    (0x400E, "CUPS-Authenticate-Job"%string);
    (0x400F, "CUPS-Get-PPD"%string);
    (0x4027, "CUPS-Get-Document"%string);
    (0x4028, "CUPS-Create-Local-Printer"%string) ].

Definition printer_state_vals : value_string :=
  [ (0x3, "idle"%string);
    (0x4, "processing"%string);
    (0x5, "stopped"%string) ].

Definition job_state_vals : value_string :=
  [ (3, "pending"%string);
    (4, "pending-held"%string);
    (5, "processing"%string);
    (6, "processing-stopped"%string);
    (7, "canceled"%string);
    (8, "aborted"%string);
    (9, "completed"%string) ].

Definition document_state_vals : value_string :=
  [ (3, "pending"%string);
    (5, "processing"%string);
    (6, "processing-stopped"%string);
    (7, "canceled"%string);
    (8, "aborted"%string);
    (9, "completed"%string) ].

Definition finishings_vals : value_string :=
  [ (3, "none"%string);
    (4, "staple"%string);
    (5, "punch"%string);
    (6, "cover"%string);
    (7, "bind"%string);
    (8, "saddle-stitch"%string);
    (9, "edge-stitch"%string);
    (10, "fold"%string);
    (11, "trim"%string);
    (12, "bale"%string);
    (13, "booklet-maker"%string);
    (14, "jog-offset"%string);
    (15, "coat"%string);
    (16, "laminate"%string);
    (20, "staple-top-left"%string);
    (21, "staple-bottom-left"%string);
    (22, "staple-top-right"%string);
    (23, "staple-bottom-right"%string);
    (24, "edge-stitch-left"%string);
    (25, "edge-stitch-top"%string);
    (26, "edge-stitch-right"%string);
    (27, "edge-stitch-bottom"%string);
    (28, "staple-dual-left"%string);
    (29, "staple-dual-top"%string);
    (30, "staple-dual-right"%string);
    (31, "staple-dual-bottom"%string);
    (32, "staple-triple-left"%string);
    (33, "staple-triple-top"%string);
    (34, "staple-triple-right"%string);
    (35, "staple-triple-bottom"%string);
    (50, "bind-left"%string);
    (51, "bind-top"%string);
    (52, "bind-right"%string);
    (53, "bind-bottom"%string);
    (60, "trim-after-pages"%string);
    (61, "trim-after-documents"%string);
    (62, "trim-after-copies"%string);
    (63, "trim-after-job"%string);
    (70, "punch-top-left"%string);
    (71, "punch-bottom-left"%string);
    (72, "punch-top-right"%string);
    (73, "punch-bottom-right"%string);
    (74, "punch-dual-left"%string);
    (75, "punch-dual-top"%string);
    (76, "punch-dual-right"%string);
    (77, "punch-dual-bottom"%string);
    (78, "punch-triple-left"%string);
    (79, "punch-triple-top"%string);
    (80, "punch-triple-right"%string);
    (81, "punch-triple-bottom"%string);
    (82, "punch-quad-left"%string);
    (83, "punch-quad-top"%string);
    (84, "punch-quad-right"%string);
    (85, "punch-quad-bottom"%string);
    (86, "punch-multiple-left"%string);
    (87, "punch-multiple-top"%string);
    (88, "punch-multiple-right"%string);
    (89, "punch-multiple-bottom"%string);
    (90, "fold-accordion"%string);
    (91, "fold-double-gate"%string);
    (92, "fold-gate"%string);
    (93, "fold-half"%string);
    (94, "fold-half-z"%string);
    (95, "fold-left-gate"%string);
    (96, "fold-letter"%string);
    (97, "fold-parallel"%string);
    (98, "fold-poster"%string);
    (99, "fold-right-gate"%string);
    (100, "fold-z"%string) ].

Definition orientation_vals : value_string :=
  [ (3, "portrait"%string);
    (4, "landscape"%string);
    (5, "reverse-landscape"%string);
    (6, "reverse-portrait"%string);
    (7, "none"%string) ].

Definition quality_vals : value_string :=
  [ (3, "draft"%string);
    (4, "normal"%string);
    (5, "high"%string) ].

Definition transmission_status_vals : value_string :=
  [ (3, "pending"%string);
    (4, "pending-retry"%string);
    (5, "processing"%string);
    (7, "canceled"%string);
    (8, "aborted"%string);
    (9, "completed"%string) ].

Definition status_vals : value_string :=
  [ (0x0000, "successful-ok"%string);
    (0x0001, "successful-ok-ignored-or-substituted-attributes"%string);
    (0x0002, "successful-ok-conflicting-attributes"%string);
    (0x0003, "successful-ok-ignored-subscriptions"%string);
    (0x0005, "successful-ok-too-many-events"%string);
    (0x0007, "successful-ok-events-complete"%string);
    (0x0400, "client-error-bad-request"%string);
    (0x0401, "client-error-forbidden"%string);
    (0x0402, "client-error-not-authenticated"%string);
    (0x0403, "client-error-not-authorized"%string);
    (0x0404, "client-error-not-possible"%string);
    (0x0405, "client-error-timeout"%string);
    (0x0406, "client-error-not-found"%string);
    (0x0407, "client-error-gone"%string);
    (0x0408, "client-error-request-entity-too-large"%string);
    (0x0409, "client-error-request-value-too-long"%string);
    (0x040A, "client-error-document-format-not-supported"%string);
    (0x040B, "client-error-attributes-or-values-not-supported"%string);
    (0x040C, "client-error-uri-scheme-not-supported"%string);
    (0x040D, "client-error-charset-not-supported"%string);
    (0x040E, "client-error-conflicting-attributes"%string);
    (0x040F, "client-error-compression-not-supported"%string);
    (0x0410, "client-error-compression-error"%string);
    (0x0411, "client-error-document-format-error"%string);
    (0x0412, "client-error-document-access-error"%string);
    (0x0413, "client-error-attributes-not-settable"%string);
    (0x0414, "client-error-ignored-all-subscriptions"%string);
    (0x0415, "client-error-too-many-subscriptions"%string);
    (0x0418, "client-error-document-password-error"%string);
    (0x0419, "client-error-document-permission-error"%string);
    (0x041A, "client-error-document-security-error"%string);
    (0x041B, "client-error-document-unprintable-error"%string);
    (0x041C, "client-error-account-info-needed"%string);
    (0x041D, "client-error-account-closed"%string);
    (0x041E, "client-error-account-limit-reached"%string);
    (0x041F, "client-error-account-authorization-failed"%string);
    (0x0420, "client-error-not-fetchable"%string);
    (0x0500, "server-error-internal-error"%string);
    (0x0501, "server-error-operation-not-supported"%string);
    (0x0502, "server-error-service-unavailable"%string);
    (0x0503, "server-error-version-not-supported"%string);
    (0x0504, "server-error-device-error"%string);
    (0x0505, "server-error-temporary-error"%string);
    (0x0506, "server-error-not-accepting-jobs"%string);
    (0x0507, "server-error-busy"%string);
    (0x0508, "server-error-job-canceled"%string);
    (0x0509, "server-error-multiple-document-jobs-not-supported"%string);
    (0x050A, "server-error-printer-is-deactivated"%string);
    (0x050B, "server-error-too-many-jobs"%string);
    (0x050C, "server-error-too-many-documents"%string) ].

Definition tag_vals : value_string :=
  [ (0x01, "operation-attributes-tag"%string);
    (0x02, "job-attributes-tag"%string);
    (TAG_END_OF_ATTRIBUTES, "end-of-attributes-tag"%string);
    (0x04, "printer-attributes-tag"%string);
    (0x05, "unsupported-attributes-tag"%string);
    (0x06, "subscription-attributes-tag"%string);
    (0x07, "event-notification-attributes-tag"%string);
    (0x08, "resource-attributes-tag"%string);
    (0x09, "document-attributes-tag"%string);
    (0x10, "unsupported"%string);
    (0x12, "unknown"%string);
    (0x13, "no-value"%string);
    (0x15, "not-settable"%string);
    (0x16, "delete-attribute"%string);
    (0x17, "admin-define"%string);
    (TAG_INTEGER, "integer"%string);
    (TAG_BOOLEAN, "boolean"%string);
    (TAG_ENUM, "enum"%string);
    (TAG_OCTETSTRING, "octetString"%string);
    (TAG_DATETIME, "dateTime"%string);
    (TAG_RESOLUTION, "resolution"%string);
    (TAG_RANGEOFINTEGER, "rangeOfInteger"%string);
    (TAG_BEGINCOLLECTION, "begCollection"%string);
    (TAG_TEXTWITHLANGUAGE, "textWithLanguage"%string);
    (TAG_NAMEWITHLANGUAGE, "nameWithLanguage"%string);
    (TAG_ENDCOLLECTION, "endCollection"%string);
    (TAG_TEXTWITHOUTLANGUAGE, "textWithoutLanguage"%string);
    (TAG_NAMEWITHOUTLANGUAGE, "nameWithoutLanguage"%string);
    (TAG_KEYWORD, "keyword"%string);
    (TAG_URI, "uri"%string);
    (TAG_URISCHEME, "uriScheme"%string);
    (TAG_CHARSET, "charset"%string);
    (TAG_NATURALLANGUAGE, "naturalLanguage"%string);
    (TAG_MIMEMEDIATYPE, "mimeMediaType"%string);
    (TAG_MEMBERNAME, "memberAttrName"%string) ].

Definition bool_vals : value_string :=
  [ (0x00, "false"%string);
    (0x01, "true"%string) ].

(** ** The protocol tree, the columns and the conversation data *)

(** The registered fields ([hf_*]) a tree node can belong to; [hf_text_only]
    is the field of the label-only nodes that [proto_tree_add_subtree] and
    [proto_tree_add_subtree_format] create. *)
Inductive hf_index : Type :=
| proto_ipp
| hf_text_only
| hf_ipp_request_id
| hf_ipp_name
| hf_ipp_tag
| hf_ipp_value_length
| hf_ipp_charstring_value
| hf_ipp_status_code
| hf_ipp_version
| hf_ipp_bool_value
| hf_ipp_name_length
| hf_ipp_job_state
| hf_ipp_bytes_value
| hf_ipp_operation_id
| hf_ipp_printer_state
| hf_ipp_uint32_value
| hf_ipp_response_in
| hf_ipp_response_to
| hf_ipp_response_time.

Inductive ett_index : Type :=
| ett_ipp
| ett_ipp_as
| ett_ipp_attr.

Record nstime_t : Type := { secs : Z; nsecs : Z }.

(** What a node shows: a formatted label, a value handed over by the
    dissector, or the bytes that [proto_tree_add_item] fetched from the buffer
    (their decoding is fixed by the field's registration). *)
Inductive node_value : Type :=
| NvText (label : string)
| NvString (value : string)
| NvUint (value : Z)
| NvUintRepr (value : Z) (repr : string)
| NvTime (value : nstime_t)
| NvItem (data : list byte).

Record proto_node : Type := {
  pn_parent : nat;
  pn_hf : hf_index;
  pn_start : Z;
  pn_length : Z;
  pn_value : node_value;
  pn_ett : option ett_index;
  pn_generated : bool
}.

(** A [proto_tree *] or [proto_item *]: NULL, or the index of a node. *)
Abbreviation proto_tree := (option nat) (only parsing).
Abbreviation proto_item := (option nat) (only parsing).

Record ipp_transaction_t : Type := {
  req_frame : Z;
  rep_frame : Z;
  req_time : nstime_t
}.

Record ipp_conv_info_t : Type := {
  pdus : gmap Z ipp_transaction_t
}.

(** Everything the dissector writes to: the nodes of the protocol tree, the
    two columns, the IPP data attached to the conversation (NULL until the
    first message of the conversation is dissected), and the payloads handed
    to the data dissector. *)
Record dstate : Type := {
  ds_nodes : list proto_node;
  ds_col_protocol : option string;
  ds_col_info : option string;
  ds_conv : option ipp_conv_info_t;
  ds_data : list (list byte * option nat)
}.

Definition set_nodes (s : dstate) (ns : list proto_node) : dstate :=
  {| ds_nodes := ns; ds_col_protocol := ds_col_protocol s;
     ds_col_info := ds_col_info s; ds_conv := ds_conv s;
     ds_data := ds_data s |}.

Definition set_conv (s : dstate) (c : option ipp_conv_info_t) : dstate :=
  {| ds_nodes := ds_nodes s; ds_col_protocol := ds_col_protocol s;
     ds_col_info := ds_col_info s; ds_conv := c; ds_data := ds_data s |}.

(** ** The dissection monad: state passing with exceptions *)

Definition M (A : Type) : Type := dstate -> dstate * res A.

#[global] Instance M_ret : MRet M := fun A a s => (s, Ok a).
#[global] Instance M_bind : MBind M := fun A B k m s =>
  match m s with
  | (s', Ok a) => k a s'
  | (s', Throw e) => (s', Throw e)
  | (s', OutOfFuel) => (s', OutOfFuel)
  end.

(** A read of the buffer inside tree-building code: the state is untouched. *)
Definition lift {A : Type} (r : res A) : M A := fun s => (s, r).

Definition modify (f : dstate -> dstate) : M unit := fun s => (f s, Ok tt).

Definition gets {A : Type} (f : dstate -> A) : M A := fun s => (s, Ok (f s)).

(** ** Tree-building primitives (epan/proto.c) *)

(** Modelled from the spec: the creation of a display node, common to the
    [proto_tree_add_*] functions of epan/proto.c.  The node is added under
    [tree]; under a NULL tree nothing is created and NULL is returned. *)
Definition proto_tree_add_node (tree : proto_tree) (hf : hf_index)
  (start length : Z) (v : node_value) (ett : option ett_index) : M proto_item :=
  fun s =>
    match tree with
    | None => (s, Ok None)
    | Some parent =>
        (set_nodes s
           (ds_nodes s ++
            [{| pn_parent := parent; pn_hf := hf; pn_start := start;
                pn_length := length; pn_value := v; pn_ett := ett;
                pn_generated := false |}]),
         Ok (Some (List.length (ds_nodes s))))
    end.

(** Modelled from the spec: [proto_tree_add_item] of epan/proto.c fetches the
    item's bytes from the buffer, and raises the bounds exception when they
    are not all there, whether or not a tree is being built. *)
Definition proto_tree_add_item (tree : proto_tree) (hf : hf_index)
  (tvb : tvbuff_t) (start length : Z) : M proto_item :=
  data ← lift (ensure_contiguous tvb start length);
  proto_tree_add_node tree hf start length (NvItem data) None.

(** Modelled from the spec: [proto_tree_add_string], [proto_tree_add_uint],
    [proto_tree_add_uint_format_value] and [proto_tree_add_time] of
    epan/proto.c add a node whose value the dissector hands over; they read
    nothing from the buffer. *)
Definition proto_tree_add_string (tree : proto_tree) (hf : hf_index)
  (start length : Z) (value : string) : M proto_item :=
  proto_tree_add_node tree hf start length (NvString value) None.

Definition proto_tree_add_uint (tree : proto_tree) (hf : hf_index)
  (start length : Z) (value : Z) : M proto_item :=
  proto_tree_add_node tree hf start length (NvUint value) None.

Definition proto_tree_add_uint_format_value (tree : proto_tree) (hf : hf_index)
  (start length : Z) (value : Z) (repr : string) : M proto_item :=
  proto_tree_add_node tree hf start length (NvUintRepr value repr) None.

Definition proto_tree_add_time (tree : proto_tree) (hf : hf_index)
  (start length : Z) (value : nstime_t) : M proto_item :=
  proto_tree_add_node tree hf start length (NvTime value) None.

(** Modelled from the spec: [proto_tree_add_subtree] and
    [proto_tree_add_subtree_format] of epan/proto.c add a label-only node
    that is a subtree; the item and the subtree are the same node.  The node
    keeps the text that the dissector formats; how the display shortens a
    text that is too long for it is no concern of the dissector. *)
Definition proto_tree_add_subtree (tree : proto_tree) (start length : Z)
  (idx : ett_index) (label : string) : M proto_tree :=
  proto_tree_add_node tree hf_text_only start length (NvText label) (Some idx).

(** Modelled from the spec: [proto_item_add_subtree], [proto_item_set_len]
    and [PROTO_ITEM_SET_GENERATED] of epan/proto.c change one field of an
    existing node and do nothing for a NULL item. *)
Definition update_node (it : proto_item) (f : proto_node -> proto_node)
  : M unit :=
  match it with
  | None => mret tt
  | Some i => modify (fun s => set_nodes s (alter f i (ds_nodes s)))
  end.

Definition proto_item_add_subtree (ti : proto_item) (idx : ett_index)
  : M proto_tree :=
  _ ← update_node ti (fun n =>
         {| pn_parent := pn_parent n; pn_hf := pn_hf n; pn_start := pn_start n;
            pn_length := pn_length n; pn_value := pn_value n;
            pn_ett := Some idx; pn_generated := pn_generated n |});
  mret ti.

Definition proto_item_set_len (ti : proto_item) (length : Z) : M unit :=
  update_node ti (fun n =>
    {| pn_parent := pn_parent n; pn_hf := pn_hf n; pn_start := pn_start n;
       pn_length := length; pn_value := pn_value n;
       pn_ett := pn_ett n; pn_generated := pn_generated n |}).

Definition PROTO_ITEM_SET_GENERATED (ti : proto_item) : M unit :=
  update_node ti (fun n =>
    {| pn_parent := pn_parent n; pn_hf := pn_hf n; pn_start := pn_start n;
       pn_length := pn_length n; pn_value := pn_value n;
       pn_ett := pn_ett n; pn_generated := true |}).

(** Modelled from the spec: [col_set_str] of epan/column-utils.c, for the
    protocol column and for the info column. *)
Definition col_set_protocol (str : string) : M unit :=
  modify (fun s =>
    {| ds_nodes := ds_nodes s; ds_col_protocol := Some str;
       ds_col_info := ds_col_info s; ds_conv := ds_conv s;
       ds_data := ds_data s |}).

Definition col_set_info (str : string) : M unit :=
  modify (fun s =>
    {| ds_nodes := ds_nodes s; ds_col_protocol := ds_col_protocol s;
       ds_col_info := Some str; ds_conv := ds_conv s;
       ds_data := ds_data s |}).

(** Modelled from the spec: [call_data_dissector] on
    [tvb_new_subset_remaining (tvb, offset)], the external consumer of the
    trailing payload: the bytes from [offset] on are handed over unchanged. *)
Definition call_data_dissector (tvb : tvbuff_t) (offset : Z)
  (tree : proto_tree) : M unit :=
  payload ← lift (ensure_contiguous tvb offset (-1));
  modify (fun s =>
    {| ds_nodes := ds_nodes s; ds_col_protocol := ds_col_protocol s;
       ds_col_info := ds_col_info s; ds_conv := ds_conv s;
       ds_data := ds_data s ++ [(payload, tree)] |}).

(** ** The dissector *)

Inductive http_type_t : Type :=
| HTTP_REQUEST
| HTTP_RESPONSE
| HTTP_NOTIFICATION
| HTTP_OTHERS.

Record http_message_info_t : Type := { http_type : http_type_t }.

(** The fields of [packet_info] and of its frame data that the dissector
    reads: the frame number, the destination port and the port the dissector
    was matched on, the "already visited" flag of the frame, and its
    absolute time stamp. *)
Record packet_info : Type := {
  pinfo_num : Z;
  pinfo_destport : Z;
  pinfo_match_uint : Z;
  pinfo_fd_visited : bool;
  pinfo_abs_ts : nstime_t
}.

(** The local variables of [parse_attributes] that live across iterations of
    its loop. *)
Record pa_locals : Type := {
  pa_offset : Z;
  pa_as_tree : proto_tree;
  pa_tas : proto_item;
  pa_start_offset : Z;
  pa_attr_tree : proto_tree;
  pa_subtree : proto_tree
}.

(** The initializers of the local variables of [parse_attributes]. *)
Definition parse_attributes_init (offset : Z) (tree : proto_tree) : pa_locals :=
  {| pa_offset := offset; pa_as_tree := tree; pa_tas := None;
     pa_start_offset := offset; pa_attr_tree := tree; pa_subtree := None |}.

(** How an iteration of the loop ends: at the closing brace or at [break]. *)
Inductive loop_ctl : Type :=
| LoopContinue
| LoopBreak.

(** The string a ["%s: %s"] format yields. *)
Definition fmt_label (name value : string) : string :=
  String.append name (String.append ": " value).

(** The ["Reserved (0x%02x)"] default of the tag description. *)
Definition fmt_reserved_tag (tag : Z) : string :=
  String.append "Reserved (0x" (String.append (fmt_0x 2 tag) ")").

(** The ["0x%04x"] default of operation and status names. *)
Definition fmt_0x04 (v : Z) : string := String.append "0x" (fmt_0x 4 v).

(** The enum attribute names that [add_integer_tree] compares the start of
    the name with, in the order of its [else if] chain, each with its table
    and the text for a value the table does not have. *)
Definition enum_name_tables : list (string * (list (Z * string) * string)) :=
  [ ("printer-state"%string, (printer_state_vals, "Unknown Printer State"%string));
    ("job-state"%string, (job_state_vals, "Unknown Job State"%string));
    ("document-state"%string, (document_state_vals, "Unknown Document State"%string));
    ("operations-supported"%string, (operation_vals, "Unknown Operation ID"%string));
    ("finishings"%string, (finishings_vals, "Unknown Finishings Value"%string));
    ("orientation-requested"%string, (orientation_vals, "Unknown Orientation Value"%string));
    ("media-feed-orientation"%string, (orientation_vals, "Unknown Orientation Value"%string));
    ("print-quality"%string, (quality_vals, "Unknown Print Quality"%string));
    ("transmission-status"%string, (transmission_status_vals, "Unknown Transmission Status"%string)) ].

(** ** Reference display helpers, to run the dissector on concrete bytes *)

(** Modelled from the spec: a stand-in for [format_text] of epan/strutil.c,
    which renders bytes as printable text: printable seven-bit bytes as they
    are, every other byte as a backslash and three octal digits. *)
Definition format_text_ref (bs : list byte) : string :=
  String.concat ""
    (map (fun b =>
            let z := byte_to_Z b in
            if (32 <=? z) && (z <? 127) then String (ascii_of_byte b) EmptyString
            else String (ascii_of_byte x5c)
                   (String (hex_digit (z / 64))
                      (String (hex_digit (z / 8 mod 8))
                         (String (hex_digit (z mod 8)) EmptyString))))
         bs).

(** Modelled from the spec: a stand-in for [bytes_to_str] of epan/to_str.c,
    the raw hex rendering: two lower-case hexadecimal digits per byte. *)
Definition bytes_to_str_ref (bs : list byte) : string :=
  String.concat "" (map (fun b => fmt_0x 2 (byte_to_Z b)) bs).

(** Modelled from the spec: a stand-in for [nstime_delta] of wsutil/nstime.c,
    the elapsed time [a - b] of a completed transaction. *)
Definition nstime_delta_ref (a b : nstime_t) : nstime_t :=
  let total := (secs a - secs b) * 1000000000 + (nsecs a - nsecs b) in
  {| secs := Z.quot total 1000000000; nsecs := Z.rem total 1000000000 |}.

Definition empty_dstate : dstate :=
  {| ds_nodes := []; ds_col_protocol := None; ds_col_info := None;
     ds_conv := None; ds_data := [] |}.

(** A state whose tree holds one node, the root that the dissector is
    handed. *)
Definition root_dstate : dstate :=
  set_nodes empty_dstate
    [{| pn_parent := 0%nat; pn_hf := hf_text_only; pn_start := 0;
        pn_length := 0; pn_value := NvText "Frame"; pn_ett := None;
        pn_generated := false |}].

Section Dissector.

(** The display helpers of epan/strutil.c, epan/to_str.c and wsutil/nstime.c
    are not among the sources; the dissector is verified for every
    implementation of them.  [format_text] renders bytes as printable text,
    [bytes_to_str] renders bytes as hexadecimal digits, and [nstime_delta a b]
    is the time from [b] to [a]. *)
Variable format_text : list byte -> string.
Variable bytes_to_str : list byte -> string.
Variable nstime_delta : nstime_t -> nstime_t -> nstime_t.

Definition tvb_format_text (tvb : tvbuff_t) (offset size : Z) : res string :=
  ptr ← tvb_get_ptr tvb offset size; Ok (format_text ptr).

Definition tvb_bytes_to_str (tvb : tvbuff_t) (offset len : Z) : res string :=
  ptr ← ensure_contiguous tvb offset len; Ok (bytes_to_str ptr).

(** [add_value_head].  The name read for the [hf_ipp_name] item is returned
    next to the new offset; the C function stores it through [name_val] when
    the caller passes a non-NULL pointer, which only [add_integer_value]
    does. *)
Definition add_value_head (tag_desc : string) (tree : proto_tree)
  (tvb : tvbuff_t) (offset name_length value_length : Z)
  : M (Z * option (list byte)) :=
  _ ← proto_tree_add_string tree hf_ipp_tag offset 1 tag_desc;
  let offset := offset + 1 in
  _ ← proto_tree_add_uint tree hf_ipp_name_length offset 2 name_length;
  let offset := offset + 2 in
  name_val ←
    (if name_length =? 0 then mret None
     else
       nv ← lift (tvb_get_string_enc_ascii tvb offset name_length);
       _ ← proto_tree_add_string tree hf_ipp_name offset name_length
             (format_text (take (Z.to_nat name_length) nv));
       mret (Some nv));
  let offset := offset + name_length in
  _ ← proto_tree_add_uint tree hf_ipp_value_length offset 2 value_length;
  let offset := offset + 2 in
  mret (offset, name_val).

(** [name_val && !strcmp (name_val, lit)]. *)
Definition name_val_is (name_val : option (list byte)) (lit : string) : bool :=
  match name_val with
  | Some nv => c_streq nv lit
  | None => false
  end.

(** The label of the subtree that [add_integer_tree] creates: the formatted
    text of the branch of its [switch] that is taken.  In the enum branch
    [name_val] is the result of [tvb_get_ptr], which is not NULL once it has
    returned more than five bytes. *)
Definition integer_tree_label (tvb : tvbuff_t) (offset name_length
  value_length tag : Z) : res string :=
  if tag =? TAG_BOOLEAN then
    if negb (value_length =? 1) then
      name ← tvb_format_text tvb (offset + 1 + 2) name_length;
      Ok (fmt_label name
            (String.append "Invalid boolean (length is "
               (String.append (fmt_u value_length) ", should be 1)")))
    else
      bool_val ← tvb_get_guint8 tvb (offset + 1 + 2 + name_length + 2);
      name ← tvb_format_text tvb (offset + 1 + 2) name_length;
      Ok (fmt_label name
            (val_to_str bool_val bool_vals
               (fun v => String.append "Unknown (0x"
                           (String.append (fmt_0x 2 v) ")"))))
  else if tag =? TAG_INTEGER then
    if negb (value_length =? 4) then
      name ← tvb_format_text tvb (offset + 1 + 2) name_length;
      Ok (fmt_label name
            (String.append "Invalid integer (length is "
               (String.append (fmt_u value_length) ", should be 4)")))
    else
      name_val ← tvb_get_ptr tvb (offset + 1 + 2) name_length;
      v ← tvb_get_ntohl tvb (offset + 1 + 2 + name_length + 2);
      Ok (fmt_label (format_text name_val) (fmt_d (to_int32 v)))
  else if tag =? TAG_ENUM then
    if negb (value_length =? 4) then
      name ← tvb_format_text tvb (offset + 1 + 2) name_length;
      Ok (fmt_label name
            (String.append "Invalid enum (length is "
               (String.append (fmt_u value_length) ", should be 4)")))
    else
      name_val ← tvb_get_ptr tvb (offset + 1 + 2) name_length;
      let starts_with (lit : string) (size : Z) : bool :=
        (5 <? name_length) && (tvb_memeql tvb (offset + 1 + 2) lit size =? 0) in
      let symbolic (vs : list (Z * string)) (unknown_str : string)
        : res string :=
        v ← tvb_get_ntohl tvb (offset + 1 + 2 + name_length + 2);
        Ok (fmt_label (format_text name_val)
              (val_to_str_const v vs unknown_str)) in
      if starts_with "printer-state"%string 13 then
        symbolic printer_state_vals "Unknown Printer State"%string
      else if starts_with "job-state"%string 9 then
        symbolic job_state_vals "Unknown Job State"%string
      else if starts_with "document-state"%string 14 then
        symbolic document_state_vals "Unknown Document State"%string
      else if starts_with "operations-supported"%string 20 then
        symbolic operation_vals "Unknown Operation ID"%string
      else if starts_with "finishings"%string 10 then
        symbolic finishings_vals "Unknown Finishings Value"%string
      else if (5 <? name_length)
              && ((tvb_memeql tvb (offset + 1 + 2) "orientation-requested" 21 =? 0)
                  || (tvb_memeql tvb (offset + 1 + 2) "media-feed-orientation" 22 =? 0))
      then
        symbolic orientation_vals "Unknown Orientation Value"%string
      else if starts_with "print-quality"%string 13 then
        symbolic quality_vals "Unknown Print Quality"%string
      else if starts_with "transmission-status"%string 19 then
        symbolic transmission_status_vals "Unknown Transmission Status"%string
      else
        v ← tvb_get_ntohl tvb (offset + 1 + 2 + name_length + 2);
        Ok (fmt_label (format_text name_val) (fmt_d (to_int32 v)))
  else
    name ← tvb_format_text tvb (offset + 1 + 2) name_length;
    Ok (fmt_label name
          (String.append "Unknown integer type 0x" (fmt_0x 2 tag))).

(** [add_integer_tree]: every branch of the [switch] ends in the same
    [proto_tree_add_subtree_format] call, with the label of that branch. *)
Definition add_integer_tree (tree : proto_tree) (tvb : tvbuff_t)
  (offset name_length value_length tag : Z) : M proto_tree :=
  label ← lift (integer_tree_label tvb offset name_length value_length tag);
  proto_tree_add_subtree tree offset (1 + 2 + name_length + 2 + value_length)
    ett_ipp_attr label.

Definition add_integer_value (tag_desc : string) (tree : proto_tree)
  (tvb : tvbuff_t) (offset name_length value_length tag : Z) : M unit :=
  '(offset, name_val) ← add_value_head tag_desc tree tvb offset name_length
                           value_length;
  if tag =? TAG_BOOLEAN then
    if value_length =? 1 then
      _ ← proto_tree_add_item tree hf_ipp_bool_value tvb offset value_length;
      mret tt
    else mret tt
  else if (tag =? TAG_INTEGER) || (tag =? TAG_ENUM) then
    if value_length =? 4 then
      if (5 <? name_length) && name_val_is name_val "printer-state" then
        _ ← proto_tree_add_item tree hf_ipp_printer_state tvb offset
              value_length;
        mret tt
      else if (5 <? name_length) && name_val_is name_val "job-state" then
        _ ← proto_tree_add_item tree hf_ipp_job_state tvb offset value_length;
        mret tt
      else
        _ ← proto_tree_add_item tree hf_ipp_uint32_value tvb offset
              value_length;
        mret tt
    else mret tt
  else mret tt.

(** The [value] string that [add_octetstring_tree] builds in its [switch];
    [valbuf] has 1024 bytes. *)
Definition octetstring_value (tvb : tvbuff_t) (offset tag name_length
  value_length : Z) : res string :=
  let valoffset := offset + 1 + 2 + name_length + 2 in
  if tag =? TAG_OCTETSTRING then
    tvb_format_text tvb (offset + 1 + 2 + name_length + 2) value_length
  else if tag =? TAG_DATETIME then
    if value_length =? 11 then
      year ← tvb_get_ntohs tvb (valoffset + 0);
      month ← tvb_get_guint8 tvb (valoffset + 2);
      day ← tvb_get_guint8 tvb (valoffset + 3);
      hours ← tvb_get_guint8 tvb (valoffset + 4);
      minutes ← tvb_get_guint8 tvb (valoffset + 5);
      seconds ← tvb_get_guint8 tvb (valoffset + 6);
      decisecs ← tvb_get_guint8 tvb (valoffset + 7);
      utcsign ← tvb_get_guint8 tvb (valoffset + 8);
      utchours ← tvb_get_guint8 tvb (valoffset + 9);
      utcminutes ← tvb_get_guint8 tvb (valoffset + 10);
      Ok (g_snprintf 1024
            (String.concat ""
               [fmt_0d 4 year; "-"; fmt_0d 2 month; "-"; fmt_0d 2 day; "T";
                fmt_0d 2 hours; ":"; fmt_0d 2 minutes; ":"; fmt_0d 2 seconds;
                "."; fmt_d decisecs; fmt_c utcsign; fmt_0d 2 utchours;
                fmt_0d 2 utcminutes]%string))
    else
      tvb_bytes_to_str tvb (offset + 1 + 2 + name_length + 2) value_length
  else if tag =? TAG_RESOLUTION then
    if value_length =? 9 then
      xres ← tvb_get_ntohl tvb (valoffset + 0);
      yres ← tvb_get_ntohl tvb (valoffset + 4);
      units ← tvb_get_guint8 tvb (valoffset + 8);
      let unit_name :=
        if units =? 3 then "dpi"%string
        else if units =? 4 then "dpcm"%string else "unknown"%string in
      Ok (g_snprintf 1024
            (String.concat ""
               [fmt_d (to_int32 xres); "x"; fmt_d (to_int32 yres);
                unit_name]%string))
    else
      tvb_bytes_to_str tvb (offset + 1 + 2 + name_length + 2) value_length
  else if tag =? TAG_RANGEOFINTEGER then
    if value_length =? 8 then
      lower ← tvb_get_ntohl tvb (valoffset + 0);
      upper ← tvb_get_ntohl tvb (valoffset + 4);
      Ok (g_snprintf 1024
            (String.concat ""
               [fmt_d (to_int32 lower); "-"; fmt_d (to_int32 upper)]%string))
    else
      tvb_bytes_to_str tvb (offset + 1 + 2 + name_length + 2) value_length
  else if (tag =? TAG_TEXTWITHLANGUAGE) || (tag =? TAG_NAMEWITHLANGUAGE) then
    value ←
      (if 4 <=? value_length then
         language_length ← tvb_get_ntohs tvb (valoffset + 0);
         if tvb_offset_exists tvb (valoffset + 2 + language_length) then
           string_length ← tvb_get_ntohs tvb (valoffset + 2 + language_length);
           if tvb_offset_exists tvb
                (valoffset + 2 + language_length + 2 + string_length)
           then
             str ← tvb_format_text tvb (valoffset + 2 + language_length + 2)
                     string_length;
             lang ← tvb_format_text tvb (valoffset + 2) language_length;
             Ok (Some (g_snprintf 1024
                         (String.concat "" [str; " ("; lang; ")"]%string)))
           else Ok None
         else Ok None
       else Ok None);
    match value with
    | Some v => Ok v
    | None =>
        tvb_bytes_to_str tvb (offset + 1 + 2 + name_length + 2) value_length
    end
  else
    tvb_bytes_to_str tvb (offset + 1 + 2 + name_length + 2) value_length.

Definition add_octetstring_tree (tree : proto_tree) (tvb : tvbuff_t)
  (offset tag name_length value_length : Z) : M proto_tree :=
  value ← lift (octetstring_value tvb offset tag name_length value_length);
  name ← lift (tvb_format_text tvb (offset + 1 + 2) name_length);
  proto_tree_add_subtree tree offset (1 + 2 + name_length + 2 + value_length)
    ett_ipp_attr (fmt_label name value).

Definition add_octetstring_value (tag_desc : string) (tree : proto_tree)
  (tvb : tvbuff_t) (offset name_length value_length : Z) : M unit :=
  '(offset, _) ← add_value_head tag_desc tree tvb offset name_length
                    value_length;
  _ ← proto_tree_add_item tree hf_ipp_bytes_value tvb offset value_length;
  mret tt.

Definition add_charstring_tree (tree : proto_tree) (tvb : tvbuff_t)
  (offset name_length value_length : Z) : M proto_tree :=
  name ← lift (tvb_format_text tvb (offset + 1 + 2) name_length);
  value ← lift (tvb_format_text tvb (offset + 1 + 2 + name_length + 2)
                  value_length);
  proto_tree_add_subtree tree offset (1 + 2 + name_length + 2 + value_length)
    ett_ipp_attr (fmt_label name value).

Definition add_charstring_value (tag_desc : string) (tree : proto_tree)
  (tvb : tvbuff_t) (offset name_length value_length : Z) : M unit :=
  '(offset, _) ← add_value_head tag_desc tree tvb offset name_length
                    value_length;
  _ ← proto_tree_add_item tree hf_ipp_charstring_value tvb offset value_length;
  mret tt.

(** One iteration of the [while] loop of [parse_attributes], entered when
    [tvb_offset_exists (tvb, offset)] holds. *)
Definition parse_attributes_body (tvb : tvbuff_t) (tree : proto_tree)
  (l : pa_locals) : M (loop_ctl * pa_locals) :=
  let offset := pa_offset l in
  tag ← lift (tvb_get_guint8 tvb offset);
  let tag_desc := val_to_str tag tag_vals fmt_reserved_tag in
  if TAG_TYPE tag =? TAG_TYPE_DELIMITER then
    _ ← (match pa_tas l with
         | Some _ =>
             proto_item_set_len (pa_tas l) (offset - pa_start_offset l)
         | None => mret tt
         end);
    sub ← proto_tree_add_subtree tree offset 1 ett_ipp_as tag_desc;
    let l' := {| pa_offset := offset + 1; pa_as_tree := None; pa_tas := sub;
                 pa_start_offset := offset; pa_attr_tree := tree;
                 pa_subtree := sub |} in
    if tag =? TAG_END_OF_ATTRIBUTES then mret (LoopBreak, l')
    else mret (LoopContinue, l')
  else
    name_length ← lift (tvb_get_ntohs tvb (offset + 1));
    value_length ← lift (tvb_get_ntohs tvb (offset + 1 + 2 + name_length));
    let as_tree :=
      match pa_as_tree l with None => pa_subtree l | Some t => Some t end in
    let attr_tree :=
      match pa_as_tree l with None => as_tree | Some _ => pa_attr_tree l end in
    attr_tree ←
      (if TAG_TYPE tag =? TAG_TYPE_INTEGER then
         attr_tree ←
           (if negb (name_length =? 0) then
              add_integer_tree as_tree tvb offset name_length value_length tag
            else mret attr_tree);
         _ ← add_integer_value tag_desc attr_tree tvb offset name_length
               value_length tag;
         mret attr_tree
       else if TAG_TYPE tag =? TAG_TYPE_OCTETSTRING then
         attr_tree ←
           (if negb (name_length =? 0) then
              add_octetstring_tree as_tree tvb offset tag name_length
                value_length
            else mret attr_tree);
         _ ← add_octetstring_value tag_desc attr_tree tvb offset name_length
               value_length;
         mret attr_tree
       else if TAG_TYPE tag =? TAG_TYPE_CHARSTRING then
         attr_tree ←
           (if negb (name_length =? 0) then
              add_charstring_tree as_tree tvb offset name_length value_length
            else mret attr_tree);
         _ ← add_charstring_value tag_desc attr_tree tvb offset name_length
               value_length;
         mret attr_tree
       else mret attr_tree);
    mret (LoopContinue,
          {| pa_offset := offset + (1 + 2 + name_length + 2 + value_length);
             pa_as_tree := as_tree; pa_tas := pa_tas l;
             pa_start_offset := pa_start_offset l; pa_attr_tree := attr_tree;
             pa_subtree := pa_subtree l |}).

(** The [while] loop, with a budget of iterations. *)
Fixpoint parse_attributes_loop (fuel : nat) (tvb : tvbuff_t)
  (tree : proto_tree) (l : pa_locals) : M Z :=
  match fuel with
  | O => lift OutOfFuel
  | S fuel' =>
      if tvb_offset_exists tvb (pa_offset l) then
        '(ctl, l') ← parse_attributes_body tvb tree l;
        match ctl with
        | LoopBreak => mret (pa_offset l')
        | LoopContinue => parse_attributes_loop fuel' tvb tree l'
        end
      else mret (pa_offset l)
  end.

(** An iteration budget that the loop never exhausts: every completed
    iteration moves the offset forward, and the loop continues only at an
    offset inside the buffer. *)
Definition parse_attributes_fuel (tvb : tvbuff_t) (offset : Z) : nat :=
  S (Z.to_nat (tvb_captured_length tvb - offset)).

Definition parse_attributes (tvb : tvbuff_t) (offset : Z) (tree : proto_tree)
  : M Z :=
  parse_attributes_loop (parse_attributes_fuel tvb offset) tvb tree
    (parse_attributes_init offset tree).

(** The request-id table of a conversation; a conversation without IPP data
    has no transaction. *)
Definition conv_pdus (s : dstate) : gmap Z ipp_transaction_t :=
  match ds_conv s with
  | Some ipp_info => pdus ipp_info
  | None => ∅
  end.

(** Modelled from the spec: [conversation_get_proto_data] of
    epan/conversation.c, and on NULL the creation of the IPP data with an
    empty [pdus] map ([wmem_map_new], [conversation_add_proto_data]). *)
Definition get_ipp_info : M unit :=
  modify (fun s =>
    match ds_conv s with
    | Some _ => s
    | None => set_conv s (Some {| pdus := ∅ |})
    end).

(** Modelled from the spec: [wmem_map_insert] and [wmem_map_lookup] of
    epan/wmem/wmem_map.c on the [pdus] map of the conversation: insertion
    replaces the value stored under the key. *)
Definition wmem_map_insert (key : Z) (value : ipp_transaction_t) : M unit :=
  modify (fun s => set_conv s (Some {| pdus := <[key := value]> (conv_pdus s) |})).

Definition wmem_map_lookup (key : Z) : M (option ipp_transaction_t) :=
  gets (fun s => conv_pdus s !! key).

(** An assignment through the pointer that [wmem_map_lookup] returned for
    [key]: the transaction stored under [key] becomes [value]. *)
Definition ipp_trans_write (key : Z) (value : ipp_transaction_t) : M unit :=
  modify (fun s => set_conv s (Some {| pdus := <[key := value]> (conv_pdus s) |})).

(** Lines 451 to 482 of [dissect_ipp]: the transaction of the message.  The
    C code holds a pointer to the transaction stored in the map, so the
    assignment to [rep_frame] changes the stored transaction. *)
Definition ipp_transaction (pinfo : packet_info) (is_request : bool)
  (request_id : Z) : M ipp_transaction_t :=
  _ ← get_ipp_info;
  ipp_trans ←
    (if negb (pinfo_fd_visited pinfo) then
       if is_request then
         let ipp_trans := {| req_frame := pinfo_num pinfo; rep_frame := 0;
                             req_time := pinfo_abs_ts pinfo |} in
         _ ← wmem_map_insert request_id ipp_trans;
         mret (Some ipp_trans)
       else
         ipp_trans ← wmem_map_lookup request_id;
         match ipp_trans with
         | Some t =>
             let t' := {| req_frame := req_frame t;
                          rep_frame := pinfo_num pinfo;
                          req_time := req_time t |} in
             _ ← ipp_trans_write request_id t';
             mret (Some t')
         | None => mret None
         end
     else wmem_map_lookup request_id);
  match ipp_trans with
  | Some t => mret t
  | None =>
      mret {| req_frame := 0; rep_frame := 0; req_time := pinfo_abs_ts pinfo |}
  end.

(** Lines 484 to 554 of [dissect_ipp]: the state-tracking items, the fixed
    header, the attributes and the trailing data. *)
Definition dissect_ipp_message (tvb : tvbuff_t) (pinfo : packet_info)
  (is_request : bool) (operation_status : Z) (ipp_tree : proto_tree)
  (ipp_trans : ipp_transaction_t) : M Z :=
  let offset := 0 in
  _ ← (if is_request then
         if negb (rep_frame ipp_trans =? 0) then
           it ← proto_tree_add_uint ipp_tree hf_ipp_response_in 0 0
                  (rep_frame ipp_trans);
           PROTO_ITEM_SET_GENERATED it
         else mret tt
       else
         if negb (req_frame ipp_trans =? 0) then
           it ← proto_tree_add_uint ipp_tree hf_ipp_response_to 0 0
                  (req_frame ipp_trans);
           _ ← PROTO_ITEM_SET_GENERATED it;
           let ns := nstime_delta (pinfo_abs_ts pinfo) (req_time ipp_trans) in
           it ← proto_tree_add_time ipp_tree hf_ipp_response_time 0 0 ns;
           PROTO_ITEM_SET_GENERATED it
         else mret tt);
  _ ← proto_tree_add_item ipp_tree hf_ipp_version tvb offset 2;
  let offset := offset + 2 in
  _ ← (if is_request then
         proto_tree_add_item ipp_tree hf_ipp_operation_id tvb offset 2
       else
         let masked := Z.land operation_status STATUS_TYPE_MASK in
         let status_type :=
           if masked =? STATUS_SUCCESSFUL then "Successful"%string
           else if masked =? STATUS_INFORMATIONAL then "Informational"%string
           else if masked =? STATUS_REDIRECTION then "Redirection"%string
           else if masked =? STATUS_CLIENT_ERROR then "Client Error"%string
           else if masked =? STATUS_SERVER_ERROR then "Server Error"%string
           else "Unknown"%string in
         proto_tree_add_uint_format_value ipp_tree hf_ipp_status_code offset 2
           operation_status
           (String.concat ""
              [status_type; " (";
               val_to_str operation_status status_vals fmt_0x04; ")"]%string));
  let offset := offset + 2 in
  _ ← proto_tree_add_item ipp_tree hf_ipp_request_id tvb offset 4;
  let offset := offset + 4 in
  offset ← parse_attributes tvb offset ipp_tree;
  _ ← (if tvb_offset_exists tvb offset then
         call_data_dissector tvb offset ipp_tree
       else mret tt);
  mret (tvb_captured_length tvb).

(** Whether the message is a request: the HTTP dissector says so, and
    without its word the destination port decides. *)
Definition ipp_is_request (pinfo : packet_info)
  (data : option http_message_info_t) : bool :=
  match data with
  | Some message_info =>
      match http_type message_info with
      | HTTP_REQUEST => true
      | HTTP_RESPONSE => false
      | _ => pinfo_destport pinfo =? pinfo_match_uint pinfo
      end
  | None => pinfo_destport pinfo =? pinfo_match_uint pinfo
  end.

Definition dissect_ipp (tvb : tvbuff_t) (pinfo : packet_info)
  (tree : proto_tree) (data : option http_message_info_t) : M Z :=
  let offset := 0 in
  let is_request := ipp_is_request pinfo data in
  operation_status ← lift (tvb_get_ntohs tvb 2);
  request_id ← lift (tvb_get_ntohl tvb 4);
  _ ← col_set_protocol "IPP";
  let info :=
    if is_request then
      String.concat ""
        ["IPP Request (";
         val_to_str operation_status operation_vals fmt_0x04; ")"]%string
    else
      String.concat ""
        ["IPP Response (";
         val_to_str operation_status status_vals fmt_0x04; ")"]%string in
  _ ← col_set_info info;
  ti ← proto_tree_add_item tree proto_ipp tvb offset (-1);
  ipp_tree ← proto_item_add_subtree ti ett_ipp;
  ipp_trans ← ipp_transaction pinfo is_request request_id;
  dissect_ipp_message tvb pinfo is_request operation_status ipp_tree ipp_trans.

(** Modelled from the spec: [ITEM_LABEL_LENGTH] of epan/proto.h, the size
    of the buffer that a [BASE_CUSTOM] formatter such as [ipp_fmt_version]
    writes the text of a field to. *)
Definition ITEM_LABEL_LENGTH : nat := 240.

(** [ipp_fmt_version]: the text of the version field, ["%u.%u"] of the two
    [guint8] casts. *)
Definition ipp_fmt_version (revision : Z) : string :=
  g_snprintf ITEM_LABEL_LENGTH
    (String.concat ""
       [fmt_u (Z.land (Z.shiftr (Z.land revision 0xFF00) 8) 0xFF); ".";
        fmt_u (Z.land (Z.land revision 0xFF) 0xFF)]%string).

(** ** Definitions used to state the properties *)

(** The table that a name selects for an enum value: the first well-known
    name that the attribute name starts with. *)
Definition enum_table_of (name : list byte)
  : option (string * (list (Z * string) * string)) :=
  find (fun e => bool_decide (list_byte_of_string (fst e) `prefix_of` name))
    enum_name_tables.

(** The text of an enum value under an attribute name: the symbol of the
    selected table, its "Unknown ..." text for a value the table lacks, and
    the signed decimal value when the name selects no table. *)
Definition enum_value_text (name : list byte) (v : Z) : string :=
  match enum_table_of name with
  | Some (_, (vs, unknown_str)) => val_to_str_const v vs unknown_str
  | None => fmt_d (to_int32 v)
  end.

(** The value size that a fixed-size integer-family tag requires, and the
    word for the tag in the length-mismatch note. *)
Definition fixed_size (tag : Z) : Z :=
  if tag =? TAG_BOOLEAN then 1 else 4.

Definition fixed_kind (tag : Z) : string :=
  if tag =? TAG_BOOLEAN then "boolean"
  else if tag =? TAG_INTEGER then "integer" else "enum".

Definition invalid_note (tag value_length : Z) : string :=
  String.concat ""
    ["Invalid "; fixed_kind tag; " (length is "; fmt_u value_length;
     ", should be "; fmt_u (fixed_size tag); ")"]%string.

(** A computation that leaves the request-id table of the conversation as
    it is, however it ends. *)
Definition keeps_pdus {A : Type} (m : M A) : Prop :=
  forall s, conv_pdus (fst (m s)) = conv_pdus s.

(** A computation that only adds tree nodes, columns and payloads but does
    not touch the conversation data at all. *)
Definition keeps_conv {A : Type} (m : M A) : Prop :=
  forall s, ds_conv (fst (m s)) = ds_conv s.

(** A computation that never reports an exhausted iteration budget. *)
Definition never_out_of_fuel {A : Type} (m : M A) : Prop :=
  forall s, snd (m s) <> OutOfFuel.

(** A computation that changes the tree only by adding nodes at its end. *)
Definition appends_nodes {A : Type} (m : M A) : Prop :=
  forall s, exists extra, ds_nodes (fst (m s)) = ds_nodes s ++ extra.

(** A computation that leaves one component of the state as it is, however
    it ends. *)
Definition keeps_field {A X : Type} (proj : dstate -> X) (m : M A) : Prop :=
  forall s, proj (fst (m s)) = proj s.

(** An item that is NULL or a node at index [n0] or later. *)
Definition fresh_from (n0 : nat) (it : option nat) : Prop :=
  match it with
  | Some i => (n0 <= i)%nat
  | None => True
  end.

(** A computation that leaves the first [n0] nodes of the tree as they are,
    keeps [P] true of all later nodes, and whose result, when it returns,
    satisfies [R]. *)
Definition extends_tree {A : Type} (n0 : nat) (P : proto_node -> Prop)
  (R : A -> Prop) (m : M A) : Prop :=
  forall s,
    (n0 <= length (ds_nodes s))%nat ->
    Forall P (drop n0 (ds_nodes s)) ->
    take n0 (ds_nodes (fst (m s))) = take n0 (ds_nodes s)
    /\ (n0 <= length (ds_nodes (fst (m s))))%nat
    /\ Forall P (drop n0 (ds_nodes (fst (m s))))
    /\ match snd (m s) with
       | Ok a => R a
       | _ => True
       end.

(** A computation that returns normally from every state. *)
Definition succeeds {A : Type} (m : M A) : Prop :=
  forall s, exists s' a, m s = (s', Ok a).

(** Two computations that end in the same way from any two states: both
    return, with results related by [R], or both raise the same exception. *)
Definition same_outcome {A B : Type} (R : A -> B -> Prop) (m1 : M A)
  (m2 : M B) : Prop :=
  forall s1 s2,
    match snd (m1 s1), snd (m2 s2) with
    | Ok a, Ok b => R a b
    | Throw e1, Throw e2 => e1 = e2
    | OutOfFuel, OutOfFuel => True
    | _, _ => False
    end.

(** The two bytes of a big-endian 16-bit length. *)
Definition be16 (n : Z) : list byte := [byte_of_Z (n / 256); byte_of_Z n].

(** What the attribute section of a message is made of: one-byte delimiter
    tags and value records. *)
Inductive ipp_item : Type :=
| ItemDelimiter (tag : byte)
| ItemValue (tag : byte) (name value : list byte).

(** The bytes of an item on the wire: a delimiter is its tag byte; a value
    record is the tag byte, the 16-bit length of the name, the name, the
    16-bit length of the value and the value. *)
Definition encode_item (i : ipp_item) : list byte :=
  match i with
  | ItemDelimiter tag => [tag]
  | ItemValue tag name value =>
      tag :: be16 (Z.of_nat (length name)) ++ name
          ++ be16 (Z.of_nat (length value)) ++ value
  end.

Definition encode_items (items : list ipp_item) : list byte :=
  flat_map encode_item items.

(** A value record whose lengths fit their 16-bit fields and whose tag is a
    value tag. *)
Definition value_record (tag : byte) (name value : list byte) : bool :=
  negb (TAG_TYPE (byte_to_Z tag) =? TAG_TYPE_DELIMITER)
  && (Z.of_nat (length name) <? 65536)
  && (Z.of_nat (length value) <? 65536).

(** The items that the parser steps over whatever follows them: a delimiter
    other than end-of-attributes, and a value record that is not a
    text-with-language or name-with-language value (whose rendering reads
    lengths inside the value). *)
Definition plain_item (i : ipp_item) : bool :=
  match i with
  | ItemDelimiter tag =>
      (TAG_TYPE (byte_to_Z tag) =? TAG_TYPE_DELIMITER)
      && negb (byte_to_Z tag =? TAG_END_OF_ATTRIBUTES)
  | ItemValue tag name value =>
      value_record tag name value
      && negb (byte_to_Z tag =? TAG_TEXTWITHLANGUAGE)
      && negb (byte_to_Z tag =? TAG_NAMEWITHLANGUAGE)
  end.

Definition is_value_item (i : ipp_item) : bool :=
  match i with
  | ItemDelimiter _ => false
  | ItemValue _ _ _ => true
  end.

(** What lines 459 to 475 of [dissect_ipp] do to the request-id table [m] of
    the conversation: nothing on a later visit; on the first visit a request
    stores a fresh transaction under its request id, and a response writes
    its frame number into the transaction found under its request id, if
    there is one. *)
Definition pdus_after (pinfo : packet_info) (is_request : bool)
  (request_id : Z) (m : gmap Z ipp_transaction_t) : gmap Z ipp_transaction_t :=
  if pinfo_fd_visited pinfo then m
  else if is_request then
    <[request_id := {| req_frame := pinfo_num pinfo; rep_frame := 0;
                       req_time := pinfo_abs_ts pinfo |}]> m
  else
    match m !! request_id with
    | Some t =>
        <[request_id := {| req_frame := req_frame t;
                           rep_frame := pinfo_num pinfo;
                           req_time := req_time t |}]> m
    | None => m
    end.

(** The transaction that the rest of [dissect_ipp] works with: the one found
    under the request id, or the "fake" one of lines 476 to 482. *)
Definition transaction_of (pinfo : packet_info) (request_id : Z)
  (m : gmap Z ipp_transaction_t) : ipp_transaction_t :=
  match m !! request_id with
  | Some t => t
  | None =>
      {| req_frame := 0; rep_frame := 0; req_time := pinfo_abs_ts pinfo |}
  end.

(** The fields of the nodes that the attribute parser adds: the label-only
    subtrees of groups and attributes, and the items of a value record. *)
Definition attribute_field (hf : hf_index) : bool :=
  match hf with
  | hf_text_only | hf_ipp_tag | hf_ipp_name_length | hf_ipp_name
  | hf_ipp_value_length | hf_ipp_bool_value | hf_ipp_printer_state
  | hf_ipp_job_state | hf_ipp_uint32_value | hf_ipp_bytes_value
  | hf_ipp_charstring_value => true
  | _ => false
  end.

(** The fields of the generated items that link a request and its
    response. *)
Definition link_field (hf : hf_index) : bool :=
  match hf with
  | hf_ipp_response_in | hf_ipp_response_to | hf_ipp_response_time => true
  | _ => false
  end.

(** A tree pointer that is NULL, the tree the parser was handed, or, when
    that tree is not NULL, a node at index [n0] or later. *)
Definition under (tree : option nat) (n0 : nat) (t : option nat) : Prop :=
  match t with
  | Some i => tree = Some i \/ ((n0 <= i)%nat /\ tree <> None)
  | None => True
  end.

(** A node as the attribute parser adds them when it is handed [tree] and
    the tree has [n0] nodes. *)
Definition attribute_node (tree : option nat) (n0 : nat) (n : proto_node)
  : Prop :=
  attribute_field (pn_hf n) = true
  /\ pn_generated n = false
  /\ under tree n0 (Some (pn_parent n)).

(** What holds of the local variables of [parse_attributes] between two
    iterations: the three tree pointers are NULL, the tree handed in, or a
    node the parser has added, and so is the item of the current group. *)
Definition pa_invariant (tree : option nat) (n0 : nat) (l : pa_locals)
  : Prop :=
  under tree n0 (pa_as_tree l)
  /\ under tree n0 (pa_attr_tree l)
  /\ under tree n0 (pa_subtree l)
  /\ fresh_from n0 (pa_tas l).

(** An item of a value record: a node without a subtree that is not marked
    as generated. *)
Definition value_item (parent : nat) (hf : hf_index) (start length : Z)
  (v : node_value) : proto_node :=
  {| pn_parent := parent; pn_hf := hf; pn_start := start; pn_length := length;
     pn_value := v; pn_ett := None; pn_generated := false |}.

(** The field of the value item of a 4-byte Integer or Enum value under an
    attribute name of seven-bit bytes: the name, read as a C string, is
    compared as a whole. *)
Definition value_field (name : list byte) : hf_index :=
  if bool_decide (c_str name = list_byte_of_string "printer-state") then
    hf_ipp_printer_state
  else if bool_decide (c_str name = list_byte_of_string "job-state") then
    hf_ipp_job_state
  else hf_ipp_uint32_value.

(** The value records on which the rendering of a text-with-language value
    reads past the end of the buffer: a TextWithLanguage or NameWithLanguage
    record that carries a name, whose value has at least 4 bytes, and whose
    language length (the first two bytes of the value) puts the two bytes of
    the text length on the last byte of the buffer. *)
Definition language_overruns_buffer (tvb : tvbuff_t)
  (offset tag name_length value_length : Z) : bool :=
  ((tag =? TAG_TEXTWITHLANGUAGE) || (tag =? TAG_NAMEWITHLANGUAGE))
  && negb (name_length =? 0)
  && (4 <=? value_length)
  && match tvb_get_ntohs tvb (offset + 1 + 2 + name_length + 2) with
     | Ok language_length =>
         offset + 1 + 2 + name_length + 2 + 2 + language_length + 1
         =? tvb_captured_length tvb
     | _ => false
     end.

(** The protocol item of a message: a subtree under the tree that
    [dissect_ipp] was handed, over the whole buffer. *)
Definition protocol_item (parent : nat) (tvb : tvbuff_t) : proto_node :=
  {| pn_parent := parent; pn_hf := proto_ipp; pn_start := 0; pn_length := -1;
     pn_value := NvItem tvb; pn_ett := Some ett_ipp; pn_generated := false |}.

(** A generated item without bytes under the protocol item [ipp]. *)
Definition link_item (ipp : nat) (hf : hf_index) (v : node_value)
  : proto_node :=
  {| pn_parent := ipp; pn_hf := hf; pn_start := 0; pn_length := 0;
     pn_value := v; pn_ett := None; pn_generated := true |}.

(** The items that link a message to the other message of its transaction
    [t]: for a request the frame of the response, for a response the frame
    of the request and the time since the request; none when the transaction
    does not name the frame of the other message. *)
Definition link_items (ipp : nat) (pinfo : packet_info) (is_request : bool)
  (t : ipp_transaction_t) : list proto_node :=
  if is_request then
    if rep_frame t =? 0 then []
    else [link_item ipp hf_ipp_response_in (NvUint (rep_frame t))]
  else
    if req_frame t =? 0 then []
    else [link_item ipp hf_ipp_response_to (NvUint (req_frame t));
          link_item ipp hf_ipp_response_time
            (NvTime (nstime_delta (pinfo_abs_ts pinfo) (req_time t)))].

(** The text of the status code of a response: the class of the status and,
    in parentheses, the name of the status. *)
Definition status_code_text (operation_status : Z) : string :=
  let masked := Z.land operation_status STATUS_TYPE_MASK in
  let status_type :=
    if masked =? STATUS_SUCCESSFUL then "Successful"%string
    else if masked =? STATUS_INFORMATIONAL then "Informational"%string
    else if masked =? STATUS_REDIRECTION then "Redirection"%string
    else if masked =? STATUS_CLIENT_ERROR then "Client Error"%string
    else if masked =? STATUS_SERVER_ERROR then "Server Error"%string
    else "Unknown"%string in
  String.concat ""
    [status_type; " ("; val_to_str operation_status status_vals fmt_0x04;
     ")"]%string.

(** The three items of the fixed header under the protocol item [ipp]: the
    two version bytes, the two bytes of the operation id (of a request) or
    of the status code (of a response, with its text), and the four bytes of
    the request id. *)
Definition header_items (ipp : nat) (tvb : tvbuff_t) (is_request : bool)
  (operation_status : Z) : list proto_node :=
  [value_item ipp hf_ipp_version 0 2 (NvItem (take 2 tvb));
   if is_request then
     value_item ipp hf_ipp_operation_id 2 2 (NvItem (take 2 (drop 2 tvb)))
   else
     value_item ipp hf_ipp_status_code 2 2
       (NvUintRepr operation_status (status_code_text operation_status));
   value_item ipp hf_ipp_request_id 4 4 (NvItem (take 4 (drop 4 tvb)))].

(** What [dissect_ipp] does once the header items are in the tree: the
    attributes are parsed from offset 8 under the protocol item, the bytes
    after them, if any, go to the data dissector, and the length of the
    buffer is returned. *)
Definition attributes_and_payload (tvb : tvbuff_t) (ipp_tree : proto_tree)
  : M Z :=
  offset ← parse_attributes tvb 8 ipp_tree;
  _ ← (if tvb_offset_exists tvb offset then
         call_data_dissector tvb offset ipp_tree
       else mret tt);
  mret (tvb_captured_length tvb).

(** What it is for [dissect_ipp] to have dissected a message with the
    transaction [t], when it started in the state [s] and ended with [r].
    Under a tree, the tree has got the protocol item, under it the link
    items of [t] and the three items of the fixed header, and then the nodes
    that the attribute parser adds when it is run from offset 8 under the
    protocol item; under a NULL tree it has got no node.  The dissection
    ends as that run of the attribute parser ends: it returns the length of
    the buffer when the parser returns, and raises what the parser raises.
    And when the buffer holds the header, plain items, the end-of-attributes
    tag and a payload, the dissection returns the length of the buffer and
    the payload, if there is one, has gone to the data dissector. *)
Definition message_dissected (tvb : tvbuff_t) (pinfo : packet_info)
  (tree : proto_tree) (is_request : bool) (operation_status : Z)
  (t : ipp_transaction_t) (s : dstate) (r : dstate * res Z) : Prop :=
  let ipp := List.length (ds_nodes s) in
  let ipp_tree := match tree with
                  | Some _ => Some ipp
                  | None => None
                  end in
  let shown :=
    match tree with
    | Some parent =>
        protocol_item parent tvb
        :: link_items ipp pinfo is_request t
        ++ header_items ipp tvb is_request operation_status
    | None => []
    end in
  (exists s3 extra,
      ds_nodes s3 = ds_nodes s ++ shown
      /\ ds_nodes (fst (parse_attributes tvb 8 ipp_tree s3))
         = ds_nodes s3 ++ extra
      /\ Forall (attribute_node ipp_tree (List.length (ds_nodes s3))) extra
      /\ ds_nodes (fst r) = ds_nodes s ++ shown ++ extra
      /\ snd r = match snd (parse_attributes tvb 8 ipp_tree s3) with
                 | Ok _ => Ok (tvb_captured_length tvb)
                 | Throw e => Throw e
                 | OutOfFuel => OutOfFuel
                 end)
  /\ forall hdr items payload,
       tvb = hdr ++ encode_items items ++ x03 :: payload ->
       List.length hdr = 8%nat ->
       forallb plain_item items = true ->
       snd r = Ok (Z.of_nat (List.length tvb))
       /\ ds_data (fst r)
          = ds_data s ++ match payload with
                         | [] => []
                         | _ :: _ => [(payload, ipp_tree)]
                         end.

(** * Properties *)

(** ** Bytes and tvbuff reads *)

Lemma byte_to_Z_range (b : byte) : 0 <= byte_to_Z b < 256.
Proof.
  unfold byte_to_Z. pose proof (Byte.to_N_bounded b). lia.
Qed.

Lemma testbit_small (b n : Z) : 0 <= b < 256 -> 8 <= n -> Z.testbit b n = false.
Proof.
  intros Hb Hn. apply Z.testbit_false; [lia|].
  rewrite Z.div_small; [reflexivity|].
  split; [lia|]. apply Z.lt_le_trans with (2 ^ 8); [lia|].
  apply Z.pow_le_mono_r; lia.
Qed.

Lemma be_step (acc b : Z) :
  0 <= b < 256 -> Z.lor (Z.shiftl acc 8) b = acc * 256 + b.
Proof.
  intros Hb. rewrite Z.shiftl_mul_pow2 by lia.
  change (2 ^ 8) with 256. symmetry. apply Z.add_nocarry_lor.
  apply Z.bits_inj'. intros n Hn. rewrite Z.land_spec, Z.bits_0.
  destruct (Z_lt_le_dec n 8).
  - change 256 with (2 ^ 8). rewrite Z.mul_pow2_bits_low by lia. reflexivity.
  - rewrite (testbit_small b n) by lia. apply andb_false_r.
Qed.

Lemma be_value_snoc (bs : list byte) (b : byte) :
  be_value (bs ++ [b]) = be_value bs * 256 + byte_to_Z b.
Proof.
  unfold be_value. rewrite fold_left_app. simpl.
  apply be_step, byte_to_Z_range.
Qed.

Lemma be_value_range (bs : list byte) :
  0 <= be_value bs < 256 ^ Z.of_nat (length bs).
Proof.
  induction bs as [|b bs IH] using rev_ind.
  - unfold be_value. simpl. lia.
  - rewrite be_value_snoc, length_app. simpl length.
    rewrite Nat2Z.inj_add, Z.pow_add_r by lia.
    change (256 ^ Z.of_nat 1) with 256.
    pose proof (byte_to_Z_range b). nia.
Qed.

Lemma compute_offset_nonneg (tvb : list byte) (offset : Z) :
  0 <= offset ->
  compute_offset tvb offset =
    if offset <=? tvb_captured_length tvb then Ok offset else Throw BoundsError.
Proof.
  intros H. unfold compute_offset.
  destruct (0 <=? offset) eqn:E; [reflexivity|lia].
Qed.

Lemma ensure_contiguous_in_bounds (tvb : list byte) (offset n : Z) :
  0 <= offset -> 0 <= n -> offset + n <= tvb_captured_length tvb ->
  ensure_contiguous tvb offset n
  = Ok (take (Z.to_nat n) (drop (Z.to_nat offset) tvb)).
Proof.
  intros Ho Hn Hb. unfold ensure_contiguous.
  rewrite compute_offset_nonneg by lia.
  destruct (offset <=? tvb_captured_length tvb) eqn:E1; [|lia].
  cbn. destruct (n <? -1) eqn:E2; [lia|].
  destruct (n =? -1) eqn:E3; [lia|].
  destruct (offset + n <=? tvb_captured_length tvb) eqn:E4; [reflexivity|lia].
Qed.

Lemma ensure_contiguous_out_of_bounds (tvb : list byte) (offset n : Z) :
  0 <= offset -> 0 <= n -> tvb_captured_length tvb < offset + n ->
  ensure_contiguous tvb offset n = Throw BoundsError.
Proof.
  intros Ho Hn Hb. unfold ensure_contiguous.
  rewrite compute_offset_nonneg by lia.
  destruct (offset <=? tvb_captured_length tvb) eqn:E1; [|reflexivity].
  cbn. destruct (n <? -1) eqn:E2; [reflexivity|].
  destruct (n =? -1) eqn:E3; [lia|].
  destruct (offset + n <=? tvb_captured_length tvb) eqn:E4; [lia|reflexivity].
Qed.

Lemma ensure_contiguous_length (tvb : list byte) (offset n : Z) (bs : list byte) :
  0 <= n -> ensure_contiguous tvb offset n = Ok bs ->
  Z.of_nat (length bs) = n.
Proof.
  intros Hn. unfold ensure_contiguous, tvb_captured_length.
  destruct (compute_offset tvb offset) as [a| |] eqn:Ec; cbn; try discriminate.
  destruct (n <? -1) eqn:E2; [discriminate|].
  destruct (n =? -1) eqn:E3; [lia|].
  destruct (a + n <=? Z.of_nat (length tvb)) eqn:E4; [|discriminate].
  intros [= <-].
  assert (0 <= a).
  { unfold compute_offset, tvb_captured_length in Ec.
    destruct (0 <=? offset) eqn:E0.
    - destruct (offset <=? Z.of_nat (length tvb)); inversion Ec; lia.
    - destruct (- offset <=? Z.of_nat (length tvb)) eqn:E5; inversion Ec; lia. }
  rewrite length_take, length_drop. lia.
Qed.

Lemma ensure_contiguous_Ok_bounds (tvb : list byte) (offset n : Z) (bs : list byte) :
  0 <= offset -> 0 <= n -> ensure_contiguous tvb offset n = Ok bs ->
  offset + n <= tvb_captured_length tvb.
Proof.
  intros Ho Hn H.
  destruct (Z_le_gt_dec (offset + n) (tvb_captured_length tvb)); [assumption|].
  rewrite ensure_contiguous_out_of_bounds in H by lia. discriminate.
Qed.

(** ** The dissection monad *)

Lemma bind_Ok {A B : Type} (m : M A) (k : A -> M B) (s s1 : dstate) (a : A) :
  m s = (s1, Ok a) -> (m ≫= k) s = k a s1.
Proof. intros H. unfold mbind, M_bind. rewrite H. reflexivity. Qed.

Lemma bind_Throw {A B : Type} (m : M A) (k : A -> M B) (s s1 : dstate)
  (e : exception) :
  m s = (s1, Throw e) -> (m ≫= k) s = (s1, Throw e).
Proof. intros H. unfold mbind, M_bind. rewrite H. reflexivity. Qed.

Lemma bind_lift_Ok {A B : Type} (r : res A) (k : A -> M B) (s : dstate) (a : A) :
  r = Ok a -> (lift r ≫= k) s = k a s.
Proof. intros ->. reflexivity. Qed.

Lemma bind_lift_Throw {A B : Type} (r : res A) (k : A -> M B) (s : dstate)
  (e : exception) :
  r = Throw e -> (lift r ≫= k) s = (s, Throw e).
Proof. intros ->. reflexivity. Qed.

Lemma bind_Ok_inv {A B : Type} (m : M A) (k : A -> M B) (s s' : dstate) (b : B) :
  (m ≫= k) s = (s', Ok b) ->
  exists a s1, m s = (s1, Ok a) /\ k a s1 = (s', Ok b).
Proof.
  unfold mbind, M_bind. destruct (m s) as [s1 [a|e|]]; try discriminate.
  intros H. exists a, s1. split; [reflexivity|exact H].
Qed.

Lemma bind_lift_Ok_inv {A B : Type} (r : res A) (k : A -> M B) (s s' : dstate)
  (b : B) :
  (lift r ≫= k) s = (s', Ok b) -> exists a, r = Ok a /\ k a s = (s', Ok b).
Proof.
  intros H. apply bind_Ok_inv in H as (a & s1 & H1 & H2).
  unfold lift in H1. inversion H1; subst. eauto.
Qed.

Lemma res_bind_Ok_inv {A B : Type} (r : res A) (k : A -> res B) (b : B) :
  r ≫= k = Ok b -> exists a, r = Ok a /\ k a = Ok b.
Proof.
  destruct r as [a|e|]; cbn; try discriminate. eauto.
Qed.

(** *** Computations that leave the conversation data alone *)

Lemma keeps_conv_ret {A : Type} (a : A) : keeps_conv (mret a : M A).
Proof. intros s. reflexivity. Qed.

Lemma keeps_conv_lift {A : Type} (r : res A) : keeps_conv (lift r).
Proof. intros s. reflexivity. Qed.

Lemma keeps_conv_bind {A B : Type} (m : M A) (k : A -> M B) :
  keeps_conv m -> (forall a, keeps_conv (k a)) -> keeps_conv (m ≫= k).
Proof.
  intros Hm Hk s. unfold mbind, M_bind.
  specialize (Hm s). destruct (m s) as [s1 [a|e|]]; cbn in *; try assumption.
  rewrite Hk. assumption.
Qed.

Lemma keeps_conv_add_node tree hf start length v ett :
  keeps_conv (proto_tree_add_node tree hf start length v ett).
Proof. intros s. unfold proto_tree_add_node. destruct tree; reflexivity. Qed.

Lemma keeps_conv_update_node it f : keeps_conv (update_node it f).
Proof. intros s. destruct it; reflexivity. Qed.

Lemma keeps_conv_col_protocol str : keeps_conv (col_set_protocol str).
Proof. intros s. reflexivity. Qed.

Lemma keeps_conv_col_info str : keeps_conv (col_set_info str).
Proof. intros s. reflexivity. Qed.

(** One step of a frame proof: split a bind, decide a branch, or close the
    goal with a primitive. *)
Ltac keeps_step :=
  match goal with
  | |- keeps_conv (mret _) => apply keeps_conv_ret
  | |- keeps_conv (lift _) => apply keeps_conv_lift
  | |- keeps_conv (_ ≫= _) => apply keeps_conv_bind
  | |- keeps_conv (proto_tree_add_node _ _ _ _ _ _) => apply keeps_conv_add_node
  | |- keeps_conv (update_node _ _) => apply keeps_conv_update_node
  | |- keeps_conv (if ?b then _ else _) => destruct b
  | |- keeps_conv (match ?x with _ => _ end) => destruct x
  | |- keeps_conv _ => solve [auto with ipp_keeps]
  | |- forall _, _ => intro
  end.

Create HintDb ipp_keeps.
Create HintDb ipp_fuel.
Create HintDb ipp_nodes.

Ltac keeps := repeat (cbv beta; keeps_step).

Lemma keeps_conv_add_item tree hf tvb start length :
  keeps_conv (proto_tree_add_item tree hf tvb start length).
Proof. unfold proto_tree_add_item. keeps. Qed.

Lemma keeps_conv_add_string tree hf start length value :
  keeps_conv (proto_tree_add_string tree hf start length value).
Proof. unfold proto_tree_add_string. keeps. Qed.

Lemma keeps_conv_add_uint tree hf start length value :
  keeps_conv (proto_tree_add_uint tree hf start length value).
Proof. unfold proto_tree_add_uint. keeps. Qed.

Lemma keeps_conv_add_subtree tree start length idx label :
  keeps_conv (proto_tree_add_subtree tree start length idx label).
Proof. unfold proto_tree_add_subtree. keeps. Qed.

Lemma keeps_conv_call_data tvb offset tree :
  keeps_conv (call_data_dissector tvb offset tree).
Proof.
  unfold call_data_dissector. apply keeps_conv_bind; [keeps|].
  intros payload s. reflexivity.
Qed.

Lemma keeps_conv_item_add_subtree ti idx :
  keeps_conv (proto_item_add_subtree ti idx).
Proof. unfold proto_item_add_subtree. keeps. Qed.

#[local] Hint Resolve keeps_conv_item_add_subtree : ipp_keeps.

#[local] Hint Resolve keeps_conv_add_item keeps_conv_add_string
  keeps_conv_add_uint keeps_conv_add_subtree keeps_conv_call_data
  keeps_conv_col_protocol keeps_conv_col_info : ipp_keeps.

(** ** The attribute parser *)

Lemma keeps_conv_add_value_head tag_desc tree tvb offset name_length value_length :
  keeps_conv (add_value_head tag_desc tree tvb offset name_length value_length).
Proof. unfold add_value_head. keeps. Qed.

Lemma keeps_conv_add_integer_tree tree tvb offset name_length value_length tag :
  keeps_conv (add_integer_tree tree tvb offset name_length value_length tag).
Proof. unfold add_integer_tree. keeps. Qed.

Lemma keeps_conv_add_integer_value tag_desc tree tvb offset name_length
  value_length tag :
  keeps_conv (add_integer_value tag_desc tree tvb offset name_length
                value_length tag).
Proof.
  unfold add_integer_value.
  apply keeps_conv_bind; [apply keeps_conv_add_value_head|]. keeps.
Qed.

Lemma keeps_conv_add_octetstring_tree tree tvb offset tag name_length
  value_length :
  keeps_conv (add_octetstring_tree tree tvb offset tag name_length value_length).
Proof. unfold add_octetstring_tree. keeps. Qed.

Lemma keeps_conv_add_octetstring_value tag_desc tree tvb offset name_length
  value_length :
  keeps_conv (add_octetstring_value tag_desc tree tvb offset name_length
                value_length).
Proof.
  unfold add_octetstring_value.
  apply keeps_conv_bind; [apply keeps_conv_add_value_head|]. keeps.
Qed.

Lemma keeps_conv_add_charstring_tree tree tvb offset name_length value_length :
  keeps_conv (add_charstring_tree tree tvb offset name_length value_length).
Proof. unfold add_charstring_tree. keeps. Qed.

Lemma keeps_conv_add_charstring_value tag_desc tree tvb offset name_length
  value_length :
  keeps_conv (add_charstring_value tag_desc tree tvb offset name_length
                value_length).
Proof.
  unfold add_charstring_value.
  apply keeps_conv_bind; [apply keeps_conv_add_value_head|]. keeps.
Qed.

#[local] Hint Resolve keeps_conv_add_value_head keeps_conv_add_integer_tree
  keeps_conv_add_integer_value keeps_conv_add_octetstring_tree
  keeps_conv_add_octetstring_value keeps_conv_add_charstring_tree
  keeps_conv_add_charstring_value : ipp_keeps.

Lemma keeps_conv_parse_attributes_body tvb tree l :
  keeps_conv (parse_attributes_body tvb tree l).
Proof.
  unfold parse_attributes_body, proto_item_set_len. keeps.
Qed.

Lemma keeps_conv_parse_attributes_loop fuel tvb tree l :
  keeps_conv (parse_attributes_loop fuel tvb tree l).
Proof.
  revert l. induction fuel as [|fuel IH]; intros l; cbn.
  - apply keeps_conv_lift.
  - destruct (tvb_offset_exists tvb (pa_offset l)); [|apply keeps_conv_ret].
    apply keeps_conv_bind; [apply keeps_conv_parse_attributes_body|].
    intros [[] l']; [apply IH|apply keeps_conv_ret].
Qed.

Lemma keeps_conv_parse_attributes tvb offset tree :
  keeps_conv (parse_attributes tvb offset tree).
Proof. apply keeps_conv_parse_attributes_loop. Qed.

#[local] Hint Resolve keeps_conv_parse_attributes : ipp_keeps.

Lemma keeps_conv_dissect_ipp_message tvb pinfo is_request operation_status
  ipp_tree ipp_trans :
  keeps_conv (dissect_ipp_message tvb pinfo is_request operation_status
                ipp_tree ipp_trans).
Proof.
  unfold dissect_ipp_message, PROTO_ITEM_SET_GENERATED,
    proto_tree_add_uint_format_value, proto_tree_add_time.
  keeps.
Qed.

Lemma tvb_get_guint8_range tvb offset v :
  tvb_get_guint8 tvb offset = Ok v -> 0 <= v < 256.
Proof.
  unfold tvb_get_guint8. intros H.
  apply res_bind_Ok_inv in H as (bs & Hbs & [= <-]).
  apply ensure_contiguous_length in Hbs; [|lia].
  pose proof (be_value_range bs) as Hr. rewrite Hbs in Hr. exact Hr.
Qed.

Lemma tvb_get_ntohs_range tvb offset v :
  tvb_get_ntohs tvb offset = Ok v -> 0 <= v < 65536.
Proof.
  unfold tvb_get_ntohs. intros H.
  apply res_bind_Ok_inv in H as (bs & Hbs & [= <-]).
  apply ensure_contiguous_length in Hbs; [|lia].
  pose proof (be_value_range bs) as Hr. rewrite Hbs in Hr. exact Hr.
Qed.

Lemma tvb_get_ntohl_range tvb offset v :
  tvb_get_ntohl tvb offset = Ok v -> 0 <= v < 2 ^ 32.
Proof.
  unfold tvb_get_ntohl. intros H.
  apply res_bind_Ok_inv in H as (bs & Hbs & [= <-]).
  apply ensure_contiguous_length in Hbs; [|lia].
  pose proof (be_value_range bs) as Hr. rewrite Hbs in Hr. exact Hr.
Qed.

Lemma tvb_offset_exists_spec tvb offset :
  tvb_offset_exists tvb offset = true ->
  - tvb_captured_length tvb <= offset < tvb_captured_length tvb.
Proof.
  unfold tvb_offset_exists, compute_offset.
  destruct (0 <=? offset) eqn:E0.
  - destruct (offset <=? tvb_captured_length tvb) eqn:E1; [|discriminate]. lia.
  - destruct (- offset <=? tvb_captured_length tvb) eqn:E1; [|discriminate]. lia.
Qed.

Lemma tvb_offset_exists_nonneg tvb offset :
  0 <= offset ->
  tvb_offset_exists tvb offset = (offset <? tvb_captured_length tvb).
Proof.
  intros H. unfold tvb_offset_exists. rewrite compute_offset_nonneg by lia.
  destruct (offset <=? tvb_captured_length tvb) eqn:E; [reflexivity|].
  symmetry. apply Z.ltb_ge. lia.
Qed.

(** What a completed iteration does to the offset. *)
Lemma parse_attributes_body_offset tvb tree l s s' ctl l' :
  parse_attributes_body tvb tree l s = (s', Ok (ctl, l')) ->
  exists tag, tvb_get_guint8 tvb (pa_offset l) = Ok tag /\
    if TAG_TYPE tag =? TAG_TYPE_DELIMITER then
      pa_offset l' = pa_offset l + 1 /\
      ctl = (if tag =? TAG_END_OF_ATTRIBUTES then LoopBreak else LoopContinue)
    else
      exists name_length value_length,
        tvb_get_ntohs tvb (pa_offset l + 1) = Ok name_length /\
        tvb_get_ntohs tvb (pa_offset l + 1 + 2 + name_length) = Ok value_length /\
        pa_offset l' = pa_offset l + (1 + 2 + name_length + 2 + value_length) /\
        ctl = LoopContinue.
Proof.
  unfold parse_attributes_body. intros H.
  apply bind_lift_Ok_inv in H as (tag & Htag & H).
  exists tag. split; [exact Htag|].
  destruct (TAG_TYPE tag =? TAG_TYPE_DELIMITER).
  - apply bind_Ok_inv in H as (? & s1 & _ & H).
    apply bind_Ok_inv in H as (sub & s2 & _ & H).
    destruct (tag =? TAG_END_OF_ATTRIBUTES); inversion H; subst; cbn; auto.
  - apply bind_lift_Ok_inv in H as (nl & Hnl & H).
    apply bind_lift_Ok_inv in H as (vl & Hvl & H).
    apply bind_Ok_inv in H as (attr_tree & s1 & _ & H).
    inversion H; subst; cbn. eauto 10.
Qed.

(** *** No code but the loop budget reports an exhausted budget *)

Lemma res_bind_fuel {A B : Type} (r : res A) (k : A -> res B) :
  r <> OutOfFuel -> (forall a, k a <> OutOfFuel) -> r ≫= k <> OutOfFuel.
Proof. intros Hr Hk. destruct r; cbn; [apply Hk|discriminate|contradiction]. Qed.

Lemma compute_offset_fuel tvb offset : compute_offset tvb offset <> OutOfFuel.
Proof.
  unfold compute_offset.
  repeat match goal with |- context [if ?b then _ else _] => destruct b end;
    discriminate.
Qed.

Lemma ensure_contiguous_fuel tvb offset n :
  ensure_contiguous tvb offset n <> OutOfFuel.
Proof.
  unfold ensure_contiguous. apply res_bind_fuel; [apply compute_offset_fuel|].
  intros a.
  repeat match goal with |- context [if ?b then _ else _] => destruct b end;
    discriminate.
Qed.

Lemma nof_ret {A : Type} (a : A) : never_out_of_fuel (mret a : M A).
Proof. intros s. discriminate. Qed.

Lemma nof_lift {A : Type} (r : res A) :
  r <> OutOfFuel -> never_out_of_fuel (lift r).
Proof. intros H s. exact H. Qed.

Lemma nof_bind {A B : Type} (m : M A) (k : A -> M B) :
  never_out_of_fuel m -> (forall a, never_out_of_fuel (k a)) ->
  never_out_of_fuel (m ≫= k).
Proof.
  intros Hm Hk s. unfold mbind, M_bind. specialize (Hm s).
  destruct (m s) as [s1 [a|e|]]; cbn in *;
    [apply Hk|discriminate|contradiction].
Qed.

Lemma nof_add_node tree hf start length v ett :
  never_out_of_fuel (proto_tree_add_node tree hf start length v ett).
Proof. intros s. unfold proto_tree_add_node. destruct tree; discriminate. Qed.

Lemma nof_update_node it f : never_out_of_fuel (update_node it f).
Proof. intros s. destruct it; discriminate. Qed.

Lemma nof_modify f : never_out_of_fuel (modify f).
Proof. intros s. discriminate. Qed.

(** One step of the proof that a piece of code never reports an exhausted
    budget, for code in [res] and for code in [M]. *)
Ltac fuel_step :=
  match goal with
  | |- Ok _ <> OutOfFuel => discriminate
  | |- Throw _ <> OutOfFuel => discriminate
  | |- ensure_contiguous _ _ _ <> OutOfFuel => apply ensure_contiguous_fuel
  | |- tvb_get_ptr _ _ _ <> OutOfFuel => apply ensure_contiguous_fuel
  | |- _ ≫= _ <> OutOfFuel => apply res_bind_fuel
  | |- never_out_of_fuel (mret _) => apply nof_ret
  | |- never_out_of_fuel (lift _) => apply nof_lift
  | |- never_out_of_fuel (_ ≫= _) => apply nof_bind
  | |- never_out_of_fuel (proto_tree_add_node _ _ _ _ _ _) => apply nof_add_node
  | |- never_out_of_fuel (update_node _ _) => apply nof_update_node
  | |- never_out_of_fuel (modify _) => apply nof_modify
  | |- never_out_of_fuel (if ?b then _ else _) => destruct b
  | |- never_out_of_fuel (match ?x with _ => _ end) => destruct x
  | |- (if ?b then _ else _) <> OutOfFuel => destruct b
  | |- (match ?x with _ => _ end) <> OutOfFuel => destruct x
  | |- never_out_of_fuel _ => solve [auto with ipp_fuel]
  | |- _ <> OutOfFuel => solve [auto with ipp_fuel]
  | |- forall _, _ => intro
  end.

Ltac fuel := repeat (cbv beta zeta; fuel_step).

Lemma tvb_get_guint8_fuel tvb offset : tvb_get_guint8 tvb offset <> OutOfFuel.
Proof. unfold tvb_get_guint8. fuel. Qed.

Lemma tvb_get_ntohs_fuel tvb offset : tvb_get_ntohs tvb offset <> OutOfFuel.
Proof. unfold tvb_get_ntohs. fuel. Qed.

Lemma tvb_get_ntohl_fuel tvb offset : tvb_get_ntohl tvb offset <> OutOfFuel.
Proof. unfold tvb_get_ntohl. fuel. Qed.

Lemma tvb_get_string_enc_ascii_fuel tvb offset n :
  tvb_get_string_enc_ascii tvb offset n <> OutOfFuel.
Proof. unfold tvb_get_string_enc_ascii. fuel. Qed.

Lemma tvb_format_text_fuel tvb offset n : tvb_format_text tvb offset n <> OutOfFuel.
Proof. unfold tvb_format_text. fuel. Qed.

Lemma tvb_bytes_to_str_fuel tvb offset n :
  tvb_bytes_to_str tvb offset n <> OutOfFuel.
Proof. unfold tvb_bytes_to_str. fuel. Qed.

#[local] Hint Resolve tvb_get_guint8_fuel tvb_get_ntohs_fuel tvb_get_ntohl_fuel
  tvb_get_string_enc_ascii_fuel tvb_format_text_fuel tvb_bytes_to_str_fuel
  ensure_contiguous_fuel : ipp_fuel.

Lemma integer_tree_label_fuel tvb offset name_length value_length tag :
  integer_tree_label tvb offset name_length value_length tag <> OutOfFuel.
Proof. unfold integer_tree_label. fuel. Qed.

Lemma octetstring_value_fuel tvb offset tag name_length value_length :
  octetstring_value tvb offset tag name_length value_length <> OutOfFuel.
Proof. unfold octetstring_value. fuel. Qed.

#[local] Hint Resolve integer_tree_label_fuel octetstring_value_fuel : ipp_fuel.

Lemma nof_add_item tree hf tvb start length :
  never_out_of_fuel (proto_tree_add_item tree hf tvb start length).
Proof. unfold proto_tree_add_item. fuel. Qed.

Lemma nof_add_string tree hf start length value :
  never_out_of_fuel (proto_tree_add_string tree hf start length value).
Proof. unfold proto_tree_add_string. fuel. Qed.

Lemma nof_add_uint tree hf start length value :
  never_out_of_fuel (proto_tree_add_uint tree hf start length value).
Proof. unfold proto_tree_add_uint. fuel. Qed.

Lemma nof_add_subtree tree start length idx label :
  never_out_of_fuel (proto_tree_add_subtree tree start length idx label).
Proof. unfold proto_tree_add_subtree. fuel. Qed.

#[local] Hint Resolve nof_add_item nof_add_string nof_add_uint nof_add_subtree
  : ipp_fuel.

Lemma nof_add_value_head tag_desc tree tvb offset name_length value_length :
  never_out_of_fuel
    (add_value_head tag_desc tree tvb offset name_length value_length).
Proof. unfold add_value_head. fuel. Qed.

#[local] Hint Resolve nof_add_value_head : ipp_fuel.

Lemma nof_parse_attributes_body tvb tree l :
  never_out_of_fuel (parse_attributes_body tvb tree l).
Proof.
  unfold parse_attributes_body, add_integer_tree, add_integer_value,
    add_octetstring_tree, add_octetstring_value, add_charstring_tree,
    add_charstring_value, proto_item_set_len.
  fuel.
Qed.

(** A value tag whose class is neither integer nor octet string nor
    character string (an out-of-band or reserved tag) is skipped: once its
    header is read, the iteration adds nothing to the tree and moves on. *)
Lemma parse_attributes_body_other_class tvb tree l s tag name_length
  value_length :
  tvb_get_guint8 tvb (pa_offset l) = Ok tag ->
  TAG_TYPE tag <> TAG_TYPE_DELIMITER ->
  TAG_TYPE tag <> TAG_TYPE_INTEGER ->
  TAG_TYPE tag <> TAG_TYPE_OCTETSTRING ->
  TAG_TYPE tag <> TAG_TYPE_CHARSTRING ->
  tvb_get_ntohs tvb (pa_offset l + 1) = Ok name_length ->
  tvb_get_ntohs tvb (pa_offset l + 1 + 2 + name_length) = Ok value_length ->
  exists l',
    parse_attributes_body tvb tree l s = (s, Ok (LoopContinue, l'))
    /\ pa_offset l' = pa_offset l + (1 + 2 + name_length + 2 + value_length).
Proof.
  intros Htag Hd Hi Ho Hc Hnl Hvl. unfold parse_attributes_body.
  rewrite (bind_lift_Ok _ _ _ _ Htag).
  apply Z.eqb_neq in Hd, Hi, Ho, Hc. rewrite Hd.
  rewrite (bind_lift_Ok _ _ _ _ Hnl), (bind_lift_Ok _ _ _ _ Hvl).
  cbv zeta. rewrite Hi, Ho, Hc.
  eexists. split; reflexivity.
Qed.

(** *** Termination of the loop *)

Lemma parse_attributes_body_advances tvb tree l s s' ctl l' :
  parse_attributes_body tvb tree l s = (s', Ok (ctl, l')) ->
  pa_offset l + 1 <= pa_offset l'.
Proof.
  intros H. apply parse_attributes_body_offset in H as (tag & _ & H).
  destruct (TAG_TYPE tag =? TAG_TYPE_DELIMITER).
  - destruct H as [-> _]. lia.
  - destruct H as (nl & vl & Hnl & Hvl & -> & _).
    apply tvb_get_ntohs_range in Hnl, Hvl. lia.
Qed.

Lemma parse_attributes_loop_enough_fuel fuel tvb tree l :
  (Z.to_nat (tvb_captured_length tvb - pa_offset l) < fuel)%nat ->
  never_out_of_fuel (parse_attributes_loop fuel tvb tree l).
Proof.
  revert l. induction fuel as [|fuel IH]; intros l Hfuel s; [lia|].
  cbn [parse_attributes_loop].
  destruct (tvb_offset_exists tvb (pa_offset l)) eqn:Hex; [|discriminate].
  apply tvb_offset_exists_spec in Hex.
  unfold mbind, M_bind.
  pose proof (nof_parse_attributes_body tvb tree l s) as Hnof.
  destruct (parse_attributes_body tvb tree l s) as [s1 [[ctl l']|e|]] eqn:Hb;
    cbn in *; [|discriminate|contradiction].
  apply parse_attributes_body_advances in Hb.
  destruct ctl; [|discriminate].
  apply IH. lia.
Qed.

(** A larger budget does not change what the loop does. *)
Lemma parse_attributes_loop_more_fuel fuel fuel' tvb tree l s :
  (fuel <= fuel')%nat ->
  snd (parse_attributes_loop fuel tvb tree l s) <> OutOfFuel ->
  parse_attributes_loop fuel' tvb tree l s
  = parse_attributes_loop fuel tvb tree l s.
Proof.
  revert fuel' l s. induction fuel as [|fuel IH]; intros fuel' l s Hle Hok.
  - cbn in Hok. contradiction.
  - destruct fuel' as [|fuel']; [lia|].
    cbn [parse_attributes_loop] in *.
    destruct (tvb_offset_exists tvb (pa_offset l)); [|reflexivity].
    unfold mbind, M_bind in *.
    destruct (parse_attributes_body tvb tree l s) as [s1 [[ctl l']|e|]];
      try reflexivity.
    destruct ctl; [|reflexivity]. apply IH; [lia|exact Hok].
Qed.

(** How a normal return of the loop comes about: no byte remains at the
    returned offset, or the byte before it is the end-of-attributes tag. *)
Lemma parse_attributes_loop_exit fuel tvb tree l s s' o :
  parse_attributes_loop fuel tvb tree l s = (s', Ok o) ->
  tvb_offset_exists tvb o = false
  \/ tvb_get_guint8 tvb (o - 1) = Ok TAG_END_OF_ATTRIBUTES.
Proof.
  revert l s. induction fuel as [|fuel IH]; intros l s H; [discriminate|].
  cbn [parse_attributes_loop] in H.
  destruct (tvb_offset_exists tvb (pa_offset l)) eqn:Hex.
  - apply bind_Ok_inv in H as ([ctl l'] & s1 & Hb & H).
    destruct ctl; [eapply IH; exact H|].
    inversion H; subst. right.
    apply parse_attributes_body_offset in Hb as (tag & Htag & Hb).
    destruct (TAG_TYPE tag =? TAG_TYPE_DELIMITER).
    + destruct Hb as [-> Hctl].
      destruct (tag =? TAG_END_OF_ATTRIBUTES) eqn:E; [|discriminate].
      apply Z.eqb_eq in E. subst tag.
      replace (pa_offset l + 1 - 1) with (pa_offset l) by lia. exact Htag.
    + destruct Hb as (? & ? & _ & _ & _ & ?). discriminate.
  - inversion H; subst. left. exact Hex.
Qed.

(** C10. For every buffer and every starting offset the attribute parse
    terminates: the loop never exhausts its budget of iterations (and a larger
    budget changes nothing).  Every iteration that completes strictly
    increases the offset: by 1 for a delimiter tag, and by
    1 + 2 + nameLen + 2 + valueLen, which is at least 5, for a value tag of
    any class; a value tag of an out-of-band or reserved class, whose header
    is in the buffer, is stepped over in this way without adding anything to
    the tree.  A normal return happens when no byte remains at the offset or
    right after the end-of-attributes delimiter. *)
Theorem parse_attributes_terminates :
  (forall tvb offset tree s,
      snd (parse_attributes tvb offset tree s) <> OutOfFuel)
  /\ (forall tvb offset tree s fuel,
        (parse_attributes_fuel tvb offset <= fuel)%nat ->
        parse_attributes_loop fuel tvb tree
          (parse_attributes_init offset tree) s
        = parse_attributes tvb offset tree s)
  /\ (forall tvb tree l s s' ctl l',
        parse_attributes_body tvb tree l s = (s', Ok (ctl, l')) ->
        exists tag, tvb_get_guint8 tvb (pa_offset l) = Ok tag /\
          if TAG_TYPE tag =? TAG_TYPE_DELIMITER then
            pa_offset l' = pa_offset l + 1
          else
            exists name_length value_length,
              tvb_get_ntohs tvb (pa_offset l + 1) = Ok name_length /\
              tvb_get_ntohs tvb (pa_offset l + 1 + 2 + name_length)
              = Ok value_length /\
              pa_offset l'
              = pa_offset l + (1 + 2 + name_length + 2 + value_length) /\
              pa_offset l + 5 <= pa_offset l')
  /\ (forall tvb tree l s tag name_length value_length,
        tvb_get_guint8 tvb (pa_offset l) = Ok tag ->
        TAG_TYPE tag <> TAG_TYPE_DELIMITER ->
        TAG_TYPE tag <> TAG_TYPE_INTEGER ->
        TAG_TYPE tag <> TAG_TYPE_OCTETSTRING ->
        TAG_TYPE tag <> TAG_TYPE_CHARSTRING ->
        tvb_get_ntohs tvb (pa_offset l + 1) = Ok name_length ->
        tvb_get_ntohs tvb (pa_offset l + 1 + 2 + name_length)
        = Ok value_length ->
        exists l',
          parse_attributes_body tvb tree l s = (s, Ok (LoopContinue, l'))
          /\ pa_offset l'
             = pa_offset l + (1 + 2 + name_length + 2 + value_length))
  /\ (forall tvb offset tree s s' o,
        parse_attributes tvb offset tree s = (s', Ok o) ->
        tvb_offset_exists tvb o = false
        \/ tvb_get_guint8 tvb (o - 1) = Ok TAG_END_OF_ATTRIBUTES).
Proof.
  assert (Hnof : forall tvb offset tree s,
             snd (parse_attributes tvb offset tree s) <> OutOfFuel).
  { intros tvb offset tree s.
    apply parse_attributes_loop_enough_fuel. unfold parse_attributes_fuel.
    cbn. lia. }
  split; [exact Hnof|]. split; [|split; [|split]].
  - intros tvb offset tree s fuel Hle.
    apply parse_attributes_loop_more_fuel; [exact Hle|apply Hnof].
  - intros tvb tree l s s' ctl l' H.
    apply parse_attributes_body_offset in H as (tag & Htag & H).
    exists tag. split; [exact Htag|].
    destruct (TAG_TYPE tag =? TAG_TYPE_DELIMITER); [tauto|].
    destruct H as (nl & vl & Hnl & Hvl & Ho & _).
    exists nl, vl. repeat split; try assumption.
    apply tvb_get_ntohs_range in Hnl, Hvl. lia.
  - intros. eapply parse_attributes_body_other_class; eassumption.
  - intros tvb offset tree s s' o H.
    eapply parse_attributes_loop_exit. exact H.
Qed.

(** *** A buffer that ends inside a record *)

Lemma tvb_get_guint8_exists tvb offset tag :
  0 <= offset -> tvb_get_guint8 tvb offset = Ok tag ->
  tvb_offset_exists tvb offset = true.
Proof.
  intros Ho H. unfold tvb_get_guint8 in H.
  apply res_bind_Ok_inv in H as (bs & Hbs & _).
  apply ensure_contiguous_Ok_bounds in Hbs; [|lia|lia].
  rewrite tvb_offset_exists_nonneg by lia. apply Z.ltb_lt. lia.
Qed.

Lemma tvb_get_ntohs_out_of_bounds tvb offset :
  0 <= offset -> tvb_captured_length tvb < offset + 2 ->
  tvb_get_ntohs tvb offset = Throw BoundsError.
Proof.
  intros Ho Hb. unfold tvb_get_ntohs.
  rewrite ensure_contiguous_out_of_bounds by lia. reflexivity.
Qed.

Lemma parse_attributes_body_truncated_header tvb tree l s tag :
  0 <= pa_offset l ->
  tvb_get_guint8 tvb (pa_offset l) = Ok tag ->
  TAG_TYPE tag <> TAG_TYPE_DELIMITER ->
  (tvb_captured_length tvb < pa_offset l + 3
   \/ exists name_length,
        tvb_get_ntohs tvb (pa_offset l + 1) = Ok name_length /\
        tvb_captured_length tvb < pa_offset l + 1 + 2 + name_length + 2) ->
  parse_attributes_body tvb tree l s = (s, Throw BoundsError).
Proof.
  intros Ho Htag Hty Htrunc. unfold parse_attributes_body.
  rewrite (bind_lift_Ok _ _ _ _ Htag).
  destruct (TAG_TYPE tag =? TAG_TYPE_DELIMITER) eqn:E;
    [apply Z.eqb_eq in E; contradiction|].
  destruct Htrunc as [Hshort|(nl & Hnl & Hshort)].
  - apply bind_lift_Throw. apply tvb_get_ntohs_out_of_bounds; lia.
  - rewrite (bind_lift_Ok _ _ _ _ Hnl).
    apply bind_lift_Throw. apply tvb_get_ntohs_out_of_bounds; [|lia].
    apply tvb_get_ntohs_range in Hnl. lia.
Qed.

(** C2, as the code has it.  The parse always ends, by a normal return or by
    the tvbuff bounds exception.  It returns normally, decoding nothing more,
    when no byte remains at the current offset.  When the buffer ends inside
    the header of a value record (after the tag byte, before the name-length,
    name and value-length bytes are all present) nothing of the partial record
    is decoded and the bounds exception is raised: the parse is aborted, it
    does not stop normally. *)
Theorem parse_attributes_truncated_record :
  (forall tvb offset tree s,
      (exists o, snd (parse_attributes tvb offset tree s) = Ok o)
      \/ snd (parse_attributes tvb offset tree s) = Throw BoundsError)
  /\ (forall fuel tvb tree l s,
        tvb_offset_exists tvb (pa_offset l) = false ->
        parse_attributes_loop (S fuel) tvb tree l s = (s, Ok (pa_offset l)))
  /\ (forall fuel tvb tree l s tag,
        0 <= pa_offset l ->
        tvb_get_guint8 tvb (pa_offset l) = Ok tag ->
        TAG_TYPE tag <> TAG_TYPE_DELIMITER ->
        (tvb_captured_length tvb < pa_offset l + 3
         \/ exists name_length,
              tvb_get_ntohs tvb (pa_offset l + 1) = Ok name_length /\
              tvb_captured_length tvb < pa_offset l + 1 + 2 + name_length + 2) ->
        parse_attributes_loop (S fuel) tvb tree l s = (s, Throw BoundsError)).
Proof.
  split; [|split].
  - intros tvb offset tree s.
    pose proof (parse_attributes_loop_enough_fuel
                  (parse_attributes_fuel tvb offset) tvb tree
                  (parse_attributes_init offset tree)) as Hnof.
    unfold parse_attributes.
    specialize (Hnof ltac:(unfold parse_attributes_fuel; cbn; lia) s).
    destruct (snd (parse_attributes_loop _ _ _ _ s)) as [o|[]|];
      [left; eauto|right; reflexivity|contradiction].
  - intros fuel tvb tree l s Hex. cbn [parse_attributes_loop].
    rewrite Hex. reflexivity.
  - intros fuel tvb tree l s tag Ho Htag Hty Htrunc.
    cbn [parse_attributes_loop].
    rewrite (tvb_get_guint8_exists _ _ _ Ho Htag).
    apply bind_Throw.
    eapply parse_attributes_body_truncated_header; eassumption.
Qed.

(** *** Code that only adds nodes to the tree *)

Lemma appends_ret {A : Type} (a : A) : appends_nodes (mret a : M A).
Proof. intros s. exists []. cbn. rewrite app_nil_r. reflexivity. Qed.

Lemma appends_lift {A : Type} (r : res A) : appends_nodes (lift r).
Proof. intros s. exists []. cbn. rewrite app_nil_r. reflexivity. Qed.

Lemma appends_bind {A B : Type} (m : M A) (k : A -> M B) :
  appends_nodes m -> (forall a, appends_nodes (k a)) -> appends_nodes (m ≫= k).
Proof.
  intros Hm Hk s. unfold mbind, M_bind.
  destruct (Hm s) as [e1 He1].
  destruct (m s) as [s1 [a|e|]]; cbn in *; eauto.
  destruct (Hk a s1) as [e2 He2]. exists (e1 ++ e2).
  rewrite He2, He1, app_assoc. reflexivity.
Qed.

Lemma appends_add_node tree hf start length v ett :
  appends_nodes (proto_tree_add_node tree hf start length v ett).
Proof.
  intros s. unfold proto_tree_add_node. destruct tree; cbn; eauto.
  exists []. rewrite app_nil_r. reflexivity.
Qed.

Ltac appends_step :=
  match goal with
  | |- appends_nodes (mret _) => apply appends_ret
  | |- appends_nodes (lift _) => apply appends_lift
  | |- appends_nodes (_ ≫= _) => apply appends_bind
  | |- appends_nodes (proto_tree_add_node _ _ _ _ _ _) => apply appends_add_node
  | |- appends_nodes (if ?b then _ else _) => destruct b
  | |- appends_nodes (match ?x with _ => _ end) => destruct x
  | |- appends_nodes _ => solve [auto with ipp_nodes]
  | |- forall _, _ => intro
  end.

Ltac appends := repeat (cbv beta zeta; appends_step).

Lemma appends_add_item tree hf tvb start length :
  appends_nodes (proto_tree_add_item tree hf tvb start length).
Proof. unfold proto_tree_add_item. appends. Qed.

Lemma appends_add_string tree hf start length value :
  appends_nodes (proto_tree_add_string tree hf start length value).
Proof. unfold proto_tree_add_string. appends. Qed.

Lemma appends_add_uint tree hf start length value :
  appends_nodes (proto_tree_add_uint tree hf start length value).
Proof. unfold proto_tree_add_uint. appends. Qed.

#[local] Hint Resolve appends_add_item appends_add_string appends_add_uint
  : ipp_nodes.

Lemma appends_add_value_head tag_desc tree tvb offset name_length value_length :
  appends_nodes
    (add_value_head tag_desc tree tvb offset name_length value_length).
Proof. unfold add_value_head. appends. Qed.

#[local] Hint Resolve appends_add_value_head : ipp_nodes.

Lemma appends_add_integer_value tag_desc tree tvb offset name_length
  value_length tag :
  appends_nodes
    (add_integer_value tag_desc tree tvb offset name_length value_length tag).
Proof. unfold add_integer_value. appends. Qed.

(** *** Records of the integer family with a wrong value length *)

Lemma add_node_Ok tree hf start length v ett s :
  exists s' it, proto_tree_add_node tree hf start length v ett s = (s', Ok it).
Proof. unfold proto_tree_add_node. destruct tree; eauto. Qed.

Lemma add_value_head_Ok tag_desc tree tvb offset name_length value_length
  name s :
  ensure_contiguous tvb (offset + 1 + 2) name_length = Ok name ->
  exists s' nv,
    add_value_head tag_desc tree tvb offset name_length value_length s
    = (s', Ok (offset + 1 + 2 + name_length + 2, nv)).
Proof.
  intros Hname. unfold add_value_head, proto_tree_add_string,
    proto_tree_add_uint.
  destruct (add_node_Ok tree hf_ipp_tag offset 1 (NvString tag_desc) None s)
    as (s1 & it1 & H1).
  rewrite (bind_Ok _ _ _ _ _ H1). cbv zeta.
  destruct (add_node_Ok tree hf_ipp_name_length (offset + 1) 2
              (NvUint name_length) None s1) as (s2 & it2 & H2).
  rewrite (bind_Ok _ _ _ _ _ H2).
  destruct (name_length =? 0).
  - rewrite (bind_Ok _ _ s2 s2 None) by reflexivity.
    destruct (add_node_Ok tree hf_ipp_value_length (offset + 1 + 2 + name_length)
                2 (NvUint value_length) None s2) as (s3 & it3 & H3).
    rewrite (bind_Ok _ _ _ _ _ H3). eauto.
  - unfold tvb_get_string_enc_ascii. rewrite Hname. cbn -[Z.add].
    destruct (add_node_Ok tree hf_ipp_name (offset + 1 + 2) name_length
                (NvString (format_text (take (Z.to_nat name_length)
                                          (get_ascii_string name)))) None s2)
      as (s3 & it3 & H3).
    erewrite bind_Ok;
      [|erewrite bind_lift_Ok by reflexivity;
        erewrite bind_Ok by exact H3; reflexivity].
    destruct (add_node_Ok tree hf_ipp_value_length (offset + 1 + 2 + name_length)
                2 (NvUint value_length) None s3) as (s4 & it4 & H4).
    rewrite (bind_Ok _ _ _ _ _ H4). eauto.
Qed.

Lemma integer_family_tag_type tag :
  tag = TAG_BOOLEAN \/ tag = TAG_INTEGER \/ tag = TAG_ENUM ->
  (TAG_TYPE tag =? TAG_TYPE_DELIMITER) = false
  /\ (TAG_TYPE tag =? TAG_TYPE_INTEGER) = true.
Proof. intros [->|[->| ->]]; split; reflexivity. Qed.

Lemma integer_tree_label_invalid tvb offset name_length value_length tag name :
  tag = TAG_BOOLEAN \/ tag = TAG_INTEGER \/ tag = TAG_ENUM ->
  value_length <> fixed_size tag ->
  ensure_contiguous tvb (offset + 1 + 2) name_length = Ok name ->
  integer_tree_label tvb offset name_length value_length tag
  = Ok (fmt_label (format_text name) (invalid_note tag value_length)).
Proof.
  intros Htag Hlen Hname. unfold integer_tree_label, tvb_format_text, tvb_get_ptr.
  destruct Htag as [->|[->| ->]]; cbn [Z.eqb Pos.eqb TAG_BOOLEAN TAG_INTEGER
                                       TAG_ENUM];
    unfold fixed_size in Hlen; cbn in Hlen.
  - destruct (value_length =? 1) eqn:E; [apply Z.eqb_eq in E; contradiction|].
    cbn [negb]. rewrite Hname. reflexivity.
  - destruct (value_length =? 4) eqn:E; [apply Z.eqb_eq in E; contradiction|].
    cbn [negb]. rewrite Hname. reflexivity.
  - destruct (value_length =? 4) eqn:E; [apply Z.eqb_eq in E; contradiction|].
    cbn [negb]. rewrite Hname. reflexivity.
Qed.

Lemma add_integer_value_wrong_length tag_desc tree tvb offset name_length
  value_length tag name s :
  tag = TAG_BOOLEAN \/ tag = TAG_INTEGER \/ tag = TAG_ENUM ->
  value_length <> fixed_size tag ->
  ensure_contiguous tvb (offset + 1 + 2) name_length = Ok name ->
  exists s',
    add_integer_value tag_desc tree tvb offset name_length value_length tag s
    = (s', Ok tt)
    /\ exists extra, ds_nodes s' = ds_nodes s ++ extra.
Proof.
  intros Htag Hlen Hname.
  destruct (appends_add_integer_value tag_desc tree tvb offset name_length
              value_length tag s) as [extra Hextra].
  destruct (add_value_head_Ok tag_desc tree tvb offset name_length value_length
              name s Hname) as (s1 & nv & Hhead).
  assert (add_integer_value tag_desc tree tvb offset name_length value_length
            tag s = (s1, Ok tt)) as Hrun.
  { unfold add_integer_value. rewrite (bind_Ok _ _ _ _ _ Hhead).
    unfold fixed_size in Hlen.
    destruct Htag as [->|[->| ->]]; cbn in Hlen |- *.
    - destruct (value_length =? 1) eqn:E; [apply Z.eqb_eq in E; contradiction|].
      reflexivity.
    - destruct (value_length =? 4) eqn:E; [apply Z.eqb_eq in E; contradiction|].
      reflexivity.
    - destruct (value_length =? 4) eqn:E; [apply Z.eqb_eq in E; contradiction|].
      reflexivity. }
  rewrite Hrun in Hextra. eauto.
Qed.

(** A value record of the integer family whose declared value length is not
    the size its tag requires: the iteration completes, also when the value
    bytes are missing from the buffer, and a named record gets the
    length-mismatch note. *)
Lemma parse_attributes_body_wrong_length tvb tree l s tag name_length
  value_length :
  0 <= pa_offset l ->
  tvb_get_guint8 tvb (pa_offset l) = Ok tag ->
  tag = TAG_BOOLEAN \/ tag = TAG_INTEGER \/ tag = TAG_ENUM ->
  tvb_get_ntohs tvb (pa_offset l + 1) = Ok name_length ->
  tvb_get_ntohs tvb (pa_offset l + 1 + 2 + name_length) = Ok value_length ->
  value_length <> fixed_size tag ->
  exists s' l' name,
    tvb_get_ptr tvb (pa_offset l + 1 + 2) name_length = Ok name
    /\ parse_attributes_body tvb tree l s = (s', Ok (LoopContinue, l'))
    /\ pa_offset l' = pa_offset l + (1 + 2 + name_length + 2 + value_length)
    /\ (name_length <> 0 ->
        integer_tree_label tvb (pa_offset l) name_length value_length tag
        = Ok (fmt_label (format_text name) (invalid_note tag value_length))
        /\ forall parent,
             match pa_as_tree l with
             | None => pa_subtree l
             | Some t => Some t
             end = Some parent ->
             In {| pn_parent := parent; pn_hf := hf_text_only;
                   pn_start := pa_offset l;
                   pn_length := 1 + 2 + name_length + 2 + value_length;
                   pn_value :=
                     NvText (fmt_label (format_text name)
                               (invalid_note tag value_length));
                   pn_ett := Some ett_ipp_attr; pn_generated := false |}
                (ds_nodes s')).
Proof.
  intros Ho Htag Hfam Hnl Hvl Hlen.
  pose proof (tvb_get_ntohs_range _ _ _ Hnl) as Hnlr.
  assert (exists name,
             ensure_contiguous tvb (pa_offset l + 1 + 2) name_length = Ok name)
    as [name Hname].
  { unfold tvb_get_ntohs in Hvl.
    apply res_bind_Ok_inv in Hvl as (bs & Hbs & _).
    apply ensure_contiguous_Ok_bounds in Hbs; [|lia|lia].
    rewrite ensure_contiguous_in_bounds by lia. eauto. }
  destruct (integer_family_tag_type tag Hfam) as [Hd Hi].
  pose proof (integer_tree_label_invalid tvb (pa_offset l) name_length
                value_length tag name Hfam Hlen Hname) as Hlabel.
  unfold parse_attributes_body.
  rewrite (bind_lift_Ok _ _ _ _ Htag), Hd.
  rewrite (bind_lift_Ok _ _ _ _ Hnl), (bind_lift_Ok _ _ _ _ Hvl).
  cbv zeta. rewrite Hi.
  destruct (name_length =? 0) eqn:Hz; cbn [negb].
  - apply Z.eqb_eq in Hz.
    destruct (add_integer_value_wrong_length
                (val_to_str tag tag_vals fmt_reserved_tag)
                (match pa_as_tree l with
                 | Some _ => pa_attr_tree l
                 | None => match pa_as_tree l with
                           | Some t => Some t
                           | None => pa_subtree l
                           end
                 end) tvb (pa_offset l)
                name_length value_length tag name s Hfam Hlen Hname)
      as (s1 & Hrun & _).
    eexists s1, _, name. split; [exact Hname|]. split; [|split].
    + erewrite bind_Ok;
        [|erewrite bind_Ok by reflexivity;
          erewrite bind_Ok by exact Hrun; reflexivity].
      reflexivity.
    + reflexivity.
    + intros Hne. contradiction.
  - unfold add_integer_tree at 1. rewrite Hlabel.
    set (as_tree := match pa_as_tree l with
                    | None => pa_subtree l
                    | Some t => Some t
                    end).
    set (label := fmt_label (format_text name) (invalid_note tag value_length)).
    destruct (add_node_Ok as_tree hf_text_only (pa_offset l)
                (1 + 2 + name_length + 2 + value_length) (NvText label)
                (Some ett_ipp_attr) s) as (s1 & t1 & Hadd).
    assert (forall parent, as_tree = Some parent ->
              In {| pn_parent := parent; pn_hf := hf_text_only;
                    pn_start := pa_offset l;
                    pn_length := 1 + 2 + name_length + 2 + value_length;
                    pn_value := NvText label;
                    pn_ett := Some ett_ipp_attr; pn_generated := false |}
                 (ds_nodes s1)) as Hin1.
    { intros parent Hp. rewrite Hp in Hadd. unfold proto_tree_add_node in Hadd.
      inversion Hadd; subst. cbn. apply in_or_app. right. left. reflexivity. }
    destruct (add_integer_value_wrong_length
                (val_to_str tag tag_vals fmt_reserved_tag) t1 tvb (pa_offset l)
                name_length value_length tag name s1 Hfam Hlen Hname)
      as (s2 & Hrun & extra & Hextra).
    eexists s2, _, name. split; [exact Hname|]. split; [|split].
    + erewrite bind_Ok;
        [|erewrite bind_Ok;
          [|erewrite bind_lift_Ok by reflexivity;
            unfold proto_tree_add_subtree; exact Hadd];
          erewrite bind_Ok by exact Hrun; reflexivity].
      reflexivity.
    + reflexivity.
    + intros _. split; [reflexivity|].
      intros parent Hp. rewrite Hextra. apply in_or_app. left.
      apply Hin1. exact Hp.
Qed.

(** ** Reading a value record laid out in the buffer *)

Lemma ensure_contiguous_inside (pre mid suf : list byte) (offset k n : Z) :
  offset = Z.of_nat (length pre) + k -> 0 <= k -> 0 <= n ->
  k + n <= Z.of_nat (length mid) ->
  ensure_contiguous (pre ++ mid ++ suf) offset n
  = Ok (take (Z.to_nat n) (drop (Z.to_nat k) mid)).
Proof.
  intros -> Hk Hn Hb.
  rewrite ensure_contiguous_in_bounds;
    [|lia|lia|unfold tvb_captured_length; rewrite !length_app; lia].
  f_equal.
  replace (Z.to_nat (Z.of_nat (length pre) + k))
    with (length pre + Z.to_nat k)%nat by lia.
  rewrite drop_app_add, drop_app_le by lia.
  apply take_app_le. rewrite length_drop. lia.
Qed.

(** The name bytes of a record that starts after [pre]. *)
Lemma read_record_name (pre name rest : list byte) (t n1 n2 : byte) :
  ensure_contiguous (pre ++ t :: n1 :: n2 :: name ++ rest)
    (Z.of_nat (length pre) + 1 + 2) (Z.of_nat (length name))
  = Ok name.
Proof.
  change (pre ++ t :: n1 :: n2 :: name ++ rest)
    with (pre ++ [t; n1; n2] ++ name ++ rest).
  rewrite (app_assoc pre).
  rewrite (ensure_contiguous_inside _ name rest _ 0);
    [|rewrite length_app; cbn; lia|lia|lia|lia].
  rewrite Nat2Z.id. cbn [Z.to_nat drop]. rewrite take_ge; reflexivity.
Qed.

(** [n] bytes at position [k] of the value of a record that starts after
    [pre]. *)
Lemma read_record_value (pre name value suf : list byte) (t n1 n2 v1 v2 : byte)
  (k n : Z) :
  0 <= k -> 0 <= n -> k + n <= Z.of_nat (length value) ->
  ensure_contiguous (pre ++ t :: n1 :: n2 :: name ++ v1 :: v2 :: value ++ suf)
    (Z.of_nat (length pre) + 1 + 2 + Z.of_nat (length name) + 2 + k) n
  = Ok (take (Z.to_nat n) (drop (Z.to_nat k) value)).
Proof.
  intros Hk Hn Hb.
  replace (pre ++ t :: n1 :: n2 :: name ++ v1 :: v2 :: value ++ suf)
    with ((pre ++ [t; n1; n2] ++ name ++ [v1; v2]) ++ value ++ suf)
    by (rewrite <- !app_assoc; reflexivity).
  apply ensure_contiguous_inside; try lia.
  rewrite !length_app. cbn [length]. lia.
Qed.

(** ** Enum values and attribute names *)

(** In a record whose value length is written right after the name, the
    comparison of the dissector succeeds exactly when the attribute name
    starts with the well-known name: the bytes after the name begin with a
    NUL, which no well-known name contains. *)
Lemma starts_with_record_name (pre name rest : list byte) (t n1 n2 : byte)
  (lit : string) (size : Z) :
  size = Z.of_nat (length (list_byte_of_string lit)) ->
  5 < size ->
  forallb (fun b => negb (bool_decide (b = x00))) (list_byte_of_string lit)
  = true ->
  (5 <? Z.of_nat (length name))
  && (tvb_memeql (pre ++ t :: n1 :: n2 :: name ++ x00 :: rest)
        (Z.of_nat (length pre) + 1 + 2) lit size =? 0)
  = bool_decide (list_byte_of_string lit `prefix_of` name).
Proof.
  set (L := list_byte_of_string lit). intros Hsize Hlong Hnul.
  assert (Htake : take (Z.to_nat size) L = L).
  { apply take_ge. lia. }
  unfold tvb_memeql. fold L. rewrite Htake.
  replace (pre ++ t :: n1 :: n2 :: name ++ x00 :: rest)
    with ((pre ++ [t; n1; n2]) ++ (name ++ x00 :: rest) ++ [])
    by (rewrite app_nil_r, <- !app_assoc; reflexivity).
  case_bool_decide as Hp.
  - destruct Hp as [r ->].
    rewrite (ensure_contiguous_inside _ _ _ _ 0);
      [|rewrite length_app; cbn; lia|lia|lia
       |rewrite !length_app; cbn [length]; lia].
    change (Z.to_nat 0) with 0%nat. rewrite drop_0.
    rewrite <- app_assoc, Hsize, Nat2Z.id, take_app_length.
    rewrite decide_True by reflexivity.
    rewrite length_app. apply andb_true_iff. split; [|reflexivity].
    apply Z.ltb_lt. lia.
  - apply andb_false_iff. right. apply Z.eqb_neq.
    destruct (ensure_contiguous _ _ size) as [bs| |] eqn:Hread; try lia.
    destruct (decide (bs = L)) as [->|]; [|lia].
    exfalso.
    pose proof Hread as Hb.
    apply ensure_contiguous_Ok_bounds in Hb; [|lia|lia].
    unfold tvb_captured_length in Hb. rewrite !length_app in Hb.
    cbn [length] in Hb.
    rewrite (ensure_contiguous_inside _ _ _ _ 0) in Hread;
      [|rewrite length_app; cbn; lia|lia|lia|rewrite length_app; cbn; lia].
    change (Z.to_nat 0) with 0%nat in Hread. rewrite drop_0 in Hread.
    injection Hread as Hread.
    destruct (decide (Z.to_nat size <= length name)%nat) as [Hle|Hgt].
    + rewrite take_app_le in Hread by exact Hle.
      apply Hp. rewrite <- Hread. apply prefix_take.
    + rewrite take_app_ge in Hread by lia.
      destruct (Z.to_nat size - length name)%nat as [|m] eqn:Hm; [lia|].
      cbn [take] in Hread.
      rewrite forallb_forall in Hnul.
      specialize (Hnul x00). rewrite bool_decide_eq_true_2 in Hnul by reflexivity.
      cbn in Hnul. assert (In x00 L) as Hin.
      { rewrite <- Hread. apply in_or_app. right. left. reflexivity. }
      apply Hnul in Hin. discriminate.
Qed.

Lemma read_record_value_start (pre name value suf : list byte)
  (t n1 n2 v1 v2 : byte) (n : Z) :
  0 <= n -> n <= Z.of_nat (length value) ->
  ensure_contiguous (pre ++ t :: n1 :: n2 :: name ++ v1 :: v2 :: value ++ suf)
    (Z.of_nat (length pre) + 1 + 2 + Z.of_nat (length name) + 2) n
  = Ok (take (Z.to_nat n) value).
Proof.
  intros Hn Hb.
  replace (Z.of_nat (length pre) + 1 + 2 + Z.of_nat (length name) + 2)
    with (Z.of_nat (length pre) + 1 + 2 + Z.of_nat (length name) + 2 + 0)
    by lia.
  rewrite read_record_value by lia. reflexivity.
Qed.

(** What the enum branch of [add_integer_tree] puts in the label of a record
    with a 4-byte value: the symbol of a table exactly when the attribute
    name begins, case-sensitively, with one of the nine well-known names, so
    that a strict extension of such a name selects the table as well.  A
    value that the selected table lacks is shown as the "Unknown ..." text of
    that table, and under a name that begins with none of the nine names the
    value is shown as a signed decimal integer. *)
Lemma enum_label_by_name_prefix (pre name suf : list byte)
  (t n1 n2 b0 b1 b2 b3 : byte) :
  integer_tree_label
    (pre ++ t :: n1 :: n2 :: name ++ x00 :: x04 :: b0 :: b1 :: b2 :: b3 :: suf)
    (Z.of_nat (length pre)) (Z.of_nat (length name)) 4 TAG_ENUM
  = Ok (fmt_label (format_text name)
          (enum_value_text name (be_value [b0; b1; b2; b3]))).
Proof.
  unfold integer_tree_label, tvb_get_ptr.
  cbn [Z.eqb Pos.eqb TAG_ENUM TAG_BOOLEAN TAG_INTEGER negb].
  rewrite read_record_name. cbn [mbind res_bind]. cbv beta zeta.
  rewrite andb_orb_distrib_r.
  rewrite !starts_with_record_name by reflexivity.
  change (b0 :: b1 :: b2 :: b3 :: suf) with ([b0; b1; b2; b3] ++ suf).
  unfold tvb_get_ntohl.
  rewrite (read_record_value_start pre name [b0; b1; b2; b3] suf)
    by (cbn; lia).
  change (take (Z.to_nat 4) [b0; b1; b2; b3]) with [b0; b1; b2; b3].
  cbn [mbind res_bind].
  unfold enum_value_text, enum_table_of, enum_name_tables.
  cbn [find fst].
  repeat match goal with
         | |- context [bool_decide (?a `prefix_of` name)] =>
             destruct (bool_decide (a `prefix_of` name))
         end;
    reflexivity.
Qed.

(** ** Formatted numbers in the value buffer *)

Lemma list_byte_of_string_append (s1 s2 : string) :
  list_byte_of_string (String.append s1 s2)
  = list_byte_of_string s1 ++ list_byte_of_string s2.
Proof.
  unfold list_byte_of_string.
  induction s1 as [|c s1 IH]; cbn; [reflexivity|]. rewrite <- IH. reflexivity.
Qed.

Lemma length_list_byte_of_string (s : string) :
  length (list_byte_of_string s) = String.length s.
Proof.
  unfold list_byte_of_string. rewrite length_map.
  induction s as [|c s IH]; [reflexivity|]. cbn. rewrite IH. reflexivity.
Qed.

Lemma c_str_nul_free (bs : list byte) :
  Forall (fun b => b <> x00) bs -> c_str bs = bs.
Proof.
  induction 1 as [|b bs Hb _ IH]; [reflexivity|].
  cbn. rewrite decide_False by exact Hb. rewrite IH. reflexivity.
Qed.

(** A formatted text without NUL that fits the buffer is read back as it
    is. *)
Lemma g_snprintf_short (size : nat) (s : string) :
  (String.length s < size)%nat ->
  Forall (fun b => b <> x00) (list_byte_of_string s) ->
  g_snprintf size s = s.
Proof.
  intros Hlen Hnul. unfold g_snprintf.
  rewrite take_ge by (rewrite length_list_byte_of_string; lia).
  rewrite c_str_nul_free by exact Hnul.
  apply string_of_list_byte_of_string.
Qed.

Lemma string_of_uint_digits (d : Decimal.uint) :
  Forall (fun b => b <> x00) (list_byte_of_string (NilEmpty.string_of_uint d))
  /\ String.length (NilEmpty.string_of_uint d) = Decimal.nb_digits d.
Proof.
  induction d as [|d IH|d IH|d IH|d IH|d IH|d IH|d IH|d IH|d IH|d IH].
  { split; [apply Forall_nil_2|reflexivity]. }
  all: destruct IH as [IH1 IH2].
  all: split; [|cbn; rewrite IH2; reflexivity].
  all: apply (Forall_cons_2 (fun b => b <> x00) _
                (list_byte_of_string (NilEmpty.string_of_uint d)));
    [discriminate|exact IH1].
Qed.

Lemma little_double_digits (d : Decimal.uint) :
  (Decimal.nb_digits (Decimal.Little.double d) <= S (Decimal.nb_digits d))%nat
  /\ (Decimal.nb_digits (Decimal.Little.succ_double d)
      <= S (Decimal.nb_digits d))%nat.
Proof.
  induction d as [|d IH|d IH|d IH|d IH|d IH|d IH|d IH|d IH|d IH|d IH].
  { cbn. lia. }
  all: destruct IH as [IH1 IH2]; cbn; lia.
Qed.

Lemma to_little_uint_digits (p : positive) :
  (Decimal.nb_digits (Pos.to_little_uint p) <= Pos.size_nat p)%nat.
Proof.
  induction p as [p IH|p IH|]; cbn; [| |lia].
  - pose proof (little_double_digits (Pos.to_little_uint p)). lia.
  - pose proof (little_double_digits (Pos.to_little_uint p)). lia.
Qed.

Lemma fmt_d_nul_free (z : Z) :
  Forall (fun b => b <> x00) (list_byte_of_string (fmt_d z)).
Proof.
  unfold fmt_d, NilZero.string_of_int, NilZero.string_of_uint.
  destruct (Z.to_int z) as [d|d];
    [|change (list_byte_of_string (String "-" ?s))
        with (x2d :: list_byte_of_string s)].
  - destruct d; try apply string_of_uint_digits.
    repeat constructor; discriminate.
  - constructor; [discriminate|].
    destruct d; try apply string_of_uint_digits.
    repeat constructor; discriminate.
Qed.

Lemma fmt_d_length (z : Z) :
  - 2 ^ 32 < z < 2 ^ 32 -> (String.length (fmt_d z) <= 34)%nat.
Proof.
  intros Hz.
  assert (forall p, (Z.pos p < 2 ^ 32) ->
            (String.length (NilZero.string_of_uint (Pos.to_uint p)) <= 33)%nat)
    as Hp.
  { intros p Hlt. unfold NilZero.string_of_uint.
    assert (String.length (NilEmpty.string_of_uint (Pos.to_uint p)) <= 33)%nat.
    { rewrite (proj2 (string_of_uint_digits _)). unfold Pos.to_uint.
      rewrite DecimalFacts.nb_digits_rev.
      pose proof (to_little_uint_digits p).
      assert (Pos.size_nat p <= Pos.size_nat (2 ^ 32))%nat.
      { apply Pos.size_nat_monotone. lia. }
      change (Pos.size_nat (2 ^ 32)) with 33%nat in *. lia. }
    destruct (Pos.to_uint p); cbn in *; lia. }
  unfold fmt_d, NilZero.string_of_int. destruct z as [|p|p]; cbn [Z.to_int].
  - cbn. lia.
  - specialize (Hp p ltac:(lia)). lia.
  - specialize (Hp p ltac:(lia)). cbn [String.length]. lia.
Qed.



(** ** Octet-string values *)





(** ** The transaction table of a conversation *)

Lemma keeps_conv_pdus {A : Type} (m : M A) : keeps_conv m -> keeps_pdus m.
Proof. intros H s. unfold conv_pdus. rewrite H. reflexivity. Qed.

Lemma keeps_pdus_bind {A B : Type} (m : M A) (k : A -> M B) :
  keeps_pdus m -> (forall a, keeps_pdus (k a)) -> keeps_pdus (m ≫= k).
Proof.
  intros Hm Hk s. unfold mbind, M_bind.
  specialize (Hm s). destruct (m s) as [s1 [a|e|]]; cbn in *; try assumption.
  rewrite Hk. assumption.
Qed.

Lemma keeps_conv_run {A : Type} (m : M A) (s s' : dstate) (r : res A) :
  keeps_conv m -> m s = (s', r) -> ds_conv s' = ds_conv s.
Proof. intros H E. specialize (H s). rewrite E in H. exact H. Qed.

Lemma ensure_contiguous_remaining (tvb : list byte) :
  ensure_contiguous tvb 0 (-1) = Ok tvb.
Proof.
  unfold ensure_contiguous. rewrite compute_offset_nonneg by lia.
  unfold tvb_captured_length.
  destruct (0 <=? Z.of_nat (length tvb)) eqn:E; [|apply Z.leb_gt in E; lia].
  cbn [mbind res_bind].
  change (-1 <? -1) with false. change (-1 =? -1) with true. cbv iota.
  destruct (0 + (Z.of_nat (length tvb) - 0) <=? Z.of_nat (length tvb)) eqn:E2;
    [|apply Z.leb_gt in E2; lia].
  rewrite Z.sub_0_r, Nat2Z.id. change (Z.to_nat 0) with 0%nat.
  rewrite drop_0, take_ge by lia. reflexivity.
Qed.

(** Up to the transaction of the message, [dissect_ipp] reads the header,
    sets the columns and adds the protocol item; the conversation data are
    not touched. *)
Lemma dissect_ipp_prologue tvb pinfo tree data s operation_status request_id :
  tvb_get_ntohs tvb 2 = Ok operation_status ->
  tvb_get_ntohl tvb 4 = Ok request_id ->
  exists s1 ipp_tree,
    ds_conv s1 = ds_conv s
    /\ dissect_ipp tvb pinfo tree data s
       = (ipp_transaction pinfo (ipp_is_request pinfo data) request_id
          ≫= dissect_ipp_message tvb pinfo (ipp_is_request pinfo data)
               operation_status ipp_tree) s1.
Proof.
  intros Hop Hid. unfold dissect_ipp. cbv zeta.
  rewrite (bind_lift_Ok _ _ _ _ Hop), (bind_lift_Ok _ _ _ _ Hid).
  set (info := if ipp_is_request pinfo data then _ else _).
  destruct (col_set_protocol "IPP" s) as [sa ra] eqn:Ha.
  pose proof (keeps_conv_run _ _ _ _ (keeps_conv_col_protocol _) Ha) as Ca.
  assert (ra = Ok tt) as -> by (inversion Ha; reflexivity).
  rewrite (bind_Ok _ _ _ _ _ Ha).
  destruct (col_set_info info sa) as [sb rb] eqn:Hb.
  pose proof (keeps_conv_run _ _ _ _ (keeps_conv_col_info _) Hb) as Cb.
  assert (rb = Ok tt) as -> by (inversion Hb; reflexivity).
  rewrite (bind_Ok _ _ _ _ _ Hb).
  unfold proto_tree_add_item. rewrite ensure_contiguous_remaining.
  destruct (add_node_Ok tree proto_ipp 0 (-1) (NvItem tvb) None sb)
    as (sc & ti & Hc).
  pose proof (keeps_conv_run _ _ _ _ (keeps_conv_add_node _ _ _ _ _ _) Hc) as Cc.
  erewrite bind_Ok;
    [|erewrite bind_lift_Ok by reflexivity; exact Hc].
  unfold proto_item_add_subtree.
  match goal with
  | |- context [update_node ti ?f] =>
      destruct (update_node ti f sc) as [sd rd] eqn:Hd;
      pose proof (keeps_conv_run _ _ _ _ (keeps_conv_update_node ti f) Hd) as Cd
  end.
  assert (rd = Ok tt) as ->.
  { unfold update_node in Hd. destruct ti; inversion Hd; reflexivity. }
  erewrite bind_Ok; [|erewrite bind_Ok by exact Hd; reflexivity].
  exists sd, ti. split; [congruence|reflexivity].
Qed.

Lemma keeps_pdus_get_ipp_info : keeps_pdus get_ipp_info.
Proof.
  intros s. unfold get_ipp_info, modify, conv_pdus. cbn.
  destruct (ds_conv s) eqn:E; cbn; [rewrite E|]; reflexivity.
Qed.

Lemma keeps_conv_gets {A : Type} (f : dstate -> A) : keeps_conv (gets f).
Proof. intros s. reflexivity. Qed.

Lemma keeps_pdus_ipp_transaction_visited pinfo is_request request_id :
  pinfo_fd_visited pinfo = true ->
  keeps_pdus (ipp_transaction pinfo is_request request_id).
Proof.
  intros Hv. unfold ipp_transaction. rewrite Hv. cbn [negb].
  apply keeps_pdus_bind; [apply keeps_pdus_get_ipp_info|]. intros _.
  apply keeps_pdus_bind;
    [apply keeps_conv_pdus, keeps_conv_gets|].
  intros [t|]; apply keeps_conv_pdus, keeps_conv_ret.
Qed.

(** C8. When a message is visited again, the dissector only looks the
    request id up: the transaction table of the conversation is the same map
    after the visit as before, with the same keys and the same transaction
    under every key, whether the message is a request or a response and
    however the dissection ends. *)
Theorem revisit_leaves_pdus_unchanged tvb pinfo tree data s :
  pinfo_fd_visited pinfo = true ->
  conv_pdus (fst (dissect_ipp tvb pinfo tree data s)) = conv_pdus s
  /\ dom (conv_pdus (fst (dissect_ipp tvb pinfo tree data s)))
     = dom (conv_pdus s)
  /\ forall request_id,
       conv_pdus (fst (dissect_ipp tvb pinfo tree data s)) !! request_id
       = conv_pdus s !! request_id.
Proof.
  intros Hv.
  assert (conv_pdus (fst (dissect_ipp tvb pinfo tree data s)) = conv_pdus s)
    as Heq.
  { revert s. change (keeps_pdus (dissect_ipp tvb pinfo tree data)).
    unfold dissect_ipp. cbv zeta.
    repeat (apply keeps_pdus_bind; [solve [apply keeps_conv_pdus; keeps]|intro]).
    apply keeps_pdus_bind.
    - apply keeps_pdus_ipp_transaction_visited, Hv.
    - intro. apply keeps_conv_pdus, keeps_conv_dissect_ipp_message. }
  rewrite Heq. auto.
Qed.

Lemma ipp_transaction_unmatched_response pinfo request_id s :
  conv_pdus s !! request_id = None ->
  exists s',
    conv_pdus s' = conv_pdus s
    /\ ipp_transaction pinfo false request_id s
       = (s', Ok {| req_frame := 0; rep_frame := 0;
                    req_time := pinfo_abs_ts pinfo |}).
Proof.
  intros Hnone.
  unfold ipp_transaction, get_ipp_info, wmem_map_lookup, modify, gets.
  unfold mbind, M_bind, mret, M_ret.
  set (s0 := match ds_conv s with
             | Some _ => s
             | None => set_conv s (Some {| pdus := ∅ |})
             end).
  assert (conv_pdus s0 = conv_pdus s) as Hs0.
  { subst s0. unfold conv_pdus. destruct (ds_conv s) eqn:E; cbn;
      [rewrite E|]; reflexivity. }
  exists s0. split; [exact Hs0|].
  destruct (pinfo_fd_visited pinfo); cbn [negb]; rewrite Hs0, Hnone;
    reflexivity.
Qed.

Lemma ipp_transaction_first_request pinfo request_id s :
  pinfo_fd_visited pinfo = false ->
  exists s',
    conv_pdus s'
    = <[request_id := {| req_frame := pinfo_num pinfo; rep_frame := 0;
                         req_time := pinfo_abs_ts pinfo |}]> (conv_pdus s)
    /\ ipp_transaction pinfo true request_id s
       = (s', Ok {| req_frame := pinfo_num pinfo; rep_frame := 0;
                    req_time := pinfo_abs_ts pinfo |}).
Proof.
  intros Hv.
  unfold ipp_transaction, get_ipp_info, wmem_map_insert, modify.
  rewrite Hv. unfold mbind, M_bind, mret, M_ret. cbn [negb].
  eexists. split; [|reflexivity].
  unfold conv_pdus. cbn. destruct (ds_conv s) as [i|] eqn:E; cbn;
    [rewrite E|]; reflexivity.
Qed.

(** ** The range of the offsets *)

(** The offsets of the parser fit a C [int] for every buffer shorter than
    [2^31 - 131075] bytes. *)
Lemma parse_attributes_body_int_range tvb tree l s s' ctl l' :
  tvb_captured_length tvb < 2 ^ 31 - 131075 ->
  tvb_offset_exists tvb (pa_offset l) = true ->
  parse_attributes_body tvb tree l s = (s', Ok (ctl, l')) ->
  - 2 ^ 31 <= pa_offset l' < 2 ^ 31.
Proof.
  intros Hlen Hex Hb. apply tvb_offset_exists_spec in Hex.
  apply parse_attributes_body_offset in Hb as (tag & _ & Hb).
  destruct (TAG_TYPE tag =? TAG_TYPE_DELIMITER).
  - destruct Hb as [-> _]. lia.
  - destruct Hb as (nl & vl & Hnl & Hvl & -> & _).
    apply tvb_get_ntohs_range in Hnl, Hvl. lia.
Qed.

(** ** The text of the version field *)

Lemma land_255 (z : Z) : Z.land z 0xFF = z mod 256.
Proof. change 0xFF with (Z.ones 8). rewrite Z.land_ones by lia. reflexivity. Qed.

Lemma shiftr_land_ff00 (z : Z) :
  Z.shiftr (Z.land z 0xFF00) 8 = z / 256 mod 256.
Proof.
  rewrite Z.shiftr_land. change (Z.shiftr 0xFF00 8) with 0xFF.
  rewrite land_255, Z.shiftr_div_pow2 by lia. reflexivity.
Qed.

Lemma fmt_version_fits (a b : Z) :
  0 <= a < 256 -> 0 <= b < 256 ->
  g_snprintf ITEM_LABEL_LENGTH (String.concat "" [fmt_u a; "."; fmt_u b]%string)
  = String.append (fmt_u a) (String.append "." (fmt_u b)).
Proof.
  intros Ha Hb.
  change (String.concat "" [fmt_u a; "."; fmt_u b]%string)
    with (String.append (fmt_d a) (String.append "." (fmt_d b))).
  change (fmt_u a) with (fmt_d a). change (fmt_u b) with (fmt_d b).
  apply g_snprintf_short.
  - rewrite <- !length_list_byte_of_string, !list_byte_of_string_append,
      !length_app, !length_list_byte_of_string.
    pose proof (fmt_d_length a ltac:(lia)). pose proof (fmt_d_length b ltac:(lia)).
    unfold ITEM_LABEL_LENGTH. cbn [String.length]. lia.
  - rewrite !list_byte_of_string_append. apply Forall_app. split.
    + apply fmt_d_nul_free.
    + apply Forall_app. split; [|apply fmt_d_nul_free].
      apply Forall_cons_2; [discriminate|apply Forall_nil_2].
Qed.

(** X1. The version field is shown as "<major>.<minor>": the major number
    is the second-lowest byte of the field value and the minor number its
    lowest byte, both in decimal; any higher bits of the value are ignored.
    For the two version bytes of a message header this is the first byte, a
    dot, and the second byte. *)
Theorem ipp_fmt_version_major_minor :
  (forall revision : Z,
      ipp_fmt_version revision
      = String.append (fmt_u (revision / 256 mod 256))
          (String.append "." (fmt_u (revision mod 256))))
  /\ (forall major minor : byte,
        ipp_fmt_version (be_value [major; minor])
        = String.append (fmt_u (byte_to_Z major))
            (String.append "." (fmt_u (byte_to_Z minor))))
  /\ ipp_fmt_version 0x0200 = "2.0"%string
  /\ ipp_fmt_version 0x12345 = "35.69"%string.
Proof.
  assert (forall revision : Z,
             ipp_fmt_version revision
             = String.append (fmt_u (revision / 256 mod 256))
                 (String.append "." (fmt_u (revision mod 256)))) as Hgen.
  { intros revision. unfold ipp_fmt_version.
    rewrite shiftr_land_ff00, !land_255.
    rewrite !Z.mod_mod by lia.
    apply fmt_version_fits; apply Z.mod_pos_bound; lia. }
  split; [exact Hgen|]. split; [|split; vm_compute; reflexivity].
  intros major minor. rewrite Hgen.
  change [major; minor] with ([major] ++ [minor]).
  rewrite be_value_snoc.
  change (be_value [major]) with (Z.lor (Z.shiftl 0 8) (byte_to_Z major)).
  rewrite be_step by apply byte_to_Z_range.
  pose proof (byte_to_Z_range major). pose proof (byte_to_Z_range minor).
  replace ((0 * 256 + byte_to_Z major) * 256 + byte_to_Z minor)
    with (byte_to_Z minor + byte_to_Z major * 256) by lia.
  rewrite Z.div_add, Z.mod_add by lia.
  rewrite (Z.div_small (byte_to_Z minor)) by lia.
  rewrite !Z.mod_small by lia. reflexivity.
Qed.

(** ** Components of the state that a piece of code leaves alone *)

Lemma keeps_field_bind {A B X : Type} (proj : dstate -> X) (m : M A)
  (k : A -> M B) :
  keeps_field proj m -> (forall a, keeps_field proj (k a)) ->
  keeps_field proj (m ≫= k).
Proof.
  intros Hm Hk s. unfold mbind, M_bind.
  specialize (Hm s). destruct (m s) as [s1 [a|e|]]; cbn in *; try assumption.
  rewrite Hk. assumption.
Qed.

Lemma keeps_field_run {A X : Type} (proj : dstate -> X) (m : M A)
  (s s' : dstate) (r : res A) :
  keeps_field proj m -> m s = (s', r) -> proj s' = proj s.
Proof. intros H E. specialize (H s). rewrite E in H. exact H. Qed.

Create HintDb ipp_frame.

(** One step of a frame proof for a component that the tree nodes are no
    part of; [Hblind] names that fact. *)
Ltac frame_step Hblind :=
  match goal with
  | |- keeps_field _ (mret _) => intros ?; reflexivity
  | |- keeps_field _ (lift _) => intros ?; reflexivity
  | |- keeps_field _ (_ ≫= _) => apply keeps_field_bind
  | |- keeps_field _ (proto_tree_add_node ?t _ _ _ _ _) =>
      intros ?; unfold proto_tree_add_node; destruct t; cbn [fst];
      rewrite ?Hblind; reflexivity
  | |- keeps_field _ (update_node ?it _) =>
      intros ?; unfold update_node, modify; destruct it; cbn [fst];
      rewrite ?Hblind; reflexivity
  | |- keeps_field _ (if ?b then _ else _) => destruct b
  | |- keeps_field _ (match ?x with _ => _ end) => destruct x
  | |- keeps_field _ _ => solve [auto with ipp_frame]
  | |- forall _, _ => intro
  end.

Ltac frame Hblind := repeat (cbv beta zeta; frame_step Hblind).

Section Frame.

Context {X : Type} (proj : dstate -> X).
Hypothesis Hblind : forall s ns, proj (set_nodes s ns) = proj s.

Lemma keeps_field_add_value_head tag_desc tree tvb offset name_length
  value_length :
  keeps_field proj
    (add_value_head tag_desc tree tvb offset name_length value_length).
Proof.
  unfold add_value_head, proto_tree_add_string, proto_tree_add_uint.
  frame Hblind.
Qed.

Lemma keeps_field_parse_attributes_body tvb tree l :
  keeps_field proj (parse_attributes_body tvb tree l).
Proof.
  pose proof keeps_field_add_value_head as Hhead.
  unfold parse_attributes_body, proto_item_set_len, add_integer_tree,
    add_integer_value, add_octetstring_tree, add_octetstring_value,
    add_charstring_tree, add_charstring_value, proto_tree_add_subtree,
    proto_tree_add_item.
  frame Hblind; apply Hhead.
Qed.

Lemma keeps_field_parse_attributes_loop fuel tvb tree l :
  keeps_field proj (parse_attributes_loop fuel tvb tree l).
Proof.
  revert l. induction fuel as [|fuel IH]; intros l; cbn.
  - intros s. reflexivity.
  - destruct (tvb_offset_exists tvb (pa_offset l)); [|intros s; reflexivity].
    apply keeps_field_bind; [apply keeps_field_parse_attributes_body|].
    intros [[] l']; [apply IH|intros s; reflexivity].
Qed.

Lemma keeps_field_parse_attributes tvb offset tree :
  keeps_field proj (parse_attributes tvb offset tree).
Proof. apply keeps_field_parse_attributes_loop. Qed.

Hypothesis Hdata : forall tvb offset tree,
  keeps_field proj (call_data_dissector tvb offset tree).

Lemma keeps_field_dissect_ipp_message tvb pinfo is_request operation_status
  ipp_tree ipp_trans :
  keeps_field proj
    (dissect_ipp_message tvb pinfo is_request operation_status ipp_tree
       ipp_trans).
Proof.
  pose proof keeps_field_parse_attributes as Hparse.
  unfold dissect_ipp_message, PROTO_ITEM_SET_GENERATED, proto_tree_add_uint,
    proto_tree_add_uint_format_value, proto_tree_add_time, proto_tree_add_item.
  frame Hblind; solve [apply Hparse|apply Hdata].
Qed.

Hypothesis Hconv : forall s c, proj (set_conv s c) = proj s.

Lemma keeps_field_ipp_transaction pinfo is_request request_id :
  keeps_field proj (ipp_transaction pinfo is_request request_id).
Proof.
  assert (keeps_field proj get_ipp_info) as Hinfo.
  { intros s. unfold get_ipp_info, modify. cbn [fst].
    destruct (ds_conv s); [reflexivity|apply Hconv]. }
  assert (forall key value, keeps_field proj (wmem_map_insert key value))
    as Hins by (intros key value s; apply Hconv).
  assert (forall key value, keeps_field proj (ipp_trans_write key value))
    as Hwrite by (intros key value s; apply Hconv).
  assert (forall key, keeps_field proj (wmem_map_lookup key))
    as Hlook by (intros key s; reflexivity).
  unfold ipp_transaction.
  frame Hblind; solve [apply Hinfo|apply Hins|apply Hwrite|apply Hlook].
Qed.

End Frame.

(** What [dissect_ipp] does after it has set the columns. *)
Lemma keeps_field_dissect_ipp_tail {X : Type} (proj : dstate -> X) tvb pinfo
  tree is_request operation_status request_id :
  (forall s ns, proj (set_nodes s ns) = proj s) ->
  (forall tvb offset tree, keeps_field proj (call_data_dissector tvb offset tree)) ->
  (forall s c, proj (set_conv s c) = proj s) ->
  keeps_field proj
    (ti ← proto_tree_add_item tree proto_ipp tvb 0 (-1);
     ipp_tree ← proto_item_add_subtree ti ett_ipp;
     ipp_trans ← ipp_transaction pinfo is_request request_id;
     dissect_ipp_message tvb pinfo is_request operation_status ipp_tree
       ipp_trans).
Proof.
  intros Hblind Hdata Hconv.
  pose proof (keeps_field_ipp_transaction proj Hconv) as Htrans.
  pose proof (keeps_field_dissect_ipp_message proj Hblind Hdata) as Hmsg.
  unfold proto_tree_add_item, proto_item_add_subtree.
  frame Hblind; solve [apply Htrans|apply Hmsg].
Qed.

Lemma keeps_columns_call_data tvb offset tree :
  keeps_field ds_col_protocol (call_data_dissector tvb offset tree)
  /\ keeps_field ds_col_info (call_data_dissector tvb offset tree).
Proof.
  split; intros s; unfold call_data_dissector, lift, modify, mbind, M_bind;
    destruct (ensure_contiguous tvb offset (-1)); reflexivity.
Qed.

(** ** The fixed header *)

Lemma tvb_get_ntohs_in_bounds tvb offset :
  0 <= offset -> offset + 2 <= tvb_captured_length tvb ->
  tvb_get_ntohs tvb offset
  = Ok (be_value (take 2 (drop (Z.to_nat offset) tvb))).
Proof.
  intros Ho Hb. unfold tvb_get_ntohs.
  rewrite ensure_contiguous_in_bounds by lia. reflexivity.
Qed.

Lemma tvb_get_ntohl_in_bounds tvb offset :
  0 <= offset -> offset + 4 <= tvb_captured_length tvb ->
  tvb_get_ntohl tvb offset
  = Ok (be_value (take 4 (drop (Z.to_nat offset) tvb))).
Proof.
  intros Ho Hb. unfold tvb_get_ntohl.
  rewrite ensure_contiguous_in_bounds by lia. reflexivity.
Qed.

Lemma tvb_get_guint8_in_bounds tvb offset :
  0 <= offset -> offset + 1 <= tvb_captured_length tvb ->
  tvb_get_guint8 tvb offset
  = Ok (be_value (take 1 (drop (Z.to_nat offset) tvb))).
Proof.
  intros Ho Hb. unfold tvb_get_guint8.
  rewrite ensure_contiguous_in_bounds by lia. reflexivity.
Qed.

Lemma dissect_ipp_too_short tvb pinfo tree data s :
  (length tvb < 8)%nat ->
  dissect_ipp tvb pinfo tree data s = (s, Throw BoundsError).
Proof.
  intros Hlen. unfold dissect_ipp. cbv zeta.
  destruct (Z_lt_le_dec (tvb_captured_length tvb) 4) as [Hshort|Hlong].
  - apply bind_lift_Throw. apply tvb_get_ntohs_out_of_bounds; lia.
  - rewrite (bind_lift_Ok _ _ _ _ (tvb_get_ntohs_in_bounds tvb 2 ltac:(lia)
                                      ltac:(lia))).
    apply bind_lift_Throw. unfold tvb_get_ntohl.
    rewrite ensure_contiguous_out_of_bounds;
      [reflexivity|lia|lia|unfold tvb_captured_length; lia].
Qed.

Lemma dissect_ipp_header_readable tvb :
  (8 <= length tvb)%nat ->
  tvb_get_ntohs tvb 2 = Ok (be_value (take 2 (drop 2 tvb)))
  /\ tvb_get_ntohl tvb 4 = Ok (be_value (take 4 (drop 4 tvb))).
Proof.
  intros Hlen.
  assert (8 <= tvb_captured_length tvb) as Hcap
    by (unfold tvb_captured_length; lia).
  split.
  - apply (tvb_get_ntohs_in_bounds tvb 2); lia.
  - apply (tvb_get_ntohl_in_bounds tvb 4); lia.
Qed.

(** X2. A buffer shorter than the eight bytes of the fixed header (version,
    operation or status code, request id) is not dissected at all: the
    bounds exception is raised before anything is written, so the tree, the
    columns, the conversation data and the payload list are what they were. *)
Theorem dissect_ipp_short_header tvb pinfo tree data s :
  (length tvb < 8)%nat ->
  dissect_ipp tvb pinfo tree data s = (s, Throw BoundsError).
Proof. apply dissect_ipp_too_short. Qed.

(** X3. Once the eight header bytes are in the buffer, the two columns are
    set whatever the rest of the message is like and however the dissection
    ends: the protocol column is "IPP", and the info column is
    "IPP Request (<operation>)" or "IPP Response (<status>)" with the name of
    the 16-bit code at offset 2, or its four hexadecimal digits after "0x"
    when the code has no name. *)
Theorem dissect_ipp_columns tvb pinfo tree data s :
  (8 <= length tvb)%nat ->
  let s' := fst (dissect_ipp tvb pinfo tree data s) in
  let code := be_value (take 2 (drop 2 tvb)) in
  ds_col_protocol s' = Some "IPP"%string
  /\ ds_col_info s'
     = Some (if ipp_is_request pinfo data then
               String.append "IPP Request ("
                 (String.append (val_to_str code operation_vals fmt_0x04) ")")
             else
               String.append "IPP Response ("
                 (String.append (val_to_str code status_vals fmt_0x04) ")")).
Proof.
  intros Hlen s' code. subst s'. unfold dissect_ipp. cbv zeta.
  assert (8 <= tvb_captured_length tvb) as Hcap
    by (unfold tvb_captured_length; lia).
  rewrite (bind_lift_Ok _ _ _ _ (tvb_get_ntohs_in_bounds tvb 2 ltac:(lia)
                                    ltac:(lia))).
  rewrite (bind_lift_Ok _ _ _ _ (tvb_get_ntohl_in_bounds tvb 4 ltac:(lia)
                                    ltac:(lia))).
  change (Z.to_nat 2) with 2%nat. fold code.
  erewrite bind_Ok by reflexivity. erewrite bind_Ok by reflexivity.
  split.
  - rewrite keeps_field_dissect_ipp_tail; [reflexivity|reflexivity| |reflexivity].
    intros. apply keeps_columns_call_data.
  - rewrite keeps_field_dissect_ipp_tail; [|reflexivity| |reflexivity].
    + cbn [ds_col_info]. destruct (ipp_is_request pinfo data); reflexivity.
    + intros. apply keeps_columns_call_data.
Qed.

(** ** The transaction of a message *)

Lemma alter_last {A : Type} (f : A -> A) (l : list A) (x : A) :
  alter f (length l) (l ++ [x]) = l ++ [f x].
Proof.
  rewrite alter_app_r_alt by lia. rewrite Nat.sub_diag. reflexivity.
Qed.

Lemma conv_pdus_get_ipp_info s :
  conv_pdus (match ds_conv s with
             | Some _ => s
             | None => set_conv s (Some {| pdus := ∅ |})
             end) = conv_pdus s.
Proof.
  unfold conv_pdus. destruct (ds_conv s) eqn:E; cbn; [rewrite E|]; reflexivity.
Qed.

(** Lines 451 to 482 as a whole: the table becomes [pdus_after], the
    transaction of the message is [transaction_of] in the new table, and the
    tree, the columns and the payloads stay as they are. *)
Lemma ipp_transaction_run pinfo is_request request_id s :
  exists s',
    ipp_transaction pinfo is_request request_id s
    = (s', Ok (transaction_of pinfo request_id
                 (pdus_after pinfo is_request request_id (conv_pdus s))))
    /\ conv_pdus s' = pdus_after pinfo is_request request_id (conv_pdus s)
    /\ ds_nodes s' = ds_nodes s
    /\ ds_data s' = ds_data s.
Proof.
  unfold ipp_transaction, get_ipp_info, wmem_map_insert, wmem_map_lookup,
    ipp_trans_write, modify, gets, pdus_after, transaction_of.
  unfold mbind, M_bind, mret, M_ret.
  set (s0 := match ds_conv s with
             | Some _ => s
             | None => set_conv s (Some {| pdus := ∅ |})
             end).
  assert (conv_pdus s0 = conv_pdus s) as Hs0 by apply conv_pdus_get_ipp_info.
  assert (ds_nodes s0 = ds_nodes s) as Hn0
    by (subst s0; destruct (ds_conv s); reflexivity).
  assert (ds_data s0 = ds_data s) as Hd0
    by (subst s0; destruct (ds_conv s); reflexivity).
  destruct (pinfo_fd_visited pinfo); cbn [negb].
  - rewrite Hs0. exists s0.
    destruct (conv_pdus s !! request_id); auto.
  - destruct is_request.
    + rewrite Hs0, lookup_insert_eq. eexists. split; [reflexivity|].
      unfold conv_pdus at 1. cbn. auto.
    + rewrite Hs0. destruct (conv_pdus s !! request_id) as [t|] eqn:E.
      * rewrite lookup_insert_eq. eexists. split; [reflexivity|].
        unfold conv_pdus at 1. cbn. rewrite Hs0. auto.
      * rewrite E. exists s0. auto.
Qed.

(** [dissect_ipp] on a buffer that holds the fixed header, up to the
    transaction: the columns are set and the protocol item is added and made
    a subtree. *)
Lemma dissect_ipp_unfold tvb pinfo tree data s operation_status request_id :
  tvb_get_ntohs tvb 2 = Ok operation_status ->
  tvb_get_ntohl tvb 4 = Ok request_id ->
  dissect_ipp tvb pinfo tree data s
  = (ipp_transaction pinfo (ipp_is_request pinfo data) request_id
     ≫= dissect_ipp_message tvb pinfo (ipp_is_request pinfo data)
          operation_status
          (match tree with
           | Some _ => Some (length (ds_nodes s))
           | None => None
           end))
      {| ds_nodes :=
           ds_nodes s
           ++ match tree with
              | Some parent =>
                  [{| pn_parent := parent; pn_hf := proto_ipp; pn_start := 0;
                      pn_length := -1; pn_value := NvItem tvb;
                      pn_ett := Some ett_ipp; pn_generated := false |}]
              | None => []
              end;
         ds_col_protocol := Some "IPP"%string;
         ds_col_info :=
           Some (if ipp_is_request pinfo data then
                   String.concat ""
                     ["IPP Request (";
                      val_to_str operation_status operation_vals fmt_0x04;
                      ")"]%string
                 else
                   String.concat ""
                     ["IPP Response (";
                      val_to_str operation_status status_vals fmt_0x04;
                      ")"]%string);
         ds_conv := ds_conv s;
         ds_data := ds_data s |}.
Proof.
  intros Hop Hid. unfold dissect_ipp. cbv zeta.
  rewrite (bind_lift_Ok _ _ _ _ Hop), (bind_lift_Ok _ _ _ _ Hid).
  erewrite bind_Ok by reflexivity. erewrite bind_Ok by reflexivity.
  destruct tree as [parent|].
  - erewrite bind_Ok
      by (unfold proto_tree_add_item; rewrite ensure_contiguous_remaining;
          reflexivity).
    erewrite bind_Ok by reflexivity.
    cbn [ds_nodes ds_col_protocol ds_col_info ds_conv ds_data set_nodes].
    rewrite alter_last. reflexivity.
  - erewrite bind_Ok
      by (unfold proto_tree_add_item; rewrite ensure_contiguous_remaining;
          reflexivity).
    erewrite bind_Ok by reflexivity.
    rewrite app_nil_r. reflexivity.
Qed.

(** [dissect_ipp] on a buffer that holds the fixed header: the protocol item
    is added, the transaction is found or made, and the message is dissected
    under the protocol item with that transaction. *)
Lemma dissect_ipp_run tvb pinfo tree data s operation_status request_id :
  tvb_get_ntohs tvb 2 = Ok operation_status ->
  tvb_get_ntohl tvb 4 = Ok request_id ->
  let is_request := ipp_is_request pinfo data in
  exists s2,
    dissect_ipp tvb pinfo tree data s
    = dissect_ipp_message tvb pinfo is_request operation_status
        (match tree with
         | Some _ => Some (length (ds_nodes s))
         | None => None
         end)
        (transaction_of pinfo request_id
           (pdus_after pinfo is_request request_id (conv_pdus s))) s2
    /\ conv_pdus s2 = pdus_after pinfo is_request request_id (conv_pdus s)
    /\ ds_data s2 = ds_data s
    /\ ds_nodes s2
       = ds_nodes s
         ++ match tree with
            | Some parent =>
                [{| pn_parent := parent; pn_hf := proto_ipp; pn_start := 0;
                    pn_length := -1; pn_value := NvItem tvb;
                    pn_ett := Some ett_ipp; pn_generated := false |}]
            | None => []
            end.
Proof.
  intros Hop Hid is_request.
  rewrite (dissect_ipp_unfold _ _ _ _ _ _ _ Hop Hid). fold is_request.
  match goal with
  | |- context [(ipp_transaction _ _ _ ≫= _) ?sd] =>
      destruct (ipp_transaction_run pinfo is_request request_id sd)
        as (s2 & Htrans & Hp & Hn & Hd)
  end.
  exists s2. rewrite (bind_Ok _ _ _ _ _ Htrans).
  split; [reflexivity|]. split; [exact Hp|]. split; [exact Hd|exact Hn].
Qed.

Lemma dissect_ipp_pdus tvb pinfo tree data s operation_status request_id :
  tvb_get_ntohs tvb 2 = Ok operation_status ->
  tvb_get_ntohl tvb 4 = Ok request_id ->
  conv_pdus (fst (dissect_ipp tvb pinfo tree data s))
  = pdus_after pinfo (ipp_is_request pinfo data) request_id (conv_pdus s).
Proof.
  intros Hop Hid.
  destruct (dissect_ipp_run tvb pinfo tree data s _ _ Hop Hid)
    as (s2 & Hrun & Hp & _).
  rewrite Hrun, <- Hp. unfold conv_pdus.
  rewrite keeps_conv_dissect_ipp_message. reflexivity.
Qed.

(** Without the fixed header in the buffer nothing is written. *)
Lemma dissect_ipp_header_cases tvb pinfo tree data s :
  (exists operation_status request_id,
      tvb_get_ntohs tvb 2 = Ok operation_status
      /\ tvb_get_ntohl tvb 4 = Ok request_id)
  \/ fst (dissect_ipp tvb pinfo tree data s) = s.
Proof.
  unfold dissect_ipp. cbv zeta.
  destruct (tvb_get_ntohs tvb 2) as [op|e|] eqn:Hop; [|right; reflexivity..].
  destruct (tvb_get_ntohl tvb 4) as [id|e|] eqn:Hid; [|right; reflexivity..].
  left. eauto.
Qed.

Lemma pdus_after_other pinfo is_request request_id m other :
  other <> request_id ->
  pdus_after pinfo is_request request_id m !! other = m !! other.
Proof.
  intros Hne. unfold pdus_after.
  destruct (pinfo_fd_visited pinfo); [reflexivity|].
  destruct is_request; [apply lookup_insert_ne; congruence|].
  destruct (m !! request_id); [apply lookup_insert_ne; congruence|reflexivity].
Qed.

Lemma pdus_after_is_Some pinfo is_request request_id m key :
  is_Some (m !! key) ->
  is_Some (pdus_after pinfo is_request request_id m !! key).
Proof.
  intros Hsome. unfold pdus_after.
  destruct (pinfo_fd_visited pinfo); [exact Hsome|].
  destruct (decide (key = request_id)) as [->|Hne].
  - destruct is_request; [rewrite lookup_insert_eq; eauto|].
    destruct (m !! request_id);
      [rewrite lookup_insert_eq; eauto|destruct Hsome as [? [=]]].
  - destruct is_request; [rewrite lookup_insert_ne by congruence; exact Hsome|].
    destruct (m !! request_id);
      [rewrite lookup_insert_ne by congruence|]; exact Hsome.
Qed.

Lemma pdus_after_response_dom pinfo request_id m :
  dom (pdus_after pinfo false request_id m) = dom m.
Proof.
  unfold pdus_after. destruct (pinfo_fd_visited pinfo); [reflexivity|].
  destruct (m !! request_id) eqn:E; [|reflexivity].
  apply dom_insert_lookup_L. rewrite E. eauto.
Qed.

(** X4. Whatever the message and however its dissection ends, the
    transaction table of the conversation changes at most under the request
    id of the message: the entry of every other request id is what it was.
    No entry is ever removed, and a response never adds one: after a
    response the table has the same request ids as before. *)
Theorem dissect_ipp_table_frame tvb pinfo tree data s :
  let s' := fst (dissect_ipp tvb pinfo tree data s) in
  (forall other,
      tvb_get_ntohl tvb 4 <> Ok other ->
      conv_pdus s' !! other = conv_pdus s !! other)
  /\ (forall key,
        is_Some (conv_pdus s !! key) -> is_Some (conv_pdus s' !! key))
  /\ (ipp_is_request pinfo data = false ->
      dom (conv_pdus s') = dom (conv_pdus s)).
Proof.
  intros s'. subst s'.
  destruct (dissect_ipp_header_cases tvb pinfo tree data s)
    as [(op & id & Hop & Hid)|Hsame].
  - rewrite (dissect_ipp_pdus _ _ _ _ _ _ _ Hop Hid). split; [|split].
    + intros other Hne. apply pdus_after_other. congruence.
    + intros key. apply pdus_after_is_Some.
    + intros ->. apply pdus_after_response_dom.
  - rewrite Hsame. auto.
Qed.

(** X6. A request and its response pair up.  When a request is dissected
    for the first time and then, in a state that later dissections may have
    changed under other request ids only, a response with the same request
    id is dissected for the first time, the table holds under that id the
    frame number and the time of the request together with the frame number
    of the response, and the entries of the other request ids are as the
    response found them; dissecting any message on a later visit leaves the
    paired entry as it is. *)
Theorem request_then_response_pairs tvb_req tvb_rsp pinfo_req pinfo_rsp tree_req
  tree_rsp data_req data_rsp s op status request_id :
  tvb_get_ntohs tvb_req 2 = Ok op ->
  tvb_get_ntohl tvb_req 4 = Ok request_id ->
  tvb_get_ntohs tvb_rsp 2 = Ok status ->
  tvb_get_ntohl tvb_rsp 4 = Ok request_id ->
  ipp_is_request pinfo_req data_req = true ->
  ipp_is_request pinfo_rsp data_rsp = false ->
  pinfo_fd_visited pinfo_req = false ->
  pinfo_fd_visited pinfo_rsp = false ->
  let paired := {| req_frame := pinfo_num pinfo_req;
                   rep_frame := pinfo_num pinfo_rsp;
                   req_time := pinfo_abs_ts pinfo_req |} in
  let s1 := fst (dissect_ipp tvb_req pinfo_req tree_req data_req s) in
  forall s1',
    conv_pdus s1' !! request_id = conv_pdus s1 !! request_id ->
    let s2 := fst (dissect_ipp tvb_rsp pinfo_rsp tree_rsp data_rsp s1') in
    conv_pdus s2 !! request_id = Some paired
    /\ (forall other,
          other <> request_id ->
          conv_pdus s2 !! other = conv_pdus s1' !! other)
    /\ forall tvb pinfo tree data,
         pinfo_fd_visited pinfo = true ->
         conv_pdus (fst (dissect_ipp tvb pinfo tree data s2)) !! request_id
         = Some paired.
Proof.
  intros Hop Hid Hst Hid' Hreq Hrsp Hv Hv' paired s1 s1' Hsame s2.
  assert (conv_pdus s1 !! request_id
          = Some {| req_frame := pinfo_num pinfo_req; rep_frame := 0;
                    req_time := pinfo_abs_ts pinfo_req |}) as H1.
  { subst s1. rewrite (dissect_ipp_pdus _ _ _ _ _ _ _ Hop Hid), Hreq.
    unfold pdus_after. rewrite Hv. apply lookup_insert_eq. }
  rewrite <- Hsame in H1.
  assert (conv_pdus s2 = <[request_id := paired]> (conv_pdus s1')) as H2.
  { subst s2. rewrite (dissect_ipp_pdus _ _ _ _ _ _ _ Hst Hid'), Hrsp.
    unfold pdus_after. rewrite Hv', H1. reflexivity. }
  split; [rewrite H2; apply lookup_insert_eq|]. split.
  - intros other Hne. rewrite H2. apply lookup_insert_ne. congruence.
  - intros tvb pinfo tree data Hvis.
    destruct (dissect_ipp_header_cases tvb pinfo tree data s2)
      as [(op' & id' & Hop' & Hid'')|Hsame2].
    + rewrite (dissect_ipp_pdus _ _ _ _ _ _ _ Hop' Hid'').
      unfold pdus_after. rewrite Hvis, H2. apply lookup_insert_eq.
    + rewrite Hsame2, H2. apply lookup_insert_eq.
Qed.

(** ** The nodes that are in the tree already *)

Lemma extends_tree_bind {A B : Type} n0 P (R : A -> Prop) (R' : B -> Prop)
  (m : M A) (k : A -> M B) :
  extends_tree n0 P R m ->
  (forall a, R a -> extends_tree n0 P R' (k a)) ->
  extends_tree n0 P R' (m ≫= k).
Proof.
  intros Hm Hk s Hlen HP.
  destruct (Hm s Hlen HP) as (Ht & Hl & HPs & HR).
  unfold mbind, M_bind. destruct (m s) as [s1 [a|e|]]; cbn [fst snd] in *;
    [|auto..].
  destruct (Hk a HR s1 Hl HPs) as (Ht2 & Hl2 & HP2 & HR2).
  rewrite Ht2, Ht. auto.
Qed.

Lemma extends_tree_weaken {A : Type} n0 P (R R' : A -> Prop) (m : M A) :
  (forall a, R a -> R' a) -> extends_tree n0 P R m -> extends_tree n0 P R' m.
Proof.
  intros HRR Hm s Hlen HP. destruct (Hm s Hlen HP) as (Ht & Hl & HPs & HR).
  repeat split; try assumption.
  destruct (snd (m s)); auto.
Qed.

Lemma extends_tree_ret {A : Type} n0 P (R : A -> Prop) (a : A) :
  R a -> extends_tree n0 P R (mret a : M A).
Proof. intros HR s Hlen HP. cbn. auto. Qed.

Lemma extends_tree_lift {A : Type} n0 P (r : res A) :
  extends_tree n0 P (fun _ => True) (lift r).
Proof. intros s Hlen HP. cbn. repeat split; auto. destruct r; exact I. Qed.

Lemma extends_tree_add_node n0 P tree hf start length v ett :
  (forall parent,
      tree = Some parent ->
      P {| pn_parent := parent; pn_hf := hf; pn_start := start;
           pn_length := length; pn_value := v; pn_ett := ett;
           pn_generated := false |}) ->
  extends_tree n0 P (fresh_from n0)
    (proto_tree_add_node tree hf start length v ett).
Proof.
  intros Hnew s Hlen HP. unfold proto_tree_add_node.
  destruct tree as [parent|]; cbn [fst snd set_nodes ds_nodes fresh_from];
    [|auto].
  rewrite take_app_le, length_app, drop_app_le by lia.
  repeat split; [lia| |exact Hlen].
  apply Forall_app. split; [exact HP|].
  apply Forall_cons_2; [apply Hnew; reflexivity|apply Forall_nil_2].
Qed.

Lemma extends_tree_update_node n0 P it f :
  fresh_from n0 it -> (forall n, P n -> P (f n)) ->
  extends_tree n0 P (fun _ => True) (update_node it f).
Proof.
  intros Hfresh Hf s Hlen HP. unfold update_node.
  destruct it as [i|]; cbn [fst snd set_nodes ds_nodes modify fresh_from] in *;
    [|auto].
  rewrite take_alter_ge, length_alter, drop_alter_ge by lia.
  repeat split; [exact Hlen|].
  apply Forall_alter; [exact HP|]. intros x _. apply Hf.
Qed.

(** The same for code whose results are not used as items later on. *)
Lemma extends_tree_bind_any {A B : Type} n0 P (R' : B -> Prop) (m : M A)
  (k : A -> M B) :
  extends_tree n0 P (fun _ => True) m ->
  (forall a, extends_tree n0 P R' (k a)) ->
  extends_tree n0 P R' (m ≫= k).
Proof. intros Hm Hk. eapply extends_tree_bind; [exact Hm|]. auto. Qed.

Lemma extends_tree_add_node_any n0 P tree hf start length v ett :
  (forall parent,
      tree = Some parent ->
      P {| pn_parent := parent; pn_hf := hf; pn_start := start;
           pn_length := length; pn_value := v; pn_ett := ett;
           pn_generated := false |}) ->
  extends_tree n0 P (fun _ => True)
    (proto_tree_add_node tree hf start length v ett).
Proof.
  intros Hnew. eapply extends_tree_weaken; [|apply extends_tree_add_node, Hnew].
  auto.
Qed.

(** One step of a proof that code extends the tree; [tac] shows that a new
    node satisfies the property of the added nodes. *)
Ltac extends_step tac :=
  match goal with
  | |- extends_tree _ _ _ (mret _) => apply extends_tree_ret; exact I
  | |- extends_tree _ _ _ (lift _) => apply extends_tree_lift
  | |- extends_tree _ _ _ (_ ≫= _) => apply extends_tree_bind_any
  | |- extends_tree _ _ _ (proto_tree_add_node _ _ _ _ _ _) =>
      apply extends_tree_add_node_any; tac
  | |- extends_tree _ _ _ (if ?b then _ else _) => destruct b
  | |- extends_tree _ _ _ (match ?x with _ => _ end) => destruct x
  | |- forall _, _ => intro
  end.

Ltac extends tac := repeat (cbv beta zeta; extends_step tac).

Lemma extends_tree_add_value_head n0 P tag_desc tree tvb offset name_length
  value_length :
  (forall parent hf start length v,
      tree = Some parent -> attribute_field hf = true -> hf <> hf_text_only ->
      P {| pn_parent := parent; pn_hf := hf; pn_start := start;
           pn_length := length; pn_value := v; pn_ett := None;
           pn_generated := false |}) ->
  extends_tree n0 P (fun _ => True)
    (add_value_head tag_desc tree tvb offset name_length value_length).
Proof.
  intros Hnew.
  unfold add_value_head, proto_tree_add_string, proto_tree_add_uint.
  extends ltac:(intros; apply Hnew; [assumption|reflexivity|discriminate]).
Qed.

(** The nodes that the value functions add: items of the value under
    [tree], none of them a subtree label. *)
Lemma extends_tree_add_values n0 P tag_desc tree tvb offset name_length
  value_length tag :
  (forall parent hf start length v,
      tree = Some parent -> attribute_field hf = true -> hf <> hf_text_only ->
      P {| pn_parent := parent; pn_hf := hf; pn_start := start;
           pn_length := length; pn_value := v; pn_ett := None;
           pn_generated := false |}) ->
  extends_tree n0 P (fun _ => True)
    (add_integer_value tag_desc tree tvb offset name_length value_length tag)
  /\ extends_tree n0 P (fun _ => True)
       (add_octetstring_value tag_desc tree tvb offset name_length
          value_length)
  /\ extends_tree n0 P (fun _ => True)
       (add_charstring_value tag_desc tree tvb offset name_length
          value_length).
Proof.
  intros Hnew.
  pose proof (extends_tree_add_value_head n0 P tag_desc tree tvb offset
                name_length value_length Hnew) as Hhead.
  unfold add_integer_value, add_octetstring_value, add_charstring_value,
    proto_tree_add_item.
  split; [|split];
    (apply extends_tree_bind_any; [exact Hhead|]);
    extends ltac:(intros; apply Hnew; [assumption|reflexivity|discriminate]).
Qed.

(** *** The nodes that the attribute parser adds *)

Lemma under_tree tree n0 : under tree n0 tree.
Proof. destruct tree; cbn; auto. Qed.

Lemma extends_tree_add_under tree n0 t hf start length v ett :
  under tree n0 t -> attribute_field hf = true ->
  extends_tree n0 (attribute_node tree n0)
    (fun it => under tree n0 it /\ fresh_from n0 it)
    (proto_tree_add_node t hf start length v ett).
Proof.
  intros Hu Hf s Hlen HP. unfold proto_tree_add_node.
  destruct t as [parent|]; cbn [fst snd set_nodes ds_nodes]; [|cbn; auto].
  rewrite take_app_le, length_app, drop_app_le by lia.
  split; [reflexivity|]. split; [lia|]. split.
  - apply Forall_app. split; [exact HP|].
    apply Forall_cons_2; [|apply Forall_nil_2].
    split; [exact Hf|]. split; [reflexivity|exact Hu].
  - cbn. split; [|exact Hlen]. right. split; [exact Hlen|].
    destruct Hu as [->|[_ Hne]]; [discriminate|exact Hne].
Qed.

Lemma extends_tree_attribute_values tree n0 tag_desc t tvb offset name_length
  value_length tag :
  under tree n0 t ->
  extends_tree n0 (attribute_node tree n0) (fun _ => True)
    (add_integer_value tag_desc t tvb offset name_length value_length tag)
  /\ extends_tree n0 (attribute_node tree n0) (fun _ => True)
       (add_octetstring_value tag_desc t tvb offset name_length value_length)
  /\ extends_tree n0 (attribute_node tree n0) (fun _ => True)
       (add_charstring_value tag_desc t tvb offset name_length value_length).
Proof.
  intros Hu. apply extends_tree_add_values.
  intros parent hf start length v -> Hf _.
  split; [exact Hf|]. split; [reflexivity|exact Hu].
Qed.

Lemma extends_tree_parse_attributes_body tree n0 tvb l :
  pa_invariant tree n0 l ->
  extends_tree n0 (attribute_node tree n0)
    (fun r => pa_invariant tree n0 (snd r))
    (parse_attributes_body tvb tree l).
Proof.
  intros (Has & Hattr & Hsub & Htas). unfold parse_attributes_body.
  apply extends_tree_bind_any; [apply extends_tree_lift|]. intros tag.
  cbv zeta. destruct (TAG_TYPE tag =? TAG_TYPE_DELIMITER).
  - apply extends_tree_bind_any.
    { destruct (pa_tas l) as [i|] eqn:E; [|apply extends_tree_ret; exact I].
      unfold proto_item_set_len. apply extends_tree_update_node.
      - exact Htas.
      - intros n Hn. exact Hn. }
    intros _. eapply extends_tree_bind.
    { unfold proto_tree_add_subtree.
      apply extends_tree_add_under; [apply under_tree|reflexivity]. }
    intros sub [Hu Hf].
    destruct (tag =? TAG_END_OF_ATTRIBUTES); apply extends_tree_ret;
      (split; [exact I|]); (split; [apply under_tree|]); split; assumption.
  - apply extends_tree_bind_any; [apply extends_tree_lift|]. intros nl.
    apply extends_tree_bind_any; [apply extends_tree_lift|]. intros vl.
    set (as_tree := match pa_as_tree l with
                    | None => pa_subtree l
                    | Some t => Some t
                    end).
    set (attr_tree := match pa_as_tree l with
                      | None => as_tree
                      | Some _ => pa_attr_tree l
                      end).
    assert (under tree n0 as_tree) as Has'.
    { subst as_tree. destruct (pa_as_tree l); assumption. }
    assert (under tree n0 attr_tree) as Hattr'.
    { subst attr_tree. destruct (pa_as_tree l); assumption. }
    eapply extends_tree_bind with (R := under tree n0).
    + assert (forall m : M (option nat),
                 extends_tree n0 (attribute_node tree n0)
                   (fun it => under tree n0 it /\ fresh_from n0 it) m ->
                 extends_tree n0 (attribute_node tree n0) (under tree n0)
                   (if negb (nl =? 0) then m else mret attr_tree)) as Hopen.
      { intros m Hm. destruct (negb (nl =? 0)).
        - eapply extends_tree_weaken; [|exact Hm]. intros a [Ha _]. exact Ha.
        - apply extends_tree_ret. exact Hattr'. }
      assert (forall label,
                 extends_tree n0 (attribute_node tree n0)
                   (fun it => under tree n0 it /\ fresh_from n0 it)
                   (proto_tree_add_subtree as_tree (pa_offset l)
                      (1 + 2 + nl + 2 + vl) ett_ipp_attr label)) as Hsubtree.
      { intros label. unfold proto_tree_add_subtree.
        apply extends_tree_add_under; [exact Has'|reflexivity]. }
      destruct (TAG_TYPE tag =? TAG_TYPE_INTEGER);
        [|destruct (TAG_TYPE tag =? TAG_TYPE_OCTETSTRING);
          [|destruct (TAG_TYPE tag =? TAG_TYPE_CHARSTRING)]].
      * eapply extends_tree_bind with (R := under tree n0).
        { apply Hopen. unfold add_integer_tree.
          eapply extends_tree_bind; [apply extends_tree_lift|].
          intros label _. apply Hsubtree. }
        intros a Ha. apply extends_tree_bind_any;
          [apply extends_tree_attribute_values, Ha|].
        intros _. apply extends_tree_ret, Ha.
      * eapply extends_tree_bind with (R := under tree n0).
        { apply Hopen. unfold add_octetstring_tree.
          eapply extends_tree_bind; [apply extends_tree_lift|].
          intros value _.
          eapply extends_tree_bind; [apply extends_tree_lift|].
          intros name _. apply Hsubtree. }
        intros a Ha. apply extends_tree_bind_any;
          [apply (extends_tree_attribute_values tree n0 _ a tvb _ _ _ 0), Ha|].
        intros _. apply extends_tree_ret, Ha.
      * eapply extends_tree_bind with (R := under tree n0).
        { apply Hopen. unfold add_charstring_tree.
          eapply extends_tree_bind; [apply extends_tree_lift|].
          intros name _.
          eapply extends_tree_bind; [apply extends_tree_lift|].
          intros value _. apply Hsubtree. }
        intros a Ha. apply extends_tree_bind_any;
          [apply (extends_tree_attribute_values tree n0 _ a tvb _ _ _ 0), Ha|].
        intros _. apply extends_tree_ret, Ha.
      * apply extends_tree_ret, Hattr'.
    + intros a Ha. apply extends_tree_ret. repeat split; assumption.
Qed.

Lemma extends_tree_parse_attributes_loop tree n0 fuel tvb l :
  pa_invariant tree n0 l ->
  extends_tree n0 (attribute_node tree n0) (fun _ => True)
    (parse_attributes_loop fuel tvb tree l).
Proof.
  revert l. induction fuel as [|fuel IH]; intros l Hinv;
    cbn [parse_attributes_loop].
  - apply extends_tree_lift.
  - destruct (tvb_offset_exists tvb (pa_offset l));
      [|apply extends_tree_ret; exact I].
    eapply extends_tree_bind;
      [apply extends_tree_parse_attributes_body, Hinv|].
    intros [ctl l'] Hinv'. destruct ctl;
      [apply IH, Hinv'|apply extends_tree_ret; exact I].
Qed.

Lemma extends_tree_parse_attributes tree n0 tvb offset :
  extends_tree n0 (attribute_node tree n0) (fun _ => True)
    (parse_attributes tvb offset tree).
Proof.
  apply extends_tree_parse_attributes_loop.
  repeat split; try exact I; apply under_tree.
Qed.

(** What code that extends the tree does to a tree whose nodes are all
    old. *)
Lemma extends_tree_run {A : Type} P (R : A -> Prop) (m : M A) (s : dstate) :
  extends_tree (length (ds_nodes s)) P R m ->
  exists extra,
    ds_nodes (fst (m s)) = ds_nodes s ++ extra /\ Forall P extra
    /\ match snd (m s) with
       | Ok a => R a
       | _ => True
       end.
Proof.
  intros Hm. destruct (Hm s) as (Ht & Hl & HP & HR); [lia| |].
  { rewrite drop_ge by lia. apply Forall_nil_2. }
  exists (drop (length (ds_nodes s)) (ds_nodes (fst (m s)))).
  split; [|split; assumption].
  rewrite <- (take_drop (length (ds_nodes s)) (ds_nodes (fst (m s)))) at 1.
  rewrite Ht, take_ge by lia. reflexivity.
Qed.

(** X7. The attribute parser never touches a node that is in the tree
    already, and never removes one: it only adds nodes at the end of the
    tree.  Every node it adds is a label-only subtree or an item of a value
    record, is not marked as generated, and hangs under the tree the parser
    was handed or under a node that the same call has added.  With a NULL
    tree the parser adds no node at all. *)
Theorem parse_attributes_tree_shape tvb offset tree s :
  exists extra,
    ds_nodes (fst (parse_attributes tvb offset tree s)) = ds_nodes s ++ extra
    /\ Forall (attribute_node tree (length (ds_nodes s))) extra
    /\ Forall (fun n => exists parent, tree = Some parent
                 /\ (pn_parent n = parent
                     \/ (length (ds_nodes s) <= pn_parent n)%nat)) extra
    /\ (tree = None -> extra = []).
Proof.
  destruct (extends_tree_run _ _ _ s
              (extends_tree_parse_attributes tree (length (ds_nodes s)) tvb
                 offset)) as (extra & Hnodes & HP & _).
  exists extra. split; [exact Hnodes|]. split; [exact HP|].
  assert (Forall (fun n => exists parent, tree = Some parent
                    /\ (pn_parent n = parent
                        \/ (length (ds_nodes s) <= pn_parent n)%nat)) extra)
    as Hparent.
  { eapply Forall_impl; [exact HP|]. intros n (_ & _ & Hu). cbn in Hu.
    destruct tree as [parent|].
    - exists parent. split; [reflexivity|].
      destruct Hu as [[= ->]|[Hge _]]; auto.
    - destruct Hu as [[=]|[_ Hne]]. contradiction. }
  split; [exact Hparent|].
  intros ->. destruct extra as [|n extra]; [reflexivity|].
  apply Forall_cons in Hparent as [(parent & [=] & _) _].
Qed.

(** *** The nodes that [dissect_ipp] adds *)

Lemma extends_tree_rebase {A : Type} n0 Q (R : A -> Prop)
  (P_of : nat -> proto_node -> Prop) (m : M A) :
  (forall n1, (n0 <= n1)%nat -> extends_tree n1 (P_of n1) R m) ->
  (forall n1 n, (n0 <= n1)%nat -> P_of n1 n -> Q n) ->
  extends_tree n0 Q R m.
Proof.
  intros Hm HPQ s Hlen HQ.
  destruct (extends_tree_run _ _ _ s (Hm (length (ds_nodes s)) Hlen))
    as (extra & Hn & HP & HR).
  rewrite Hn, take_app_le, length_app, drop_app_le by lia.
  split; [reflexivity|]. split; [lia|]. split; [|exact HR].
  apply Forall_app. split; [exact HQ|].
  eapply Forall_impl; [exact HP|]. intros n. apply HPQ. exact Hlen.
Qed.

Lemma extends_tree_call_data n0 Q tvb offset tree :
  extends_tree n0 Q (fun _ => True) (call_data_dissector tvb offset tree).
Proof.
  intros s Hlen HQ. unfold call_data_dissector, lift, modify, mbind, M_bind.
  destruct (ensure_contiguous tvb offset (-1)); cbn; auto.
Qed.

(** The nodes of a message: [Q] holds of every added node when it holds of
    the nodes that are no link items, and of all nodes in case the
    transaction names the frame of the other message. *)
Lemma extends_tree_dissect_ipp_message n0 (Q : proto_node -> Prop) tvb pinfo
  (is_request : bool) operation_status (ipp_tree : option nat)
  (t : ipp_transaction_t) :
  (forall n,
      ipp_tree <> None ->
      link_field (pn_hf n) = false
      \/ (if is_request then rep_frame t else req_frame t) <> 0 ->
      Q n) ->
  (forall n,
      Q n ->
      Q {| pn_parent := pn_parent n; pn_hf := pn_hf n; pn_start := pn_start n;
           pn_length := pn_length n; pn_value := pn_value n;
           pn_ett := pn_ett n; pn_generated := true |}) ->
  extends_tree n0 Q (fun _ => True)
    (dissect_ipp_message tvb pinfo is_request operation_status ipp_tree t).
Proof.
  intros HQ Hgen. unfold dissect_ipp_message. cbv zeta.
  assert (forall hf start length v ett,
             (if is_request then rep_frame t else req_frame t) <> 0 ->
             extends_tree n0 Q (fresh_from n0)
               (proto_tree_add_node ipp_tree hf start length v ett)) as Hlink.
  { intros hf start length v ett Hshown. apply extends_tree_add_node.
    intros parent ->. apply HQ; [discriminate|right; exact Hshown]. }
  assert (forall hf start length v ett,
             link_field hf = false ->
             extends_tree n0 Q (fun _ => True)
               (proto_tree_add_node ipp_tree hf start length v ett)) as Hitem.
  { intros hf start length v ett Hhf. apply extends_tree_add_node_any.
    intros parent ->. apply HQ; [discriminate|left; exact Hhf]. }
  assert (forall it, fresh_from n0 it ->
             extends_tree n0 Q (fun _ => True) (PROTO_ITEM_SET_GENERATED it))
    as Hset.
  { intros it Hit. unfold PROTO_ITEM_SET_GENERATED.
    apply extends_tree_update_node; [exact Hit|exact Hgen]. }
  apply extends_tree_bind_any.
  { destruct is_request.
    - destruct (rep_frame t =? 0) eqn:E; cbn [negb];
        [apply extends_tree_ret; exact I|].
      apply Z.eqb_neq in E.
      eapply extends_tree_bind; [apply Hlink, E|]. intros it Hit.
      apply Hset, Hit.
    - destruct (req_frame t =? 0) eqn:E; cbn [negb];
        [apply extends_tree_ret; exact I|].
      apply Z.eqb_neq in E.
      eapply extends_tree_bind; [apply Hlink, E|]. intros it Hit.
      apply extends_tree_bind_any; [apply Hset, Hit|]. intros _.
      eapply extends_tree_bind; [apply Hlink, E|]. intros it' Hit'.
      apply Hset, Hit'. }
  intros _. unfold proto_tree_add_item, proto_tree_add_uint_format_value.
  apply extends_tree_bind_any.
  { apply extends_tree_bind_any; [apply extends_tree_lift|]. intros data.
    apply Hitem. reflexivity. }
  intros _. apply extends_tree_bind_any.
  { destruct is_request; [|apply Hitem; reflexivity].
    apply extends_tree_bind_any; [apply extends_tree_lift|]. intros data.
    apply Hitem. reflexivity. }
  intros _. apply extends_tree_bind_any.
  { apply extends_tree_bind_any; [apply extends_tree_lift|]. intros data.
    apply Hitem. reflexivity. }
  intros _. apply extends_tree_bind_any.
  { apply (extends_tree_rebase n0 Q _ (attribute_node ipp_tree)).
    - intros n1 _. apply extends_tree_parse_attributes.
    - intros n1 n _ (Hf & _ & Hu). apply HQ.
      + cbn in Hu. destruct Hu as [->|[_ Hne]]; [discriminate|exact Hne].
      + left. destruct (pn_hf n); try discriminate; reflexivity. }
  intros offset. apply extends_tree_bind_any.
  { destruct (tvb_offset_exists tvb offset);
      [apply extends_tree_call_data|apply extends_tree_ret; exact I]. }
  intros _. apply extends_tree_ret. exact I.
Qed.

(** X8. [dissect_ipp] never touches a node that is in the tree already: it
    only adds nodes at the end of the tree.  With a NULL tree it adds none.
    With a tree, once the fixed header is in the buffer, the first node it
    adds is the protocol item, a subtree under the given tree whose bytes
    are the whole buffer; this node stays as it is whatever follows. *)
Theorem dissect_ipp_tree_shape tvb pinfo tree data s :
  exists extra,
    ds_nodes (fst (dissect_ipp tvb pinfo tree data s)) = ds_nodes s ++ extra
    /\ (tree = None -> extra = [])
    /\ forall parent,
         tree = Some parent -> (8 <= length tvb)%nat ->
         exists rest,
           extra = {| pn_parent := parent; pn_hf := proto_ipp; pn_start := 0;
                      pn_length := -1; pn_value := NvItem tvb;
                      pn_ett := Some ett_ipp; pn_generated := false |}
                   :: rest.
Proof.
  destruct (le_lt_dec 8 (length tvb)) as [Hlong|Hshort].
  - destruct (dissect_ipp_header_readable tvb Hlong) as [Hop Hid].
    destruct (dissect_ipp_run tvb pinfo tree data s _ _ Hop Hid)
      as (s2 & Hrun & _ & _ & Hn2).
    rewrite Hrun. clear Hrun.
    set (r := ipp_is_request pinfo data).
    set (t := transaction_of pinfo _ _).
    set (ipp_tree := match tree with
                     | Some _ => Some (length (ds_nodes s))
                     | None => None
                     end).
    assert (forall n : proto_node,
               ipp_tree <> None ->
               link_field (pn_hf n) = false
               \/ (if r then rep_frame t else req_frame t) <> 0 ->
               tree <> None) as HQ1.
    { intros n Hne _. subst ipp_tree.
      destruct tree; [discriminate|contradiction]. }
    destruct (extends_tree_run (fun _ => tree <> None) _ _ s2
                (extends_tree_dissect_ipp_message (length (ds_nodes s2))
                   (fun _ => tree <> None) tvb pinfo r
                   (be_value (take 2 (drop 2 tvb))) ipp_tree t HQ1
                   (fun _ H => H)))
      as (extra & Hnodes & HQ & _).
    rewrite Hnodes, Hn2, <- app_assoc. eexists. split; [reflexivity|]. split.
    + intros ->. destruct extra as [|n extra]; [reflexivity|].
      apply Forall_cons in HQ as [Hne _]. contradiction.
    + intros parent -> _. eexists. reflexivity.
  - rewrite dissect_ipp_too_short by exact Hshort.
    exists []. cbn [fst]. rewrite app_nil_r. split; [reflexivity|].
    split; [reflexivity|]. intros parent _ Hlen. lia.
Qed.

Lemma link_item_run parent hf v s :
  (it ← proto_tree_add_node (Some parent) hf 0 0 v None;
   PROTO_ITEM_SET_GENERATED it) s
  = (set_nodes s
       (ds_nodes s
        ++ [{| pn_parent := parent; pn_hf := hf; pn_start := 0;
               pn_length := 0; pn_value := v; pn_ett := None;
               pn_generated := true |}]),
     Ok tt).
Proof.
  unfold proto_tree_add_node, PROTO_ITEM_SET_GENERATED, update_node, modify,
    mbind, M_bind.
  cbn [ds_nodes set_nodes]. rewrite alter_last. reflexivity.
Qed.

Lemma link_items_run parent hf1 v1 hf2 v2 s :
  (it ← proto_tree_add_node (Some parent) hf1 0 0 v1 None;
   _ ← PROTO_ITEM_SET_GENERATED it;
   it ← proto_tree_add_node (Some parent) hf2 0 0 v2 None;
   PROTO_ITEM_SET_GENERATED it) s
  = (set_nodes s
       (ds_nodes s
        ++ [{| pn_parent := parent; pn_hf := hf1; pn_start := 0;
               pn_length := 0; pn_value := v1; pn_ett := None;
               pn_generated := true |};
            {| pn_parent := parent; pn_hf := hf2; pn_start := 0;
               pn_length := 0; pn_value := v2; pn_ett := None;
               pn_generated := true |}]),
     Ok tt).
Proof.
  unfold proto_tree_add_node, PROTO_ITEM_SET_GENERATED, update_node, modify,
    mbind, M_bind.
  unfold set_nodes.
  cbn [ds_nodes ds_col_protocol ds_col_info ds_conv ds_data].
  rewrite alter_last.
  cbn [ds_nodes ds_col_protocol ds_col_info ds_conv ds_data].
  rewrite alter_last, <- app_assoc. reflexivity.
Qed.

(** X9. The items that link a request and its response.  A response whose
    transaction names a request frame gets, as the first two nodes of the
    message, a generated "response to" item with that frame number and a
    generated "response time" item with the time from the request to the
    response; a request whose transaction names a response frame gets a
    generated "response in" item with that frame number.  No other link item
    is added, and a message whose transaction does not name the frame of the
    other message gets no link item at all. *)
Theorem response_link_items tvb pinfo (is_request : bool) operation_status
  parent (t : ipp_transaction_t) s :
  let s' := fst (dissect_ipp_message tvb pinfo is_request operation_status
                   (Some parent) t s) in
  let link hf v := {| pn_parent := parent; pn_hf := hf; pn_start := 0;
                      pn_length := 0; pn_value := v; pn_ett := None;
                      pn_generated := true |} in
  (is_request = false -> req_frame t <> 0 ->
   exists extra,
     ds_nodes s'
     = ds_nodes s
       ++ [link hf_ipp_response_to (NvUint (req_frame t));
           link hf_ipp_response_time
             (NvTime (nstime_delta (pinfo_abs_ts pinfo) (req_time t)))]
       ++ extra
     /\ Forall (fun n => link_field (pn_hf n) = false) extra)
  /\ (is_request = true -> rep_frame t <> 0 ->
      exists extra,
        ds_nodes s'
        = ds_nodes s ++ [link hf_ipp_response_in (NvUint (rep_frame t))]
          ++ extra
        /\ Forall (fun n => link_field (pn_hf n) = false) extra)
  /\ ((if is_request then rep_frame t else req_frame t) = 0 ->
      exists extra,
        ds_nodes s' = ds_nodes s ++ extra
        /\ Forall (fun n => link_field (pn_hf n) = false) extra).
Proof.
  intros s' link.
  set (fake := {| req_frame := 0; rep_frame := 0; req_time := req_time t |}).
  assert (forall r s0,
             exists extra,
               ds_nodes (fst (dissect_ipp_message tvb pinfo r operation_status
                                (Some parent) fake s0))
               = ds_nodes s0 ++ extra
               /\ Forall (fun n => link_field (pn_hf n) = false) extra)
    as Hrest.
  { intros r s0.
    destruct (extends_tree_run (fun n => link_field (pn_hf n) = false) _ _ s0
                (extends_tree_dissect_ipp_message (length (ds_nodes s0))
                   (fun n => link_field (pn_hf n) = false) tvb pinfo r
                   operation_status (Some parent) fake
                   ltac:(intros n _ [H|H];
                         [exact H|destruct r; contradiction])
                   (fun _ H => H)))
      as (extra & Hn & HQ & _).
    eauto. }
  split; [|split].
  - intros -> Hne. subst s'.
    change (dissect_ipp_message tvb pinfo false operation_status (Some parent)
              t s)
      with (((if negb (req_frame t =? 0) then
               it ← proto_tree_add_node (Some parent) hf_ipp_response_to 0 0
                      (NvUint (req_frame t)) None;
               _ ← PROTO_ITEM_SET_GENERATED it;
               it ← proto_tree_add_node (Some parent) hf_ipp_response_time 0 0
                      (NvTime (nstime_delta (pinfo_abs_ts pinfo) (req_time t)))
                      None;
               PROTO_ITEM_SET_GENERATED it
             else mret tt)
            ≫= fun _ => dissect_ipp_message tvb pinfo false operation_status
                          (Some parent) fake) s).
    apply Z.eqb_neq in Hne. rewrite Hne. cbn [negb].
    rewrite (bind_Ok _ _ _ _ _ (link_items_run _ _ _ _ _ _)).
    destruct (Hrest false (set_nodes s
                             (ds_nodes s
                              ++ [link hf_ipp_response_to (NvUint (req_frame t));
                                  link hf_ipp_response_time
                                    (NvTime (nstime_delta (pinfo_abs_ts pinfo)
                                               (req_time t)))])))
      as (extra & Hn & HQ).
    exists extra. split; [|exact HQ].
    subst link. cbv beta in Hn |- *. rewrite Hn. cbn [ds_nodes set_nodes].
    rewrite <- app_assoc. reflexivity.
  - intros -> Hne. subst s'.
    change (dissect_ipp_message tvb pinfo true operation_status (Some parent)
              t s)
      with (((if negb (rep_frame t =? 0) then
               it ← proto_tree_add_node (Some parent) hf_ipp_response_in 0 0
                      (NvUint (rep_frame t)) None;
               PROTO_ITEM_SET_GENERATED it
             else mret tt)
            ≫= fun _ => dissect_ipp_message tvb pinfo true operation_status
                          (Some parent) fake) s).
    apply Z.eqb_neq in Hne. rewrite Hne. cbn [negb].
    rewrite (bind_Ok _ _ _ _ _ (link_item_run _ _ _ _)).
    destruct (Hrest true (set_nodes s
                            (ds_nodes s
                             ++ [link hf_ipp_response_in
                                   (NvUint (rep_frame t))])))
      as (extra & Hn & HQ).
    exists extra. split; [|exact HQ].
    subst link. cbv beta in Hn |- *. rewrite Hn. cbn [ds_nodes set_nodes].
    rewrite <- app_assoc. reflexivity.
  - intros Hzero. subst s'.
    destruct (extends_tree_run (fun n => link_field (pn_hf n) = false) _ _ s
                (extends_tree_dissect_ipp_message (length (ds_nodes s))
                   (fun n => link_field (pn_hf n) = false) tvb pinfo is_request
                   operation_status (Some parent) t
                   ltac:(intros n _ [H|H]; [exact H|contradiction])
                   (fun _ H => H)))
      as (extra & Hn & HQ & _).
    eauto.
Qed.

(** ** Records that are in the buffer as a whole *)

Lemma succeeds_ret {A : Type} (a : A) : succeeds (mret a : M A).
Proof. intros s. eexists _, _. reflexivity. Qed.

Lemma succeeds_lift {A : Type} (r : res A) :
  (exists a, r = Ok a) -> succeeds (lift r).
Proof. intros [a ->] s. eexists _, _. reflexivity. Qed.

Lemma succeeds_bind {A B : Type} (m : M A) (k : A -> M B) :
  succeeds m -> (forall a, succeeds (k a)) -> succeeds (m ≫= k).
Proof.
  intros Hm Hk s. destruct (Hm s) as (s1 & a & H1).
  destruct (Hk a s1) as (s2 & b & H2).
  exists s2, b. rewrite (bind_Ok _ _ _ _ _ H1). exact H2.
Qed.

Lemma succeeds_add_node tree hf start length v ett :
  succeeds (proto_tree_add_node tree hf start length v ett).
Proof. intros s. apply add_node_Ok. Qed.

Lemma succeeds_update_node it f : succeeds (update_node it f).
Proof. intros s. destruct it; eexists _, _; reflexivity. Qed.

Lemma ensure_contiguous_Ok tvb offset n :
  0 <= offset -> 0 <= n -> offset + n <= tvb_captured_length tvb ->
  exists bs, ensure_contiguous tvb offset n = Ok bs.
Proof. intros. rewrite ensure_contiguous_in_bounds by lia. eauto. Qed.

Lemma succeeds_add_item tree hf tvb start length :
  0 <= start -> 0 <= length -> start + length <= tvb_captured_length tvb ->
  succeeds (proto_tree_add_item tree hf tvb start length).
Proof.
  intros. unfold proto_tree_add_item.
  apply succeeds_bind; [apply succeeds_lift, ensure_contiguous_Ok; lia|].
  intros data. apply succeeds_add_node.
Qed.

(** Turn the boolean tests that a case analysis has recorded into
    (in)equalities. *)
Ltac bools :=
  repeat match goal with
         | H : negb _ = true |- _ => apply negb_true_iff in H
         | H : negb _ = false |- _ => apply negb_false_iff in H
         | H : (_ =? _) = true |- _ => apply Z.eqb_eq in H
         | H : (_ =? _) = false |- _ => apply Z.eqb_neq in H
         | H : (_ <=? _) = true |- _ => apply Z.leb_le in H
         | H : (_ <=? _) = false |- _ => apply Z.leb_gt in H
         end.

(** Decide every test of a computation on reads and perform the reads,
    which are all inside the buffer. *)
Ltac reads_in_bounds :=
  cbv beta zeta;
  repeat match goal with
         | |- context [if ?b then _ else _] => destruct b eqn:?
         end;
  bools;
  unfold tvb_format_text, tvb_bytes_to_str, tvb_get_ptr, tvb_get_guint8,
    tvb_get_ntohs, tvb_get_ntohl;
  rewrite ?ensure_contiguous_in_bounds by lia;
  cbn [mbind res_bind]; eauto.

Lemma integer_tree_label_Ok tvb offset name_length value_length tag :
  0 <= offset -> 0 <= name_length -> 0 <= value_length ->
  offset + 1 + 2 + name_length + 2 + value_length <= tvb_captured_length tvb ->
  exists label,
    integer_tree_label tvb offset name_length value_length tag = Ok label.
Proof.
  intros Ho Hnl Hvl Hb. unfold integer_tree_label. reads_in_bounds.
Qed.

Lemma octetstring_value_Ok tvb offset tag name_length value_length :
  0 <= offset -> 0 <= name_length -> 0 <= value_length ->
  offset + 1 + 2 + name_length + 2 + value_length <= tvb_captured_length tvb ->
  tag <> TAG_TEXTWITHLANGUAGE -> tag <> TAG_NAMEWITHLANGUAGE ->
  exists value,
    octetstring_value tvb offset tag name_length value_length = Ok value.
Proof.
  intros Ho Hnl Hvl Hb Ht Hn. unfold octetstring_value.
  apply Z.eqb_neq in Ht, Hn. rewrite Ht, Hn. cbn [orb]. reads_in_bounds.
Qed.

Lemma succeeds_add_value_head tag_desc tree tvb offset name_length
  value_length :
  0 <= offset -> 0 <= name_length ->
  offset + 1 + 2 + name_length <= tvb_captured_length tvb ->
  succeeds (add_value_head tag_desc tree tvb offset name_length value_length).
Proof.
  intros Ho Hnl Hb s.
  destruct (ensure_contiguous_Ok tvb (offset + 1 + 2) name_length)
    as [name Hname]; [lia..|].
  destruct (add_value_head_Ok tag_desc tree tvb offset name_length value_length
              name s Hname) as (s' & nv & H).
  eauto.
Qed.

Lemma succeeds_value_items tag_desc tree tvb offset name_length value_length
  tag :
  0 <= offset -> 0 <= name_length -> 0 <= value_length ->
  offset + 1 + 2 + name_length + 2 + value_length <= tvb_captured_length tvb ->
  succeeds (add_integer_value tag_desc tree tvb offset name_length
              value_length tag)
  /\ succeeds (add_octetstring_value tag_desc tree tvb offset name_length
                 value_length)
  /\ succeeds (add_charstring_value tag_desc tree tvb offset name_length
                 value_length).
Proof.
  intros Ho Hnl Hvl Hb.
  assert (forall hf,
             succeeds (proto_tree_add_item tree hf tvb
                         (offset + 1 + 2 + name_length + 2) value_length))
    as Hitem by (intros hf; apply succeeds_add_item; lia).
  assert (forall s, exists s' nv,
               add_value_head tag_desc tree tvb offset name_length value_length s
               = (s', Ok (offset + 1 + 2 + name_length + 2, nv))) as Hhead.
  { intros s.
    destruct (ensure_contiguous_Ok tvb (offset + 1 + 2) name_length)
      as [name Hname]; [lia..|].
    eapply add_value_head_Ok, Hname. }
  split; [|split]; intros s; destruct (Hhead s) as (s1 & nv & H1).
  - unfold add_integer_value. rewrite (bind_Ok _ _ _ _ _ H1). cbv beta iota.
    clear H1. revert s1.
    repeat match goal with
           | |- context [if ?b then _ else _] => destruct b
           end;
      try apply succeeds_ret;
      (refine (succeeds_bind _ _ _ _); [apply Hitem|]);
      intros; apply succeeds_ret.
  - unfold add_octetstring_value. rewrite (bind_Ok _ _ _ _ _ H1).
    cbv beta iota. clear H1. revert s1.
    refine (succeeds_bind _ _ _ _); [apply Hitem|].
    intros; apply succeeds_ret.
  - unfold add_charstring_value. rewrite (bind_Ok _ _ _ _ _ H1).
    cbv beta iota. clear H1. revert s1.
    refine (succeeds_bind _ _ _ _); [apply Hitem|].
    intros; apply succeeds_ret.
Qed.

(** A value record that is in the buffer as a whole and is no
    text-with-language or name-with-language value: the iteration completes
    and the parser stands at the byte after the record. *)
Lemma parse_attributes_body_complete tvb tree l s tag name_length
  value_length :
  0 <= pa_offset l ->
  tvb_get_guint8 tvb (pa_offset l) = Ok tag ->
  TAG_TYPE tag <> TAG_TYPE_DELIMITER ->
  tvb_get_ntohs tvb (pa_offset l + 1) = Ok name_length ->
  tvb_get_ntohs tvb (pa_offset l + 1 + 2 + name_length) = Ok value_length ->
  pa_offset l + 1 + 2 + name_length + 2 + value_length
  <= tvb_captured_length tvb ->
  tag <> TAG_TEXTWITHLANGUAGE -> tag <> TAG_NAMEWITHLANGUAGE ->
  exists s' l',
    parse_attributes_body tvb tree l s = (s', Ok (LoopContinue, l'))
    /\ pa_offset l' = pa_offset l + (1 + 2 + name_length + 2 + value_length)
    /\ pa_tas l' = pa_tas l
    /\ pa_start_offset l' = pa_start_offset l.
Proof.
  intros Ho Htag Hty Hnl Hvl Hb Htwl Hnwl.
  pose proof (tvb_get_ntohs_range _ _ _ Hnl) as Hnlr.
  pose proof (tvb_get_ntohs_range _ _ _ Hvl) as Hvlr.
  assert (forall t,
             succeeds (add_integer_tree t tvb (pa_offset l) name_length
                         value_length tag)
             /\ succeeds (add_octetstring_tree t tvb (pa_offset l) tag
                            name_length value_length)
             /\ succeeds (add_charstring_tree t tvb (pa_offset l) name_length
                            value_length)) as Htrees.
  { intros t.
    unfold add_integer_tree, add_octetstring_tree, add_charstring_tree,
      proto_tree_add_subtree, tvb_format_text, tvb_get_ptr.
    split; [|split].
    - apply succeeds_bind;
        [apply succeeds_lift, integer_tree_label_Ok; lia|].
      intros; apply succeeds_add_node.
    - apply succeeds_bind;
        [apply succeeds_lift, octetstring_value_Ok; (lia || assumption)|].
      intros value. apply succeeds_bind.
      + apply succeeds_lift.
        rewrite ensure_contiguous_in_bounds by lia. eauto.
      + intros; apply succeeds_add_node.
    - apply succeeds_bind.
      { apply succeeds_lift.
        rewrite ensure_contiguous_in_bounds by lia. eauto. }
      intros name. apply succeeds_bind.
      + apply succeeds_lift.
        rewrite ensure_contiguous_in_bounds by lia. eauto.
      + intros; apply succeeds_add_node. }
  assert (forall tag_desc t,
             succeeds (add_integer_value tag_desc t tvb (pa_offset l)
                         name_length value_length tag)
             /\ succeeds (add_octetstring_value tag_desc t tvb (pa_offset l)
                            name_length value_length)
             /\ succeeds (add_charstring_value tag_desc t tvb (pa_offset l)
                            name_length value_length)) as Hvalues.
  { intros tag_desc t. apply succeeds_value_items; lia. }
  unfold parse_attributes_body.
  rewrite (bind_lift_Ok _ _ _ _ Htag).
  apply Z.eqb_neq in Hty. rewrite Hty.
  rewrite (bind_lift_Ok _ _ _ _ Hnl), (bind_lift_Ok _ _ _ _ Hvl).
  cbv zeta.
  match goal with
  | |- context [(?m ≫= ?k) s] =>
      assert (succeeds m) as Hm
  end.
  { repeat match goal with
           | |- context [if ?b then _ else _] => destruct b
           end;
      try apply succeeds_ret;
      (apply succeeds_bind;
       [first [apply Htrees|apply succeeds_ret]|intros a]);
      (apply succeeds_bind; [apply Hvalues|intros; apply succeeds_ret]). }
  destruct (Hm s) as (s1 & a & H1).
  rewrite (bind_Ok _ _ _ _ _ H1).
  eexists _, _. split; [reflexivity|]. cbn. auto.
Qed.

(** The value string of an octet-string record with a name that is in the
    buffer as a whole: the only read that can fail is that of the text
    length of a text-with-language value. *)
Lemma octetstring_value_in_buffer tvb offset tag name_length value_length :
  0 <= offset -> 0 <= name_length -> 0 <= value_length ->
  offset + 1 + 2 + name_length + 2 + value_length <= tvb_captured_length tvb ->
  name_length <> 0 ->
  if language_overruns_buffer tvb offset tag name_length value_length then
    octetstring_value tvb offset tag name_length value_length
    = Throw BoundsError
  else
    exists value,
      octetstring_value tvb offset tag name_length value_length = Ok value.
Proof.
  intros Ho Hnl Hvl Hb Hne. unfold language_overruns_buffer.
  destruct ((tag =? TAG_TEXTWITHLANGUAGE) || (tag =? TAG_NAMEWITHLANGUAGE))
    eqn:Etwl.
  2:{ cbn [andb]. apply orb_false_iff in Etwl as [E1 E2].
      apply Z.eqb_neq in E1, E2. apply octetstring_value_Ok; assumption. }
  apply Z.eqb_neq in Hne. rewrite Hne. cbn [negb andb].
  assert ((tag =? TAG_OCTETSTRING) = false /\ (tag =? TAG_DATETIME) = false
          /\ (tag =? TAG_RESOLUTION) = false
          /\ (tag =? TAG_RANGEOFINTEGER) = false) as (T1 & T2 & T3 & T4).
  { apply orb_true_iff in Etwl as [E|E]; apply Z.eqb_eq in E; subst tag;
      repeat split; reflexivity. }
  unfold octetstring_value. cbv zeta. rewrite T1, T2, T3, T4, Etwl.
  set (vo := offset + 1 + 2 + name_length + 2).
  replace (vo + 0) with vo by lia.
  destruct (4 <=? value_length) eqn:E4; cbn [andb].
  2:{ cbn [mbind res_bind]. unfold tvb_bytes_to_str.
      rewrite ensure_contiguous_in_bounds by lia. cbn [mbind res_bind]. eauto. }
  apply Z.leb_le in E4.
  rewrite (tvb_get_ntohs_in_bounds tvb vo) by lia.
  set (ll := be_value _).
  assert (0 <= ll < 65536) as Hll.
  { apply (tvb_get_ntohs_range tvb vo).
    apply tvb_get_ntohs_in_bounds; lia. }
  cbn [mbind res_bind].
  rewrite (tvb_offset_exists_nonneg tvb (vo + 2 + ll)) by lia.
  destruct (vo + 2 + ll + 1 =? tvb_captured_length tvb) eqn:Elast.
  - apply Z.eqb_eq in Elast.
    destruct (vo + 2 + ll <? tvb_captured_length tvb) eqn:E5;
      [|apply Z.ltb_ge in E5; lia].
    rewrite tvb_get_ntohs_out_of_bounds by lia. reflexivity.
  - apply Z.eqb_neq in Elast.
    destruct (vo + 2 + ll <? tvb_captured_length tvb) eqn:E5.
    + apply Z.ltb_lt in E5.
      rewrite (tvb_get_ntohs_in_bounds tvb (vo + 2 + ll)) by lia.
      set (sl := be_value _).
      assert (0 <= sl < 65536) as Hsl.
      { apply (tvb_get_ntohs_range tvb (vo + 2 + ll)).
        apply tvb_get_ntohs_in_bounds; lia. }
      cbn [mbind res_bind].
      rewrite (tvb_offset_exists_nonneg tvb (vo + 2 + ll + 2 + sl)) by lia.
      destruct (vo + 2 + ll + 2 + sl <? tvb_captured_length tvb) eqn:E6.
      * apply Z.ltb_lt in E6. unfold tvb_format_text.
        rewrite !ensure_contiguous_in_bounds by lia.
        cbn [mbind res_bind]. eauto.
      * cbn [mbind res_bind]. unfold tvb_bytes_to_str.
        rewrite ensure_contiguous_in_bounds by lia.
        cbn [mbind res_bind]. eauto.
    + cbn [mbind res_bind]. unfold tvb_bytes_to_str.
      rewrite ensure_contiguous_in_bounds by lia.
      cbn [mbind res_bind]. eauto.
Qed.

(** A value record that is in the buffer as a whole, of any class: the
    iteration completes and the parser stands at the byte after the record,
    unless the rendering of a text-with-language value reads past the end of
    the buffer; then the iteration raises the bounds exception before it has
    added a node. *)
Lemma parse_attributes_body_in_buffer tvb tree l s tag name_length
  value_length :
  0 <= pa_offset l ->
  tvb_get_guint8 tvb (pa_offset l) = Ok tag ->
  TAG_TYPE tag <> TAG_TYPE_DELIMITER ->
  tvb_get_ntohs tvb (pa_offset l + 1) = Ok name_length ->
  tvb_get_ntohs tvb (pa_offset l + 1 + 2 + name_length) = Ok value_length ->
  pa_offset l + 1 + 2 + name_length + 2 + value_length
  <= tvb_captured_length tvb ->
  if language_overruns_buffer tvb (pa_offset l) tag name_length value_length
  then parse_attributes_body tvb tree l s = (s, Throw BoundsError)
  else
    exists s' l',
      parse_attributes_body tvb tree l s = (s', Ok (LoopContinue, l'))
      /\ pa_offset l' = pa_offset l + (1 + 2 + name_length + 2 + value_length).
Proof.
  intros Ho Htag Hty Hnl Hvl Hb.
  pose proof (tvb_get_ntohs_range _ _ _ Hnl) as Hnlr.
  pose proof (tvb_get_ntohs_range _ _ _ Hvl) as Hvlr.
  destruct ((tag =? TAG_TEXTWITHLANGUAGE) || (tag =? TAG_NAMEWITHLANGUAGE))
    eqn:Etwl.
  2:{ unfold language_overruns_buffer. rewrite Etwl. cbn [andb].
      apply orb_false_iff in Etwl as [E1 E2]. apply Z.eqb_neq in E1, E2.
      destruct (parse_attributes_body_complete tvb tree l s _ _ _ Ho Htag Hty
                  Hnl Hvl Hb E1 E2) as (s' & l' & Hbody & Ho' & _).
      eauto. }
  assert ((TAG_TYPE tag =? TAG_TYPE_INTEGER) = false
          /\ (TAG_TYPE tag =? TAG_TYPE_OCTETSTRING) = true) as [Ti To].
  { apply orb_true_iff in Etwl as [E|E]; apply Z.eqb_eq in E; subst tag;
      split; reflexivity. }
  unfold parse_attributes_body.
  rewrite (bind_lift_Ok _ _ _ _ Htag).
  apply Z.eqb_neq in Hty. rewrite Hty.
  rewrite (bind_lift_Ok _ _ _ _ Hnl), (bind_lift_Ok _ _ _ _ Hvl).
  cbv zeta. rewrite Ti, To.
  set (as_tree := match pa_as_tree l with
                  | None => pa_subtree l
                  | Some t => Some t
                  end).
  assert (forall tag_desc t s0, exists s1,
             add_octetstring_value tag_desc t tvb (pa_offset l) name_length
               value_length s0 = (s1, Ok tt)) as Hvalue.
  { intros tag_desc t s0.
    destruct (succeeds_value_items tag_desc t tvb (pa_offset l) name_length
                value_length tag Ho ltac:(lia) ltac:(lia) Hb)
      as (_ & Hov & _).
    destruct (Hov s0) as (s1 & [] & H1). eauto. }
  destruct (name_length =? 0) eqn:Ez; cbn [negb].
  - unfold language_overruns_buffer. rewrite Etwl, Ez. cbn [negb andb].
    destruct (Hvalue (val_to_str tag tag_vals fmt_reserved_tag)
                (match pa_as_tree l with
                 | Some _ => pa_attr_tree l
                 | None => as_tree
                 end) s) as [s1 H1].
    erewrite bind_Ok.
    2:{ erewrite bind_Ok by reflexivity.
        erewrite bind_Ok by exact H1. reflexivity. }
    eexists _, _. split; [reflexivity|]. reflexivity.
  - apply Z.eqb_neq in Ez.
    pose proof (octetstring_value_in_buffer tvb (pa_offset l) tag name_length
                  value_length Ho ltac:(lia) ltac:(lia) Hb Ez) as Hov.
    destruct (language_overruns_buffer tvb (pa_offset l) tag name_length
                value_length).
    + unfold add_octetstring_tree. rewrite Hov. reflexivity.
    + destruct Hov as [value Hov].
      unfold add_octetstring_tree at 1. rewrite Hov.
      unfold tvb_format_text.
      rewrite ensure_contiguous_in_bounds by lia.
      destruct (add_node_Ok as_tree hf_text_only (pa_offset l)
                  (1 + 2 + name_length + 2 + value_length)
                  (NvText (fmt_label
                             (format_text
                                (take (Z.to_nat name_length)
                                   (drop (Z.to_nat (pa_offset l + 1 + 2)) tvb)))
                             value))
                  (Some ett_ipp_attr) s) as (s1 & t1 & Hadd).
      destruct (Hvalue (val_to_str tag tag_vals fmt_reserved_tag) t1 s1)
        as [s2 H2].
      erewrite bind_Ok.
      2:{ erewrite bind_Ok.
          2:{ erewrite bind_lift_Ok by reflexivity.
              erewrite bind_lift_Ok by reflexivity.
              unfold proto_tree_add_subtree. exact Hadd. }
          erewrite bind_Ok by exact H2. reflexivity. }
      eexists _, _. split; [reflexivity|]. reflexivity.
Qed.

(** C4, as the code has it.  A value record that is in the buffer as a whole
    is stepped over: the iteration completes and the offset advances by
    exactly 1 + 2 + nameLen + 2 + valueLen, whatever the class of the tag and
    whether or not the value is well formed.  The one exception is the defect
    of the text-with-language rendering: a named TextWithLanguage or
    NameWithLanguage value of at least 4 bytes whose language length puts the
    text length on the last byte of the buffer raises the bounds exception.
    No iteration on a value record completes with any other offset.  A
    Boolean, Integer or Enum record in the buffer whose declared value length
    is not the size its tag requires advances by the declared lengths like
    any other record; when it carries a name it is rendered with the note
    "Invalid <kind> (length is <valueLen>, should be <size>)". *)
Theorem value_record_advances :
  (forall tvb tree l s tag name_length value_length,
      0 <= pa_offset l ->
      tvb_get_guint8 tvb (pa_offset l) = Ok tag ->
      TAG_TYPE tag <> TAG_TYPE_DELIMITER ->
      tvb_get_ntohs tvb (pa_offset l + 1) = Ok name_length ->
      tvb_get_ntohs tvb (pa_offset l + 1 + 2 + name_length) = Ok value_length ->
      pa_offset l + 1 + 2 + name_length + 2 + value_length
      <= tvb_captured_length tvb ->
      if language_overruns_buffer tvb (pa_offset l) tag name_length
           value_length
      then parse_attributes_body tvb tree l s = (s, Throw BoundsError)
      else
        exists s' l',
          parse_attributes_body tvb tree l s = (s', Ok (LoopContinue, l'))
          /\ pa_offset l'
             = pa_offset l + (1 + 2 + name_length + 2 + value_length))
  /\ (forall tvb tree l s s' ctl l' tag,
        parse_attributes_body tvb tree l s = (s', Ok (ctl, l')) ->
        tvb_get_guint8 tvb (pa_offset l) = Ok tag ->
        TAG_TYPE tag <> TAG_TYPE_DELIMITER ->
        exists name_length value_length,
          tvb_get_ntohs tvb (pa_offset l + 1) = Ok name_length /\
          tvb_get_ntohs tvb (pa_offset l + 1 + 2 + name_length)
          = Ok value_length /\
          pa_offset l' = pa_offset l + (1 + 2 + name_length + 2 + value_length) /\
          ctl = LoopContinue)
  /\ (forall tvb tree l s tag name_length value_length,
        0 <= pa_offset l ->
        tvb_get_guint8 tvb (pa_offset l) = Ok tag ->
        tag = TAG_BOOLEAN \/ tag = TAG_INTEGER \/ tag = TAG_ENUM ->
        tvb_get_ntohs tvb (pa_offset l + 1) = Ok name_length ->
        tvb_get_ntohs tvb (pa_offset l + 1 + 2 + name_length) = Ok value_length ->
        pa_offset l + 1 + 2 + name_length + 2 + value_length
        <= tvb_captured_length tvb ->
        value_length <> fixed_size tag ->
        exists s' l' name,
          tvb_get_ptr tvb (pa_offset l + 1 + 2) name_length = Ok name
          /\ parse_attributes_body tvb tree l s = (s', Ok (LoopContinue, l'))
          /\ pa_offset l'
             = pa_offset l + (1 + 2 + name_length + 2 + value_length)
          /\ (name_length <> 0 ->
              integer_tree_label tvb (pa_offset l) name_length value_length tag
              = Ok (fmt_label (format_text name)
                      (invalid_note tag value_length))
              /\ forall parent,
                   match pa_as_tree l with
                   | None => pa_subtree l
                   | Some t => Some t
                   end = Some parent ->
                   In {| pn_parent := parent; pn_hf := hf_text_only;
                         pn_start := pa_offset l;
                         pn_length := 1 + 2 + name_length + 2 + value_length;
                         pn_value :=
                           NvText (fmt_label (format_text name)
                                     (invalid_note tag value_length));
                         pn_ett := Some ett_ipp_attr;
                         pn_generated := false |}
                      (ds_nodes s'))).
Proof.
  split; [|split].
  - intros. apply parse_attributes_body_in_buffer; assumption.
  - intros tvb tree l s s' ctl l' tag Hb Htag Hty.
    apply parse_attributes_body_offset in Hb as (tag' & Htag' & Hb).
    rewrite Htag in Htag'. injection Htag' as <-.
    destruct (TAG_TYPE tag =? TAG_TYPE_DELIMITER) eqn:E;
      [apply Z.eqb_eq in E; contradiction|exact Hb].
  - intros tvb tree l s tag name_length value_length Ho Htag Hfam Hnl Hvl _
      Hlen.
    eapply parse_attributes_body_wrong_length; eassumption.
Qed.

(** ** Items laid out in the buffer *)

Lemma byte_to_Z_of_Z (z : Z) : byte_to_Z (byte_of_Z z) = z mod 256.
Proof.
  unfold byte_of_Z, byte_to_Z.
  pose proof (Z.mod_pos_bound z 256 ltac:(lia)) as Hr.
  destruct (Byte.of_N (Z.to_N (z mod 256))) as [b|] eqn:E.
  - apply Byte.to_of_N in E. rewrite E. lia.
  - apply Byte.of_N_None_iff in E. lia.
Qed.

Lemma be_value_1 (a : byte) : be_value [a] = byte_to_Z a.
Proof.
  change (be_value [a]) with (Z.lor (Z.shiftl 0 8) (byte_to_Z a)).
  rewrite be_step by apply byte_to_Z_range. lia.
Qed.

Lemma be_value_2 (a b : byte) :
  be_value [a; b] = byte_to_Z a * 256 + byte_to_Z b.
Proof.
  change [a; b] with ([a] ++ [b]). rewrite be_value_snoc, be_value_1.
  reflexivity.
Qed.

(** A 16-bit length is read back from its two bytes. *)
Lemma be_value_be16 (n : Z) : 0 <= n < 65536 -> be_value (be16 n) = n.
Proof.
  intros Hn. unfold be16. rewrite be_value_2, !byte_to_Z_of_Z.
  rewrite (Z.mod_small (n / 256))
    by (split; [apply Z.div_pos; lia|apply Z.div_lt_upper_bound; lia]).
  pose proof (Z.div_mod n 256 ltac:(lia)). lia.
Qed.

Lemma length_encode_item (i : ipp_item) :
  length (encode_item i)
  = match i with
    | ItemDelimiter _ => 1%nat
    | ItemValue _ name value => (5 + length name + length value)%nat
    end.
Proof.
  destruct i as [tag|tag name value]; [reflexivity|].
  cbn [encode_item length]. rewrite !length_app. cbn [be16 length]. lia.
Qed.

Lemma read_item_tag (pre tail : list byte) (tag : byte) :
  tvb_get_guint8 (pre ++ tag :: tail) (Z.of_nat (length pre))
  = Ok (byte_to_Z tag).
Proof.
  unfold tvb_get_guint8.
  change (pre ++ tag :: tail) with (pre ++ [tag] ++ tail).
  rewrite (ensure_contiguous_inside pre [tag] tail _ 0 1) by (cbn; lia).
  reflexivity.
Qed.

Lemma read_item_lengths (pre name value rest : list byte) (tag : byte) :
  Z.of_nat (length name) < 65536 -> Z.of_nat (length value) < 65536 ->
  let tvb := pre ++ encode_item (ItemValue tag name value) ++ rest in
  tvb_get_ntohs tvb (Z.of_nat (length pre) + 1) = Ok (Z.of_nat (length name))
  /\ tvb_get_ntohs tvb (Z.of_nat (length pre) + 1 + 2 + Z.of_nat (length name))
     = Ok (Z.of_nat (length value))
  /\ Z.of_nat (length pre) + 1 + 2 + Z.of_nat (length name) + 2
     + Z.of_nat (length value) <= tvb_captured_length tvb.
Proof.
  intros Hn Hv tvb. subst tvb. cbn [encode_item]. split; [|split].
  - unfold tvb_get_ntohs.
    replace (pre ++ (tag :: be16 (Z.of_nat (length name)) ++ name
                       ++ be16 (Z.of_nat (length value)) ++ value) ++ rest)
      with ((pre ++ [tag]) ++ be16 (Z.of_nat (length name))
              ++ (name ++ be16 (Z.of_nat (length value)) ++ value ++ rest))
      by (cbn [app]; rewrite <- !app_assoc; reflexivity).
    rewrite (ensure_contiguous_inside _ _ _ _ 0 2)
      by (rewrite ?length_app; cbn; lia).
    cbn [mbind res_bind]. f_equal.
    change (take (Z.to_nat 2) (drop (Z.to_nat 0) (be16 ?n))) with (be16 n).
    apply be_value_be16. lia.
  - unfold tvb_get_ntohs.
    replace (pre ++ (tag :: be16 (Z.of_nat (length name)) ++ name
                       ++ be16 (Z.of_nat (length value)) ++ value) ++ rest)
      with ((pre ++ [tag] ++ be16 (Z.of_nat (length name)) ++ name)
              ++ be16 (Z.of_nat (length value)) ++ (value ++ rest))
      by (cbn [app]; rewrite <- !app_assoc; reflexivity).
    rewrite (ensure_contiguous_inside _ _ _ _ 0 2)
      by (rewrite ?length_app; cbn; lia).
    cbn [mbind res_bind]. f_equal.
    change (take (Z.to_nat 2) (drop (Z.to_nat 0) (be16 ?n))) with (be16 n).
    apply be_value_be16. lia.
  - unfold tvb_captured_length. rewrite !length_app.
    pose proof (length_encode_item (ItemValue tag name value)) as Hlen.
    cbn [encode_item] in Hlen. rewrite Hlen. lia.
Qed.

(** The iteration on a delimiter tag: the item of the group that ends here
    gets its length, and the item of the new group is added. *)
Lemma parse_attributes_body_delimiter tvb tree l s tag :
  tvb_get_guint8 tvb (pa_offset l) = Ok tag ->
  TAG_TYPE tag = TAG_TYPE_DELIMITER ->
  exists s0 s' sub,
    proto_item_set_len (pa_tas l) (pa_offset l - pa_start_offset l) s
    = (s0, Ok tt)
    /\ proto_tree_add_subtree tree (pa_offset l) 1 ett_ipp_as
         (val_to_str tag tag_vals fmt_reserved_tag) s0
       = (s', Ok sub)
    /\ parse_attributes_body tvb tree l s
       = (s', Ok (if tag =? TAG_END_OF_ATTRIBUTES then LoopBreak
                  else LoopContinue,
                  {| pa_offset := pa_offset l + 1; pa_as_tree := None;
                     pa_tas := sub; pa_start_offset := pa_offset l;
                     pa_attr_tree := tree; pa_subtree := sub |})).
Proof.
  intros Htag Hty. unfold parse_attributes_body.
  rewrite (bind_lift_Ok _ _ _ _ Htag). rewrite Hty. cbn [Z.eqb].
  change (TAG_TYPE_DELIMITER =? TAG_TYPE_DELIMITER) with true. cbv iota.
  destruct (succeeds_update_node (pa_tas l)
              (fun n =>
                 {| pn_parent := pn_parent n; pn_hf := pn_hf n;
                    pn_start := pn_start n;
                    pn_length := pa_offset l - pa_start_offset l;
                    pn_value := pn_value n; pn_ett := pn_ett n;
                    pn_generated := pn_generated n |}) s)
    as (s0 & [] & H0).
  fold (proto_item_set_len (pa_tas l) (pa_offset l - pa_start_offset l)) in H0.
  destruct (add_node_Ok tree hf_text_only (pa_offset l) 1
              (NvText (val_to_str tag tag_vals fmt_reserved_tag))
              (Some ett_ipp_as) s0) as (s' & sub & Hsub).
  fold (proto_tree_add_subtree tree (pa_offset l) 1 ett_ipp_as
          (val_to_str tag tag_vals fmt_reserved_tag)) in Hsub.
  exists s0, s', sub. split; [exact H0|]. split; [exact Hsub|].
  erewrite bind_Ok.
  2:{ destruct (pa_tas l) as [i|] eqn:E; [exact H0|].
      unfold proto_item_set_len, update_node in H0. exact H0. }
  rewrite (bind_Ok _ _ _ _ _ Hsub).
  destruct (tag =? TAG_END_OF_ATTRIBUTES); reflexivity.
Qed.

(** The iteration on a value tag only adds nodes, whatever the record. *)
Lemma parse_attributes_body_value_appends tvb tree l s tag :
  tvb_get_guint8 tvb (pa_offset l) = Ok tag ->
  TAG_TYPE tag <> TAG_TYPE_DELIMITER ->
  exists extra,
    ds_nodes (fst (parse_attributes_body tvb tree l s)) = ds_nodes s ++ extra.
Proof.
  intros Htag Hty. unfold parse_attributes_body.
  rewrite (bind_lift_Ok _ _ _ _ Htag).
  apply Z.eqb_neq in Hty. rewrite Hty. revert s.
  refine (_ : appends_nodes _).
  unfold add_integer_tree, add_integer_value, add_octetstring_tree,
    add_octetstring_value, add_charstring_tree, add_charstring_value,
    proto_tree_add_subtree.
  appends.
Qed.

Lemma plain_item_tag_type tag name value :
  plain_item (ItemValue tag name value) = true ->
  TAG_TYPE (byte_to_Z tag) <> TAG_TYPE_DELIMITER
  /\ Z.of_nat (length name) < 65536
  /\ Z.of_nat (length value) < 65536
  /\ byte_to_Z tag <> TAG_TEXTWITHLANGUAGE
  /\ byte_to_Z tag <> TAG_NAMEWITHLANGUAGE.
Proof.
  unfold plain_item, value_record. rewrite !andb_true_iff, !negb_true_iff.
  intros [[[[Hd Hn] Hv] Ht] Hl].
  apply Z.eqb_neq in Hd, Ht, Hl. apply Z.ltb_lt in Hn, Hv. auto.
Qed.

(** The loop on a buffer that holds, at the offset of the parser, a sequence
    of plain items: the loop steps over the items one by one and then goes
    on at the byte after them.  While it steps over value records only, the
    item of the current group and the start of the group stay, and nodes are
    only added. *)
Lemma parse_attributes_loop_items items :
  forall pre rest tvb fuel tree l s,
    forallb plain_item items = true ->
    tvb = pre ++ encode_items items ++ rest ->
    pa_offset l = Z.of_nat (length pre) ->
    (Z.to_nat (tvb_captured_length tvb - pa_offset l) < fuel)%nat ->
    exists fuel1 l1 s1,
      parse_attributes_loop fuel tvb tree l s
      = parse_attributes_loop fuel1 tvb tree l1 s1
      /\ pa_offset l1
         = Z.of_nat (length pre) + Z.of_nat (length (encode_items items))
      /\ (Z.to_nat (tvb_captured_length tvb - pa_offset l1) < fuel1)%nat
      /\ (forallb is_value_item items = true ->
          pa_tas l1 = pa_tas l
          /\ pa_start_offset l1 = pa_start_offset l
          /\ exists extra, ds_nodes s1 = ds_nodes s ++ extra).
Proof.
  induction items as [|i items IH];
    intros pre rest tvb fuel tree l s Hplain Htvb Ho Hfuel.
  - exists fuel, l, s. split; [reflexivity|]. split; [cbn; lia|].
    split; [exact Hfuel|]. intros _. split; [reflexivity|].
    split; [reflexivity|]. exists []. rewrite app_nil_r. reflexivity.
  - cbn [forallb] in Hplain. apply andb_true_iff in Hplain as [Hi Hplain].
    cbn [encode_items flat_map] in Htvb. fold (encode_items items) in Htvb.
    assert (Htvb' : tvb = (pre ++ encode_item i) ++ encode_items items ++ rest)
      by (rewrite Htvb, <- !app_assoc; reflexivity).
    pose proof (length_encode_item i) as Hleni.
    assert (Hcap : tvb_captured_length tvb
                   = Z.of_nat (length pre) + Z.of_nat (length (encode_item i))
                     + Z.of_nat (length (encode_items items))
                     + Z.of_nat (length rest)).
    { unfold tvb_captured_length. rewrite Htvb', !length_app. lia. }
    destruct fuel as [|fuel]; [lia|].
    cbn [parse_attributes_loop].
    assert (tvb_offset_exists tvb (pa_offset l) = true) as Hex.
    { rewrite tvb_offset_exists_nonneg by lia. apply Z.ltb_lt.
      destruct i; lia. }
    rewrite Hex.
    assert (exists s' l',
               parse_attributes_body tvb tree l s = (s', Ok (LoopContinue, l'))
               /\ pa_offset l'
                  = Z.of_nat (length (pre ++ encode_item i))
               /\ (is_value_item i = true ->
                   pa_tas l' = pa_tas l
                   /\ pa_start_offset l' = pa_start_offset l
                   /\ exists extra, ds_nodes s' = ds_nodes s ++ extra))
      as (s' & l' & Hbody & Ho' & Hval).
    { destruct i as [tag|tag name value].
      - cbn [plain_item] in Hi. apply andb_true_iff in Hi as [Hd He].
        apply Z.eqb_eq in Hd. apply negb_true_iff in He.
        assert (tvb_get_guint8 tvb (pa_offset l) = Ok (byte_to_Z tag)) as Htag.
        { rewrite Htvb, Ho. cbn [encode_item app]. apply read_item_tag. }
        destruct (parse_attributes_body_delimiter tvb tree l s _ Htag Hd)
          as (s0 & s' & sub & _ & _ & Hbody).
        rewrite He in Hbody. eexists _, _. split; [exact Hbody|].
        split; [cbn [pa_offset]; rewrite length_app; cbn; lia|].
        intros [=].
      - apply plain_item_tag_type in Hi as (Hd & Hn & Hv & Ht & Hl).
        assert (tvb_get_guint8 tvb (pa_offset l) = Ok (byte_to_Z tag)) as Htag.
        { rewrite Htvb, Ho. cbn [encode_item app]. apply read_item_tag. }
        destruct (read_item_lengths pre name value
                    (encode_items items ++ rest) tag Hn Hv)
          as (Hnl & Hvl & Hb).
        assert (Htvb2 : tvb = pre ++ encode_item (ItemValue tag name value)
                                  ++ encode_items items ++ rest)
          by (rewrite Htvb, <- app_assoc; reflexivity).
        rewrite <- Htvb2, <- Ho in Hnl, Hvl, Hb.
        destruct (parse_attributes_body_complete tvb tree l s _ _ _
                    ltac:(lia) Htag Hd Hnl Hvl Hb Ht Hl)
          as (s' & l' & Hbody & Ho' & Htas & Hstart).
        exists s', l'. split; [exact Hbody|].
        split; [rewrite Ho', length_app, Hleni; lia|].
        intros _. split; [exact Htas|]. split; [exact Hstart|].
        destruct (parse_attributes_body_value_appends tvb tree l s _ Htag Hd)
          as [extra Hextra].
        rewrite Hbody in Hextra. eauto. }
    rewrite (bind_Ok _ _ _ _ _ Hbody). cbv beta iota.
    destruct (IH (pre ++ encode_item i) rest tvb fuel tree l' s' Hplain Htvb'
                Ho') as (fuel1 & l1 & s1 & Hrun & Ho1 & Hfuel1 & Hval1).
    { rewrite Ho', length_app. rewrite Ho in Hfuel. destruct i; lia. }
    exists fuel1, l1, s1. split; [exact Hrun|].
    split.
    { rewrite Ho1. cbn [encode_items flat_map].
      fold (encode_items items). rewrite !length_app. lia. }
    split; [exact Hfuel1|].
    cbn [forallb]. intros Hv. apply andb_true_iff in Hv as [Hvi Hvs].
    destruct (Hval Hvi) as (Ht & Hst & extra & Hextra).
    destruct (Hval1 Hvs) as (Ht1 & Hst1 & extra1 & Hextra1).
    split; [congruence|]. split; [congruence|].
    exists (extra ++ extra1). rewrite Hextra1, Hextra, app_assoc. reflexivity.
Qed.

Lemma parse_attributes_fuel_enough tvb offset tree :
  (Z.to_nat (tvb_captured_length tvb
             - pa_offset (parse_attributes_init offset tree))
   < parse_attributes_fuel tvb offset)%nat.
Proof. unfold parse_attributes_fuel. cbn [pa_offset parse_attributes_init]. lia. Qed.

(** Plain items up to the end-of-attributes tag: the parser returns at the
    byte after that tag. *)
Lemma parse_attributes_items_end pre items rest tree s :
  forallb plain_item items = true ->
  exists s',
    parse_attributes (pre ++ encode_items items ++ x03 :: rest)
      (Z.of_nat (length pre)) tree s
    = (s', Ok (Z.of_nat (length pre) + Z.of_nat (length (encode_items items))
               + 1)).
Proof.
  intros Hplain. set (tvb := pre ++ encode_items items ++ x03 :: rest).
  unfold parse_attributes.
  destruct (parse_attributes_loop_items items pre (x03 :: rest) tvb
              (parse_attributes_fuel tvb (Z.of_nat (length pre))) tree
              (parse_attributes_init (Z.of_nat (length pre)) tree) s Hplain
              eq_refl eq_refl (parse_attributes_fuel_enough _ _ _))
    as (fuel1 & l1 & s1 & Hrun & Ho1 & Hfuel1 & _).
  rewrite Hrun. destruct fuel1 as [|fuel1]; [lia|].
  cbn [parse_attributes_loop].
  assert (tvb_get_guint8 tvb (pa_offset l1) = Ok TAG_END_OF_ATTRIBUTES) as Htag.
  { subst tvb. rewrite Ho1, <- Nat2Z.inj_add, <- length_app, app_assoc.
    apply read_item_tag. }
  rewrite (tvb_get_guint8_exists tvb (pa_offset l1) _ ltac:(lia) Htag).
  destruct (parse_attributes_body_delimiter tvb tree l1 s1 _ Htag eq_refl)
    as (s0 & s' & sub & _ & _ & Hbody).
  rewrite (bind_Ok _ _ _ _ _ Hbody).
  change (TAG_END_OF_ATTRIBUTES =? TAG_END_OF_ATTRIBUTES) with true.
  cbv beta iota. exists s'. cbn [pa_offset]. rewrite Ho1. reflexivity.
Qed.

(** X10. An attribute section made of plain items (delimiter tags other
    than end-of-attributes, and value records of any class but
    text-with-language and name-with-language, whatever their names and
    values) is parsed without an exception.  When the end-of-attributes tag
    follows the items, the parser returns the offset of the byte after that
    tag, whatever bytes follow; when the buffer ends with the items, it
    returns the length of the buffer. *)
Theorem parse_attributes_plain_items pre items rest tree s :
  forallb plain_item items = true ->
  snd (parse_attributes (pre ++ encode_items items ++ x03 :: rest)
         (Z.of_nat (length pre)) tree s)
  = Ok (Z.of_nat (length pre) + Z.of_nat (length (encode_items items)) + 1)
  /\ snd (parse_attributes (pre ++ encode_items items)
            (Z.of_nat (length pre)) tree s)
     = Ok (Z.of_nat (length (pre ++ encode_items items))).
Proof.
  intros Hplain. split.
  - destruct (parse_attributes_items_end pre items rest tree s Hplain)
      as [s' Hrun].
    rewrite Hrun. reflexivity.
  - set (tvb := pre ++ encode_items items).
    unfold parse_attributes.
    destruct (parse_attributes_loop_items items pre [] tvb
                (parse_attributes_fuel tvb (Z.of_nat (length pre))) tree
                (parse_attributes_init (Z.of_nat (length pre)) tree) s Hplain
                ltac:(subst tvb; rewrite app_nil_r; reflexivity) eq_refl
                (parse_attributes_fuel_enough _ _ _))
      as (fuel1 & l1 & s1 & Hrun & Ho1 & Hfuel1 & _).
    rewrite Hrun. destruct fuel1 as [|fuel1]; [lia|].
    cbn [parse_attributes_loop].
    rewrite tvb_offset_exists_nonneg by lia.
    assert (pa_offset l1 = tvb_captured_length tvb) as Hend.
    { unfold tvb_captured_length. subst tvb. rewrite length_app. lia. }
    rewrite Hend, Z.ltb_irrefl. reflexivity.
Qed.

(** ** A message that is in the buffer as a whole *)

Lemma bind_succeeds {A B : Type} (m : M A) (k : A -> M B) (s : dstate) :
  succeeds m -> exists a, (m ≫= k) s = k a (fst (m s)).
Proof.
  intros H. destruct (H s) as (s1 & a & E). exists a.
  rewrite (bind_Ok _ _ _ _ _ E), E. reflexivity.
Qed.

Lemma ensure_contiguous_tail (pre payload : list byte) :
  ensure_contiguous (pre ++ payload) (Z.of_nat (length pre)) (-1) = Ok payload.
Proof.
  unfold ensure_contiguous. rewrite compute_offset_nonneg by lia.
  unfold tvb_captured_length. rewrite length_app.
  destruct (Z.of_nat (length pre) <=? Z.of_nat (length pre + length payload))
    eqn:E; [|apply Z.leb_gt in E; lia].
  cbn [mbind res_bind].
  change (-1 <? -1) with false. change (-1 =? -1) with true. cbv iota.
  destruct (Z.of_nat (length pre)
            + (Z.of_nat (length pre + length payload) - Z.of_nat (length pre))
            <=? Z.of_nat (length pre + length payload)) eqn:E2;
    [|apply Z.leb_gt in E2; lia].
  rewrite Nat2Z.id, drop_app_length, take_ge by lia. reflexivity.
Qed.

Lemma succeeds_link_items pinfo (is_request : bool) ipp_tree
  (t : ipp_transaction_t) :
  succeeds
    (if is_request then
       if negb (rep_frame t =? 0) then
         it ← proto_tree_add_uint ipp_tree hf_ipp_response_in 0 0 (rep_frame t);
         PROTO_ITEM_SET_GENERATED it
       else mret tt
     else
       if negb (req_frame t =? 0) then
         it ← proto_tree_add_uint ipp_tree hf_ipp_response_to 0 0 (req_frame t);
         _ ← PROTO_ITEM_SET_GENERATED it;
         it ← proto_tree_add_time ipp_tree hf_ipp_response_time 0 0
                (nstime_delta (pinfo_abs_ts pinfo) (req_time t));
         PROTO_ITEM_SET_GENERATED it
       else mret tt).
Proof.
  unfold proto_tree_add_uint, proto_tree_add_time, PROTO_ITEM_SET_GENERATED.
  destruct is_request; [destruct (negb (rep_frame t =? 0))
                       |destruct (negb (req_frame t =? 0))];
    repeat first [apply succeeds_ret | apply succeeds_add_node
                 | apply succeeds_update_node
                 | apply succeeds_bind; [|intro]].
Qed.

(** One step of running [dissect_ipp_message]: the computation in front
    returns normally and leaves the payload list alone. *)
Ltac message_step sX sY Hd succ_tac :=
  match goal with
  | |- context [(?m ≫= ?k) sX] =>
      let Hstep := fresh "Hstep" in
      let Hkeep := fresh "Hkeep" in
      destruct (bind_succeeds m k sX ltac:(succ_tac)) as [? Hstep];
      assert (keeps_field ds_data m) as Hkeep
        by (unfold proto_tree_add_uint, proto_tree_add_time,
              proto_tree_add_uint_format_value, proto_tree_add_item,
              PROTO_ITEM_SET_GENERATED;
            frame (fun s ns => eq_refl : ds_data (set_nodes s ns) = ds_data s));
      pose proof (Hkeep sX) as Hd; clear Hkeep;
      set (sY := fst (m sX)) in *;
      rewrite Hstep; clear Hstep
  end.

(** X11. A message that is in the buffer as a whole: the eight bytes of the
    fixed header, plain items, and the end-of-attributes tag.  Its dissection
    returns normally with the length of the buffer.  The bytes that follow
    the end-of-attributes tag are handed, unchanged and as a whole, to the
    data dissector under the protocol item; when no byte follows the tag,
    the data dissector is not called. *)
Theorem dissect_ipp_complete_message hdr items payload pinfo tree data s :
  length hdr = 8%nat ->
  forallb plain_item items = true ->
  let tvb := hdr ++ encode_items items ++ x03 :: payload in
  let r := dissect_ipp tvb pinfo tree data s in
  snd r = Ok (Z.of_nat (length tvb))
  /\ ds_data (fst r)
     = ds_data s
       ++ match payload with
          | [] => []
          | _ :: _ =>
              [(payload,
                match tree with
                | Some _ => Some (length (ds_nodes s))
                | None => None
                end)]
          end.
Proof.
  intros Hhdr Hplain tvb r. subst r.
  assert (8 <= length tvb)%nat as Hlen
    by (subst tvb; rewrite length_app; lia).
  assert (9 <= tvb_captured_length tvb) as Hcap.
  { unfold tvb_captured_length. subst tvb. rewrite !length_app.
    cbn [length]. lia. }
  destruct (dissect_ipp_header_readable tvb Hlen) as [Hop Hid].
  destruct (dissect_ipp_run tvb pinfo tree data s _ _ Hop Hid)
    as (s2 & Hrun & _ & Hd2 & _).
  rewrite Hrun. clear Hrun.
  set (is_request := ipp_is_request pinfo data).
  set (t := transaction_of pinfo _ _).
  set (ipp_tree := match tree with
                   | Some _ => Some (length (ds_nodes s))
                   | None => None
                   end).
  set (op := be_value (take 2 (drop 2 tvb))).
  pose proof (fun s ns => eq_refl : ds_data (set_nodes s ns) = ds_data s)
    as Hblind.
  unfold dissect_ipp_message. cbv zeta.
  message_step s2 s3 Hd3 ltac:(apply succeeds_link_items).
  message_step s3 s4 Hd4 ltac:(apply succeeds_add_item; lia).
  message_step s4 s5 Hd5
    ltac:(destruct is_request;
          [apply succeeds_add_item; lia
          |unfold proto_tree_add_uint_format_value; apply succeeds_add_node]).
  message_step s5 s6 Hd6 ltac:(apply succeeds_add_item; lia).
  replace (0 + 2 + 2 + 4) with (Z.of_nat (length hdr)) by lia.
  destruct (parse_attributes_items_end hdr items payload ipp_tree s6 Hplain)
    as [s7 Hparse].
  fold tvb in Hparse.
  pose proof (keeps_field_run ds_data _ _ _ _
                (keeps_field_parse_attributes ds_data
                   (fun s ns => eq_refl) tvb _ ipp_tree) Hparse) as Hd7.
  rewrite (bind_Ok _ _ _ _ _ Hparse).
  assert (ds_data s7 = ds_data s) as Hdata
    by (rewrite Hd7, Hd6, Hd5, Hd4, Hd3; exact Hd2).
  set (o := Z.of_nat (length hdr) + Z.of_nat (length (encode_items items)) + 1).
  assert (tvb = (hdr ++ encode_items items ++ [x03]) ++ payload) as Htvb
    by (subst tvb; rewrite <- !app_assoc; reflexivity).
  assert (o = Z.of_nat (length (hdr ++ encode_items items ++ [x03]))) as Ho
    by (subst o; rewrite !length_app; cbn [length]; lia).
  assert (tvb_captured_length tvb = o + Z.of_nat (length payload)) as Hcap'.
  { unfold tvb_captured_length. rewrite Htvb, length_app. lia. }
  rewrite tvb_offset_exists_nonneg by lia.
  unfold tvb_captured_length at 2. fold (tvb_captured_length tvb).
  destruct payload as [|b payload].
  - destruct (o <? tvb_captured_length tvb) eqn:E;
      [apply Z.ltb_lt in E; cbn [length] in Hcap'; lia|].
    cbn [mbind M_bind mret M_ret fst snd].
    rewrite app_nil_r. split; [reflexivity|exact Hdata].
  - destruct (o <? tvb_captured_length tvb) eqn:E;
      [|apply Z.ltb_ge in E; cbn [length] in Hcap'; lia].
    assert (ensure_contiguous tvb o (-1) = Ok (b :: payload)) as Hread
      by (rewrite Htvb, Ho; apply ensure_contiguous_tail).
    unfold call_data_dissector. rewrite !Hread.
    unfold mbind, M_bind, lift, modify, mret, M_ret. cbn [fst snd ds_data].
    split; [reflexivity|rewrite Hdata; reflexivity].
Qed.

(** ** What the dissection of a message consists of *)

Lemma set_nodes_same s : set_nodes s (ds_nodes s ++ []) = s.
Proof. destruct s. unfold set_nodes. cbn. rewrite app_nil_r. reflexivity. Qed.

Lemma add_item_run parent hf tvb start length s :
  0 <= start -> 0 <= length -> start + length <= tvb_captured_length tvb ->
  proto_tree_add_item (Some parent) hf tvb start length s
  = (set_nodes s
       (ds_nodes s
        ++ [value_item parent hf start length
              (NvItem (take (Z.to_nat length) (drop (Z.to_nat start) tvb)))]),
     Ok (Some (List.length (ds_nodes s)))).
Proof.
  intros Hs Hl Hb. unfold proto_tree_add_item.
  rewrite (bind_lift_Ok _ _ _ _
             (ensure_contiguous_in_bounds tvb start length Hs Hl Hb)).
  reflexivity.
Qed.

Lemma add_item_null hf tvb start length s :
  0 <= start -> 0 <= length -> start + length <= tvb_captured_length tvb ->
  proto_tree_add_item None hf tvb start length s = (s, Ok None).
Proof.
  intros Hs Hl Hb. unfold proto_tree_add_item.
  rewrite (bind_lift_Ok _ _ _ _
             (ensure_contiguous_in_bounds tvb start length Hs Hl Hb)).
  reflexivity.
Qed.

(** Lines 484 to 508: the link items of the transaction. *)
Lemma link_items_added ipp pinfo (is_request : bool) (t : ipp_transaction_t) s :
  (if is_request then
     if negb (rep_frame t =? 0) then
       it ← proto_tree_add_uint (Some ipp) hf_ipp_response_in 0 0 (rep_frame t);
       PROTO_ITEM_SET_GENERATED it
     else mret tt
   else
     if negb (req_frame t =? 0) then
       it ← proto_tree_add_uint (Some ipp) hf_ipp_response_to 0 0 (req_frame t);
       _ ← PROTO_ITEM_SET_GENERATED it;
       it ← proto_tree_add_time (Some ipp) hf_ipp_response_time 0 0
              (nstime_delta (pinfo_abs_ts pinfo) (req_time t));
       PROTO_ITEM_SET_GENERATED it
     else mret tt) s
  = (set_nodes s (ds_nodes s ++ link_items ipp pinfo is_request t), Ok tt).
Proof.
  unfold link_items, proto_tree_add_uint, proto_tree_add_time.
  destruct is_request.
  - destruct (rep_frame t =? 0); cbn [negb].
    + rewrite set_nodes_same. reflexivity.
    + apply link_item_run.
  - destruct (req_frame t =? 0); cbn [negb].
    + rewrite set_nodes_same. reflexivity.
    + apply link_items_run.
Qed.

(** Lines 484 to 547 under a tree: the link items and the three items of the
    fixed header are added, and the attributes and the payload follow. *)
Lemma dissect_ipp_message_items tvb pinfo (is_request : bool) operation_status
  ipp (t : ipp_transaction_t) s :
  8 <= tvb_captured_length tvb ->
  dissect_ipp_message tvb pinfo is_request operation_status (Some ipp) t s
  = attributes_and_payload tvb (Some ipp)
      (set_nodes s
         (ds_nodes s ++ link_items ipp pinfo is_request t
          ++ header_items ipp tvb is_request operation_status)).
Proof.
  intros Hcap. unfold dissect_ipp_message, attributes_and_payload. cbv zeta.
  erewrite bind_Ok by apply link_items_added.
  erewrite bind_Ok by (apply add_item_run; lia).
  destruct is_request.
  - erewrite bind_Ok by (apply add_item_run; lia).
    erewrite bind_Ok by (apply add_item_run; lia).
    change (0 + 2 + 2 + 4) with 8.
    match goal with
    | |- ?f ?a = ?f ?b => replace a with b; [reflexivity|]
    end.
    unfold set_nodes.
    cbn [ds_nodes ds_col_protocol ds_col_info ds_conv ds_data].
    rewrite <- !app_assoc. reflexivity.
  - erewrite bind_Ok by reflexivity.
    erewrite bind_Ok by (apply add_item_run; lia).
    change (0 + 2 + 2 + 4) with 8.
    match goal with
    | |- ?f ?a = ?f ?b => replace a with b; [reflexivity|]
    end.
    unfold set_nodes.
    cbn [ds_nodes ds_col_protocol ds_col_info ds_conv ds_data].
    rewrite <- !app_assoc. reflexivity.
Qed.

(** The same lines under a NULL tree: the header is read, nothing is
    added. *)
Lemma dissect_ipp_message_null tvb pinfo (is_request : bool) operation_status
  (t : ipp_transaction_t) s :
  8 <= tvb_captured_length tvb ->
  dissect_ipp_message tvb pinfo is_request operation_status None t s
  = attributes_and_payload tvb None s.
Proof.
  intros Hcap. unfold dissect_ipp_message, attributes_and_payload. cbv zeta.
  rewrite (bind_Ok _ _ s s tt)
    by (destruct is_request;
        [destruct (negb (rep_frame t =? 0))
        |destruct (negb (req_frame t =? 0))]; reflexivity).
  rewrite (bind_Ok _ _ s s None) by (apply add_item_null; lia).
  rewrite (bind_Ok _ _ s s None)
    by (destruct is_request; [apply add_item_null; lia|reflexivity]).
  rewrite (bind_Ok _ _ s s None) by (apply add_item_null; lia).
  reflexivity.
Qed.

(** The bytes from an offset inside the buffer on go to the data
    dissector. *)
Lemma call_data_dissector_run tvb offset tree s :
  tvb_offset_exists tvb offset = true ->
  exists payload,
    call_data_dissector tvb offset tree s
    = ({| ds_nodes := ds_nodes s; ds_col_protocol := ds_col_protocol s;
          ds_col_info := ds_col_info s; ds_conv := ds_conv s;
          ds_data := ds_data s ++ [(payload, tree)] |}, Ok tt).
Proof.
  intros Hex. unfold tvb_offset_exists in Hex.
  unfold call_data_dissector, ensure_contiguous.
  destruct (compute_offset tvb offset) as [abs| |]; try discriminate.
  apply Z.ltb_lt in Hex. cbn [mbind res_bind].
  change (-1 <? -1) with false. change (-1 =? -1) with true. cbv iota.
  destruct (abs + (tvb_captured_length tvb - abs) <=? tvb_captured_length tvb)
    eqn:E; [|apply Z.leb_gt in E; lia].
  eexists. reflexivity.
Qed.

Lemma bind_OutOfFuel {A B : Type} (m : M A) (k : A -> M B) (s s1 : dstate) :
  m s = (s1, OutOfFuel) -> (m ≫= k) s = (s1, OutOfFuel).
Proof. intros H. unfold mbind, M_bind. rewrite H. reflexivity. Qed.

(** Lines 549 to 554: the tree gets the nodes of the attribute parser, and
    the dissection ends as the parser ends. *)
Lemma attributes_and_payload_run tvb ipp_tree s :
  ds_nodes (fst (attributes_and_payload tvb ipp_tree s))
  = ds_nodes (fst (parse_attributes tvb 8 ipp_tree s))
  /\ snd (attributes_and_payload tvb ipp_tree s)
     = match snd (parse_attributes tvb 8 ipp_tree s) with
       | Ok _ => Ok (tvb_captured_length tvb)
       | Throw e => Throw e
       | OutOfFuel => OutOfFuel
       end.
Proof.
  unfold attributes_and_payload.
  destruct (parse_attributes tvb 8 ipp_tree s) as [s1 [o|e|]] eqn:Hp;
    cbn [fst snd].
  - rewrite (bind_Ok _ _ _ _ _ Hp).
    destruct (tvb_offset_exists tvb o) eqn:E.
    + destruct (call_data_dissector_run tvb o ipp_tree s1 E)
        as [payload Hrun].
      rewrite (bind_Ok _ _ _ _ _ Hrun). split; reflexivity.
    + split; reflexivity.
  - rewrite (bind_Throw _ _ _ _ _ Hp). split; reflexivity.
  - rewrite (bind_OutOfFuel _ _ _ _ Hp). split; reflexivity.
Qed.

(** The attributes and the payload of a message that is in the buffer as a
    whole. *)
Lemma attributes_and_payload_complete hdr items payload ipp_tree s :
  length hdr = 8%nat ->
  forallb plain_item items = true ->
  exists s',
    attributes_and_payload (hdr ++ encode_items items ++ x03 :: payload)
      ipp_tree s
    = (s', Ok (Z.of_nat (length (hdr ++ encode_items items ++ x03 :: payload))))
    /\ ds_data s'
       = ds_data s ++ match payload with
                      | [] => []
                      | _ :: _ => [(payload, ipp_tree)]
                      end.
Proof.
  intros Hhdr Hplain.
  set (tvb := hdr ++ encode_items items ++ x03 :: payload).
  unfold attributes_and_payload.
  replace 8 with (Z.of_nat (length hdr)) by lia.
  destruct (parse_attributes_items_end hdr items payload ipp_tree s Hplain)
    as [s1 Hparse].
  fold tvb in Hparse.
  pose proof (keeps_field_run ds_data _ _ _ _
                (keeps_field_parse_attributes ds_data
                   (fun s ns => eq_refl) tvb _ ipp_tree) Hparse) as Hd1.
  rewrite (bind_Ok _ _ _ _ _ Hparse).
  set (o := Z.of_nat (length hdr) + Z.of_nat (length (encode_items items)) + 1).
  assert (tvb = (hdr ++ encode_items items ++ [x03]) ++ payload) as Htvb
    by (subst tvb; rewrite <- !app_assoc; reflexivity).
  assert (o = Z.of_nat (length (hdr ++ encode_items items ++ [x03]))) as Ho
    by (subst o; rewrite !length_app; cbn [length]; lia).
  assert (tvb_captured_length tvb = o + Z.of_nat (length payload)) as Hcap.
  { unfold tvb_captured_length. rewrite Htvb, length_app. lia. }
  rewrite tvb_offset_exists_nonneg by lia.
  destruct payload as [|b payload].
  - destruct (o <? tvb_captured_length tvb) eqn:E;
      [apply Z.ltb_lt in E; cbn [length] in Hcap; lia|].
    exists s1. rewrite app_nil_r. split; [reflexivity|exact Hd1].
  - destruct (o <? tvb_captured_length tvb) eqn:E;
      [|apply Z.ltb_ge in E; cbn [length] in Hcap; lia].
    assert (ensure_contiguous tvb o (-1) = Ok (b :: payload)) as Hread
      by (rewrite Htvb, Ho; apply ensure_contiguous_tail).
    unfold call_data_dissector. rewrite Hread.
    unfold mbind, M_bind, lift, modify, mret, M_ret.
    eexists. split; [reflexivity|]. cbn [ds_data]. rewrite Hd1. reflexivity.
Qed.

(** [dissect_ipp] on a buffer that holds the fixed header dissects the
    message with the transaction that lines 451 to 482 give it. *)
Lemma dissect_ipp_dissects tvb pinfo tree data s operation_status request_id :
  tvb_get_ntohs tvb 2 = Ok operation_status ->
  tvb_get_ntohl tvb 4 = Ok request_id ->
  message_dissected tvb pinfo tree (ipp_is_request pinfo data) operation_status
    (transaction_of pinfo request_id
       (pdus_after pinfo (ipp_is_request pinfo data) request_id (conv_pdus s)))
    s (dissect_ipp tvb pinfo tree data s).
Proof.
  intros Hop Hid.
  assert (8 <= tvb_captured_length tvb) as Hcap.
  { unfold tvb_get_ntohl in Hid.
    apply res_bind_Ok_inv in Hid as (bs & Hbs & _).
    apply ensure_contiguous_Ok_bounds in Hbs; lia. }
  destruct (dissect_ipp_run tvb pinfo tree data s _ _ Hop Hid)
    as (s2 & Hrun & _ & Hd2 & Hn2).
  set (is_request := ipp_is_request pinfo data) in *.
  set (t := transaction_of pinfo request_id _) in *.
  unfold message_dissected. cbv zeta.
  set (ipp_tree := match tree with
                   | Some _ => Some (length (ds_nodes s))
                   | None => None
                   end) in *.
  set (shown := match tree with
                | Some parent =>
                    protocol_item parent tvb
                    :: link_items (length (ds_nodes s)) pinfo is_request t
                    ++ header_items (length (ds_nodes s)) tvb is_request
                         operation_status
                | None => []
                end).
  assert (exists s3,
             dissect_ipp tvb pinfo tree data s
             = attributes_and_payload tvb ipp_tree s3
             /\ ds_nodes s3 = ds_nodes s ++ shown
             /\ ds_data s3 = ds_data s) as (s3 & Hrun3 & Hn3 & Hd3).
  { subst ipp_tree shown. destruct tree as [parent|].
    - eexists. rewrite Hrun. split; [apply dissect_ipp_message_items, Hcap|].
      cbn [ds_nodes ds_data set_nodes]. rewrite Hn2, <- app_assoc.
      split; [reflexivity|exact Hd2].
    - exists s2. rewrite Hrun. split; [apply dissect_ipp_message_null, Hcap|].
      rewrite Hn2. auto. }
  rewrite Hrun3. split.
  - destruct (extends_tree_run _ _ _ s3
                (extends_tree_parse_attributes ipp_tree (length (ds_nodes s3))
                   tvb 8)) as (extra & Hex & HP & _).
    destruct (attributes_and_payload_run tvb ipp_tree s3) as [Hnodes Hout].
    exists s3, extra. split; [exact Hn3|]. split; [exact Hex|].
    split; [exact HP|]. split; [|exact Hout].
    rewrite Hnodes, Hex, Hn3, <- app_assoc. reflexivity.
  - intros hdr items payload Htvb Hhdr Hplain.
    destruct (attributes_and_payload_complete hdr items payload ipp_tree s3
                Hhdr Hplain) as (s' & Hr & Hdata).
    rewrite <- Htvb in Hr. rewrite Hr. cbn [fst snd].
    rewrite Hdata, Hd3. auto.
Qed.

(** C5. When a response is processed whose request id has no recorded
    request, on its first visit or on a later one, the lookup in the
    transaction table finds nothing, nothing is raised, the table stays as it
    is, and the message is dissected all the same, with a transaction that
    names no request frame: the tree gets the protocol item, the items of
    the header without any link item, and the nodes of the attributes, and
    the dissection ends as the parse of the attributes ends.  On the first
    visit of a request, the transaction stored under its request id, if
    there is one, is replaced by a fresh one that holds the frame number and
    time of this request and whose response frame is unset; no other entry
    of the table changes. *)
Theorem transaction_store_unmatched_and_replaced tvb pinfo tree data s operation_status
  request_id :
  tvb_get_ntohs tvb 2 = Ok operation_status ->
  tvb_get_ntohl tvb 4 = Ok request_id ->
  (ipp_is_request pinfo data = false ->
   conv_pdus s !! request_id = None ->
   wmem_map_lookup request_id s = (s, Ok None)
   /\ conv_pdus (fst (dissect_ipp tvb pinfo tree data s)) = conv_pdus s
   /\ (exists s1 ipp_tree,
          conv_pdus s1 = conv_pdus s
          /\ dissect_ipp tvb pinfo tree data s
             = dissect_ipp_message tvb pinfo false operation_status ipp_tree
                 {| req_frame := 0; rep_frame := 0;
                    req_time := pinfo_abs_ts pinfo |} s1)
   /\ message_dissected tvb pinfo tree false operation_status
        {| req_frame := 0; rep_frame := 0; req_time := pinfo_abs_ts pinfo |}
        s (dissect_ipp tvb pinfo tree data s))
  /\ (ipp_is_request pinfo data = true ->
      pinfo_fd_visited pinfo = false ->
      let fresh := {| req_frame := pinfo_num pinfo; rep_frame := 0;
                      req_time := pinfo_abs_ts pinfo |} in
      conv_pdus (fst (dissect_ipp tvb pinfo tree data s))
      = <[request_id := fresh]> (conv_pdus s)
      /\ conv_pdus (fst (dissect_ipp tvb pinfo tree data s)) !! request_id
         = Some fresh
      /\ forall other,
           other <> request_id ->
           conv_pdus (fst (dissect_ipp tvb pinfo tree data s)) !! other
           = conv_pdus s !! other).
Proof.
  intros Hop Hid.
  destruct (dissect_ipp_prologue tvb pinfo tree data s operation_status
              request_id Hop Hid) as (s1 & ipp_tree & Hconv & Hrun).
  assert (conv_pdus s1 = conv_pdus s) as Hpdus
    by (unfold conv_pdus; rewrite Hconv; reflexivity).
  split.
  - intros Hresp Hnone. rewrite Hresp in Hrun.
    destruct (ipp_transaction_unmatched_response pinfo request_id s1)
      as (s2 & Hs2 & Htrans); [rewrite Hpdus; exact Hnone|].
    rewrite (bind_Ok _ _ _ _ _ Htrans) in Hrun.
    split; [|split; [|split]].
    + unfold wmem_map_lookup, gets. rewrite Hnone. reflexivity.
    + rewrite Hrun. unfold conv_pdus at 1.
      rewrite keeps_conv_dissect_ipp_message.
      fold (conv_pdus s2). congruence.
    + exists s2, ipp_tree. split; [congruence|exact Hrun].
    + pose proof (dissect_ipp_dissects tvb pinfo tree data s _ _ Hop Hid)
        as Hdis.
      rewrite Hresp in Hdis.
      assert (pdus_after pinfo false request_id (conv_pdus s) = conv_pdus s)
        as Hafter.
      { unfold pdus_after. rewrite Hnone.
        destruct (pinfo_fd_visited pinfo); reflexivity. }
      rewrite Hafter in Hdis. unfold transaction_of in Hdis.
      rewrite Hnone in Hdis. exact Hdis.
  - intros Hreq Hv fresh. rewrite Hreq in Hrun.
    destruct (ipp_transaction_first_request pinfo request_id s1 Hv)
      as (s2 & Hs2 & Htrans).
    rewrite (bind_Ok _ _ _ _ _ Htrans) in Hrun.
    assert (conv_pdus (fst (dissect_ipp tvb pinfo tree data s))
            = <[request_id := fresh]> (conv_pdus s)) as Heq.
    { rewrite Hrun. unfold conv_pdus at 1.
      rewrite keeps_conv_dissect_ipp_message.
      fold (conv_pdus s2). rewrite Hs2, Hpdus. reflexivity. }
    rewrite Heq. split; [reflexivity|]. split.
    + apply lookup_insert_eq.
    + intros other Hne. apply lookup_insert_ne. congruence.
Qed.

(** X5. The first visit of a response whose request id has a recorded
    request completes that transaction: the response's frame number is
    written into the stored transaction, whose request frame and request time
    stay, and the message is dissected with the completed transaction: under
    the protocol item the tree gets the generated "response to" item with
    the frame number of the request and the generated "response time" item
    with the time since the request, then the items of the header and the
    nodes of the attributes, and the dissection ends as the parse of the
    attributes ends.  This also overwrites the frame number of an earlier
    response to the same request id. *)
Theorem matched_response_completes_transaction tvb pinfo tree data s
  operation_status request_id t :
  tvb_get_ntohs tvb 2 = Ok operation_status ->
  tvb_get_ntohl tvb 4 = Ok request_id ->
  ipp_is_request pinfo data = false ->
  pinfo_fd_visited pinfo = false ->
  conv_pdus s !! request_id = Some t ->
  let completed := {| req_frame := req_frame t; rep_frame := pinfo_num pinfo;
                      req_time := req_time t |} in
  conv_pdus (fst (dissect_ipp tvb pinfo tree data s))
  = <[request_id := completed]> (conv_pdus s)
  /\ conv_pdus (fst (dissect_ipp tvb pinfo tree data s)) !! request_id
     = Some completed
  /\ (exists s1 ipp_tree,
         dissect_ipp tvb pinfo tree data s
         = dissect_ipp_message tvb pinfo false operation_status ipp_tree
             completed s1)
  /\ message_dissected tvb pinfo tree false operation_status completed s
       (dissect_ipp tvb pinfo tree data s)
  /\ (req_frame t <> 0 ->
      link_items (length (ds_nodes s)) pinfo false completed
      = [link_item (length (ds_nodes s)) hf_ipp_response_to
           (NvUint (req_frame t));
         link_item (length (ds_nodes s)) hf_ipp_response_time
           (NvTime (nstime_delta (pinfo_abs_ts pinfo) (req_time t)))]).
Proof.
  intros Hop Hid Hresp Hv Ht completed.
  assert (pdus_after pinfo false request_id (conv_pdus s)
          = <[request_id := completed]> (conv_pdus s)) as Hafter.
  { unfold pdus_after. rewrite Hv, Ht. reflexivity. }
  rewrite (dissect_ipp_pdus _ _ _ _ _ _ _ Hop Hid), Hresp, Hafter.
  split; [reflexivity|]. split; [apply lookup_insert_eq|].
  split; [|split].
  - destruct (dissect_ipp_run tvb pinfo tree data s _ _ Hop Hid)
      as (s2 & Hrun & _).
    rewrite Hresp, Hafter in Hrun. unfold transaction_of in Hrun.
    rewrite lookup_insert_eq in Hrun. eauto.
  - pose proof (dissect_ipp_dissects tvb pinfo tree data s _ _ Hop Hid)
      as Hdis.
    rewrite Hresp, Hafter in Hdis. unfold transaction_of in Hdis.
    rewrite lookup_insert_eq in Hdis. exact Hdis.
  - intros Hne. unfold link_items. cbn [req_frame completed].
    apply Z.eqb_neq in Hne. rewrite Hne. reflexivity.
Qed.

(** ** The extent of a group *)

Lemma add_subtree_run parent start length idx label s :
  proto_tree_add_subtree (Some parent) start length idx label s
  = (set_nodes s
       (ds_nodes s
        ++ [{| pn_parent := parent; pn_hf := hf_text_only; pn_start := start;
               pn_length := length; pn_value := NvText label;
               pn_ett := Some idx; pn_generated := false |}]),
     Ok (Some (List.length (ds_nodes s)))).
Proof. reflexivity. Qed.

Lemma set_len_run k length s :
  proto_item_set_len (Some k) length s
  = (set_nodes s
       (alter (fun n =>
                 {| pn_parent := pn_parent n; pn_hf := pn_hf n;
                    pn_start := pn_start n; pn_length := length;
                    pn_value := pn_value n; pn_ett := pn_ett n;
                    pn_generated := pn_generated n |}) k (ds_nodes s)),
     Ok tt).
Proof. reflexivity. Qed.

(** X12. The item of an attribute group spans the group.  When the buffer
    holds, after plain items, a delimiter tag, then value records, then
    another delimiter tag (the end-of-attributes tag or the tag of the next
    group), the tree gets for the first delimiter a subtree item under the
    tree that the parser was handed, labelled with the description of the
    tag, that starts at the tag and whose length is one byte for the tag plus
    the bytes of all the records of the group.  The item stays like this
    whatever follows the second delimiter. *)
Theorem group_item_spans_its_records pre before d values d2 rest parent s :
  forallb plain_item before = true ->
  plain_item (ItemDelimiter d) = true ->
  forallb plain_item values = true ->
  forallb is_value_item values = true ->
  TAG_TYPE (byte_to_Z d2) = TAG_TYPE_DELIMITER ->
  let tvb := pre ++ encode_items before
                 ++ d :: encode_items values ++ d2 :: rest in
  In {| pn_parent := parent; pn_hf := hf_text_only;
        pn_start := Z.of_nat (length pre)
                    + Z.of_nat (length (encode_items before));
        pn_length := 1 + Z.of_nat (length (encode_items values));
        pn_value := NvText (val_to_str (byte_to_Z d) tag_vals fmt_reserved_tag);
        pn_ett := Some ett_ipp_as; pn_generated := false |}
     (ds_nodes (fst (parse_attributes tvb (Z.of_nat (length pre))
                       (Some parent) s))).
Proof.
  intros Hbefore Hd Hvalues Hvals Hd2 tvb.
  cbn [plain_item] in Hd. apply andb_true_iff in Hd as [Hdty Hdne].
  apply Z.eqb_eq in Hdty. apply negb_true_iff in Hdne.
  unfold parse_attributes.
  destruct (parse_attributes_loop_items before pre
              (d :: encode_items values ++ d2 :: rest) tvb
              (parse_attributes_fuel tvb (Z.of_nat (length pre)))
              (Some parent)
              (parse_attributes_init (Z.of_nat (length pre)) (Some parent)) s
              Hbefore eq_refl eq_refl (parse_attributes_fuel_enough _ _ _))
    as (fuel1 & l1 & s1 & Hrun1 & Ho1 & Hfuel1 & _).
  rewrite Hrun1. clear Hrun1. destruct fuel1 as [|fuel1]; [lia|].
  cbn [parse_attributes_loop].
  assert (tvb_get_guint8 tvb (pa_offset l1) = Ok (byte_to_Z d)) as Htag1.
  { subst tvb. rewrite Ho1, <- Nat2Z.inj_add, <- length_app, app_assoc.
    apply read_item_tag. }
  rewrite (tvb_get_guint8_exists tvb (pa_offset l1) _ ltac:(lia) Htag1).
  destruct (parse_attributes_body_delimiter tvb (Some parent) l1 s1 _ Htag1
              Hdty) as (s0 & s' & sub & _ & Hsub & Hbody).
  rewrite (bind_Ok _ _ _ _ _ Hbody), Hdne. cbv beta iota. clear Hbody.
  rewrite add_subtree_run in Hsub. injection Hsub as <- <-.
  set (k := length (ds_nodes s0)).
  match goal with
  | |- context [parse_attributes_loop fuel1 tvb (Some parent) ?l ?st] =>
      set (l' := l); set (s' := st)
  end.
  assert (tvb = (pre ++ encode_items before ++ [d])
                ++ encode_items values ++ d2 :: rest) as Htvb2
    by (subst tvb; rewrite <- !app_assoc; reflexivity).
  assert (tvb_captured_length tvb
          = Z.of_nat (length pre) + Z.of_nat (length (encode_items before)) + 1
            + Z.of_nat (length (encode_items values)) + 1
            + Z.of_nat (length rest)) as Hcap.
  { unfold tvb_captured_length. rewrite Htvb2, !length_app.
    cbn [length]. lia. }
  destruct (parse_attributes_loop_items values
              (pre ++ encode_items before ++ [d]) (d2 :: rest) tvb fuel1
              (Some parent) l' s' Hvalues Htvb2)
    as (fuel2 & l2 & s2 & Hrun2 & Ho2 & Hfuel2 & Hkeep).
  { subst l'. cbn [pa_offset]. rewrite Ho1, !length_app. cbn [length]. lia. }
  { subst l'. cbn [pa_offset]. lia. }
  rewrite Hrun2. clear Hrun2.
  destruct (Hkeep Hvals) as (Htas & Hstart & extra & Hextra). clear Hkeep.
  subst l' s'. cbn [pa_tas pa_start_offset ds_nodes set_nodes] in Htas, Hstart,
    Hextra.
  rewrite !length_app in Ho2. cbn [length] in Ho2.
  destruct fuel2 as [|fuel2]; [lia|].
  cbn [parse_attributes_loop].
  assert (tvb_get_guint8 tvb (pa_offset l2) = Ok (byte_to_Z d2)) as Htag2.
  { rewrite Htvb2, Ho2.
    replace (Z.of_nat (length pre + (length (encode_items before) + 1))
             + Z.of_nat (length (encode_items values)))
      with (Z.of_nat (length ((pre ++ encode_items before ++ [d])
                                ++ encode_items values)))
      by (rewrite !length_app; cbn [length]; lia).
    rewrite app_assoc. apply read_item_tag. }
  rewrite (tvb_get_guint8_exists tvb (pa_offset l2) _ ltac:(lia) Htag2).
  destruct (parse_attributes_body_delimiter tvb (Some parent) l2 s2 _ Htag2
              Hd2) as (s3 & s4 & sub2 & Hset2 & Hsub2 & Hbody2).
  rewrite (bind_Ok _ _ _ _ _ Hbody2). clear Hbody2.
  rewrite Htas, set_len_run in Hset2. injection Hset2 as <-.
  rewrite add_subtree_run in Hsub2. injection Hsub2 as <- <-.
  cbn [ds_nodes set_nodes].
  set (group := {| pn_parent := parent; pn_hf := hf_text_only;
                   pn_start := Z.of_nat (length pre)
                               + Z.of_nat (length (encode_items before));
                   pn_length := 1 + Z.of_nat (length (encode_items values));
                   pn_value := NvText (val_to_str (byte_to_Z d) tag_vals
                                         fmt_reserved_tag);
                   pn_ett := Some ett_ipp_as; pn_generated := false |}).
  match goal with
  | |- context [alter ?f k (ds_nodes s2)] => set (nodes3 := alter f k (ds_nodes s2))
  end.
  assert (nodes3 !! k = Some group) as Hgroup.
  { subst nodes3. rewrite list_lookup_alter_eq, Hextra.
    rewrite lookup_app_l by (rewrite length_app; cbn [length]; lia).
    rewrite list_lookup_middle by reflexivity. cbn [fmap option_fmap option_map].
    f_equal. subst group. cbn [pn_parent pn_hf pn_start pn_value pn_ett
                                 pn_generated].
    f_equal; lia. }
  assert (k < length nodes3)%nat as Hk.
  { apply lookup_lt_is_Some. rewrite Hgroup. eauto. }
  apply list_elem_of_In, (list_elem_of_lookup_2 _ k).
  destruct (byte_to_Z d2 =? TAG_END_OF_ATTRIBUTES).
  - cbn [fst mret M_ret ds_nodes set_nodes].
    rewrite lookup_app_l by exact Hk. exact Hgroup.
  - match goal with
    | |- context [parse_attributes_loop fuel2 tvb (Some parent) ?l ?st] =>
        destruct (extends_tree_parse_attributes_loop (Some parent)
                    (length nodes3) fuel2 tvb l) with (s := st)
          as (Htake & _)
    end.
    + repeat split; cbn; auto.
    + cbn [ds_nodes set_nodes]. rewrite length_app. lia.
    + cbn [ds_nodes set_nodes]. rewrite drop_app_length.
      apply Forall_cons_2; [|apply Forall_nil_2].
      split; [reflexivity|]. split; [reflexivity|]. left. reflexivity.
    + cbn [ds_nodes set_nodes] in Htake. rewrite take_app_length in Htake.
      rewrite <- (lookup_take_lt _ (length nodes3)) by exact Hk.
      rewrite Htake. exact Hgroup.
Qed.

(** ** The outcome does not depend on the tree *)

Lemma same_outcome_ret {A B : Type} (R : A -> B -> Prop) (a : A) (b : B) :
  R a b -> same_outcome R (mret a : M A) (mret b : M B).
Proof. intros HR s1 s2. exact HR. Qed.

Lemma same_outcome_lift {A : Type} (r : res A) :
  same_outcome eq (lift r) (lift r).
Proof. intros s1 s2. destruct r; cbn; auto. Qed.

Lemma same_outcome_bind {A A' B B' : Type} (R : A -> A' -> Prop)
  (R' : B -> B' -> Prop) (m1 : M A) (m2 : M A') (k1 : A -> M B)
  (k2 : A' -> M B') :
  same_outcome R m1 m2 ->
  (forall a b, R a b -> same_outcome R' (k1 a) (k2 b)) ->
  same_outcome R' (m1 ≫= k1) (m2 ≫= k2).
Proof.
  intros Hm Hk s1 s2. specialize (Hm s1 s2). unfold mbind, M_bind.
  destruct (m1 s1) as [s1' [a|e|]], (m2 s2) as [s2' [b|e'|]]; cbn in *;
    try contradiction; try assumption.
  apply Hk, Hm.
Qed.

Lemma same_outcome_succeeds {A B : Type} (m1 : M A) (m2 : M B) :
  succeeds m1 -> succeeds m2 -> same_outcome (fun _ _ => True) m1 m2.
Proof.
  intros H1 H2 s1 s2. destruct (H1 s1) as (? & ? & ->).
  destruct (H2 s2) as (? & ? & ->). exact I.
Qed.

Lemma same_outcome_add_node t1 t2 hf1 hf2 start1 start2 length1 length2 v1 v2
  ett1 ett2 :
  same_outcome (fun _ _ => True)
    (proto_tree_add_node t1 hf1 start1 length1 v1 ett1)
    (proto_tree_add_node t2 hf2 start2 length2 v2 ett2).
Proof. apply same_outcome_succeeds; apply succeeds_add_node. Qed.

(** The same read, then a node under either tree. *)
Lemma same_outcome_read_then_node {A : Type} (r : res A) t1 t2 hf start length
  (v : A -> node_value) ett :
  same_outcome (fun _ _ => True)
    (a ← lift r; proto_tree_add_node t1 hf start length (v a) ett)
    (a ← lift r; proto_tree_add_node t2 hf start length (v a) ett).
Proof.
  eapply same_outcome_bind; [apply same_outcome_lift|].
  intros a ? <-. apply same_outcome_add_node.
Qed.

Lemma same_outcome_add_item t1 t2 hf tvb start length :
  same_outcome (fun _ _ => True)
    (proto_tree_add_item t1 hf tvb start length)
    (proto_tree_add_item t2 hf tvb start length).
Proof. apply (same_outcome_read_then_node _ t1 t2 hf start length NvItem). Qed.

Lemma same_outcome_add_value_head tag_desc t1 t2 tvb offset name_length
  value_length :
  same_outcome eq
    (add_value_head tag_desc t1 tvb offset name_length value_length)
    (add_value_head tag_desc t2 tvb offset name_length value_length).
Proof.
  unfold add_value_head, proto_tree_add_string, proto_tree_add_uint.
  eapply same_outcome_bind; [apply same_outcome_add_node|]. intros _ _ _.
  eapply same_outcome_bind; [apply same_outcome_add_node|]. intros _ _ _.
  eapply same_outcome_bind with (R := eq).
  - destruct (name_length =? 0); [apply same_outcome_ret; reflexivity|].
    eapply same_outcome_bind; [apply same_outcome_lift|]. intros nv ? <-.
    eapply same_outcome_bind; [apply same_outcome_add_node|]. intros _ _ _.
    apply same_outcome_ret. reflexivity.
  - intros name_val ? <-.
    eapply same_outcome_bind; [apply same_outcome_add_node|]. intros _ _ _.
    apply same_outcome_ret. reflexivity.
Qed.

Lemma same_outcome_values tag_desc t1 t2 tvb offset name_length value_length
  tag :
  same_outcome (fun _ _ => True)
    (add_integer_value tag_desc t1 tvb offset name_length value_length tag)
    (add_integer_value tag_desc t2 tvb offset name_length value_length tag)
  /\ same_outcome (fun _ _ => True)
       (add_octetstring_value tag_desc t1 tvb offset name_length value_length)
       (add_octetstring_value tag_desc t2 tvb offset name_length value_length)
  /\ same_outcome (fun _ _ => True)
       (add_charstring_value tag_desc t1 tvb offset name_length value_length)
       (add_charstring_value tag_desc t2 tvb offset name_length value_length).
Proof.
  assert (forall hf o,
             same_outcome (fun _ _ : unit => True)
               (_ ← proto_tree_add_item t1 hf tvb o value_length; mret tt)
               (_ ← proto_tree_add_item t2 hf tvb o value_length; mret tt))
    as Hitem.
  { intros hf o. eapply same_outcome_bind; [apply same_outcome_add_item|].
    intros _ _ _. apply same_outcome_ret. exact I. }
  unfold add_integer_value, add_octetstring_value, add_charstring_value.
  split; [|split];
    (eapply same_outcome_bind; [apply same_outcome_add_value_head|]);
    intros [o name_val] ? <-.
  - repeat match goal with
           | |- context [if ?b then _ else _] => destruct b
           end;
      first [apply Hitem|apply same_outcome_ret; exact I].
  - apply Hitem.
  - apply Hitem.
Qed.

Lemma same_outcome_trees t1 t2 tvb offset name_length value_length tag :
  same_outcome (fun _ _ => True)
    (add_integer_tree t1 tvb offset name_length value_length tag)
    (add_integer_tree t2 tvb offset name_length value_length tag)
  /\ same_outcome (fun _ _ => True)
       (add_octetstring_tree t1 tvb offset tag name_length value_length)
       (add_octetstring_tree t2 tvb offset tag name_length value_length)
  /\ same_outcome (fun _ _ => True)
       (add_charstring_tree t1 tvb offset name_length value_length)
       (add_charstring_tree t2 tvb offset name_length value_length).
Proof.
  unfold add_integer_tree, add_octetstring_tree, add_charstring_tree,
    proto_tree_add_subtree.
  split; [|split].
  - eapply same_outcome_bind; [apply same_outcome_lift|]. intros a ? <-.
    apply same_outcome_add_node.
  - eapply same_outcome_bind; [apply same_outcome_lift|]. intros a ? <-.
    eapply same_outcome_bind; [apply same_outcome_lift|]. intros b ? <-.
    apply same_outcome_add_node.
  - eapply same_outcome_bind; [apply same_outcome_lift|]. intros a ? <-.
    eapply same_outcome_bind; [apply same_outcome_lift|]. intros b ? <-.
    apply same_outcome_add_node.
Qed.

Lemma same_outcome_parse_attributes_body tvb t1 t2 l1 l2 :
  pa_offset l1 = pa_offset l2 ->
  same_outcome
    (fun r1 r2 => fst r1 = fst r2 /\ pa_offset (snd r1) = pa_offset (snd r2))
    (parse_attributes_body tvb t1 l1) (parse_attributes_body tvb t2 l2).
Proof.
  intros Ho. unfold parse_attributes_body. rewrite Ho.
  eapply same_outcome_bind; [apply same_outcome_lift|]. intros tag ? <-.
  cbv zeta. destruct (TAG_TYPE tag =? TAG_TYPE_DELIMITER).
  - eapply same_outcome_bind with (R := fun _ _ => True).
    { apply same_outcome_succeeds.
      - destruct (pa_tas l1); [apply succeeds_update_node|apply succeeds_ret].
      - destruct (pa_tas l2); [apply succeeds_update_node|apply succeeds_ret]. }
    intros _ _ _.
    eapply same_outcome_bind; [apply same_outcome_add_node|].
    intros sub1 sub2 _.
    destruct (tag =? TAG_END_OF_ATTRIBUTES); apply same_outcome_ret;
      split; reflexivity.
  - eapply same_outcome_bind; [apply same_outcome_lift|]. intros nl ? <-.
    eapply same_outcome_bind; [apply same_outcome_lift|]. intros vl ? <-.
    eapply same_outcome_bind with (R := fun _ _ => True).
    + assert (forall (m1 m2 : M (option nat)) a1 a2,
                 same_outcome (fun _ _ => True) m1 m2 ->
                 same_outcome (fun _ _ => True)
                   (if negb (nl =? 0) then m1 else mret a1)
                   (if negb (nl =? 0) then m2 else mret a2)) as Hopen.
      { intros m1 m2 a1 a2 Hm. destruct (negb (nl =? 0)); [exact Hm|].
        apply same_outcome_ret. exact I. }
      destruct (TAG_TYPE tag =? TAG_TYPE_INTEGER);
        [|destruct (TAG_TYPE tag =? TAG_TYPE_OCTETSTRING);
          [|destruct (TAG_TYPE tag =? TAG_TYPE_CHARSTRING)]].
      * eapply same_outcome_bind; [apply Hopen, same_outcome_trees|].
        intros a1 a2 _.
        eapply same_outcome_bind; [apply same_outcome_values|].
        intros _ _ _. apply same_outcome_ret. exact I.
      * eapply same_outcome_bind; [apply Hopen, same_outcome_trees|].
        intros a1 a2 _.
        eapply same_outcome_bind;
          [apply (same_outcome_values _ a1 a2 tvb _ _ _ 0)|].
        intros _ _ _. apply same_outcome_ret. exact I.
      * eapply same_outcome_bind;
          [apply Hopen, (same_outcome_trees _ _ tvb _ _ _ 0)|].
        intros a1 a2 _.
        eapply same_outcome_bind;
          [apply (same_outcome_values _ a1 a2 tvb _ _ _ 0)|].
        intros _ _ _. apply same_outcome_ret. exact I.
      * apply same_outcome_ret. exact I.
    + intros a1 a2 _. apply same_outcome_ret. cbn. split; [reflexivity|lia].
Qed.

Lemma same_outcome_parse_attributes_loop fuel tvb t1 t2 l1 l2 :
  pa_offset l1 = pa_offset l2 ->
  same_outcome eq (parse_attributes_loop fuel tvb t1 l1)
    (parse_attributes_loop fuel tvb t2 l2).
Proof.
  revert l1 l2. induction fuel as [|fuel IH]; intros l1 l2 Ho;
    cbn [parse_attributes_loop].
  - apply same_outcome_lift.
  - rewrite Ho. destruct (tvb_offset_exists tvb (pa_offset l2));
      [|apply same_outcome_ret; reflexivity].
    eapply same_outcome_bind;
      [apply same_outcome_parse_attributes_body, Ho|].
    intros [ctl1 l1'] [ctl2 l2'] [Hctl Ho']. cbn in Hctl, Ho'. subst ctl2.
    destruct ctl1; [apply IH, Ho'|apply same_outcome_ret, Ho'].
Qed.

Lemma same_outcome_eq {A : Type} (m1 m2 : M A) (s1 s2 : dstate) :
  same_outcome eq m1 m2 -> snd (m1 s1) = snd (m2 s2).
Proof.
  intros H. specialize (H s1 s2).
  destruct (snd (m1 s1)), (snd (m2 s2)); try contradiction; congruence.
Qed.

Lemma same_outcome_call_data tvb offset t1 t2 :
  same_outcome (fun _ _ => True) (call_data_dissector tvb offset t1)
    (call_data_dissector tvb offset t2).
Proof.
  intros s1 s2. unfold call_data_dissector, lift, modify, mbind, M_bind.
  destruct (ensure_contiguous tvb offset (-1)); cbn; auto.
Qed.

Lemma same_outcome_dissect_ipp_message tvb pinfo1 pinfo2 (r1 r2 : bool)
  operation_status t1 t2 (trans1 trans2 : ipp_transaction_t) :
  (8 <= length tvb)%nat ->
  same_outcome eq
    (dissect_ipp_message tvb pinfo1 r1 operation_status t1 trans1)
    (dissect_ipp_message tvb pinfo2 r2 operation_status t2 trans2).
Proof.
  intros Hlen.
  assert (8 <= tvb_captured_length tvb) as Hcap
    by (unfold tvb_captured_length; lia).
  unfold dissect_ipp_message. cbv zeta.
  eapply same_outcome_bind with (R := fun _ _ => True).
  { apply same_outcome_succeeds; apply succeeds_link_items. }
  intros _ _ _.
  eapply same_outcome_bind; [apply same_outcome_add_item|]. intros _ _ _.
  eapply same_outcome_bind with (R := fun _ _ => True).
  { apply same_outcome_succeeds.
    - destruct r1; [apply succeeds_add_item; lia|].
      unfold proto_tree_add_uint_format_value. apply succeeds_add_node.
    - destruct r2; [apply succeeds_add_item; lia|].
      unfold proto_tree_add_uint_format_value. apply succeeds_add_node. }
  intros _ _ _.
  eapply same_outcome_bind; [apply same_outcome_add_item|]. intros _ _ _.
  eapply same_outcome_bind.
  { unfold parse_attributes. apply same_outcome_parse_attributes_loop.
    reflexivity. }
  intros offset ? <-.
  eapply same_outcome_bind with (R := fun _ _ => True).
  { destruct (tvb_offset_exists tvb offset);
      [apply same_outcome_call_data|apply same_outcome_ret; exact I]. }
  intros _ _ _. apply same_outcome_ret. reflexivity.
Qed.

(** X13. How a dissection ends depends on the bytes of the buffer only.
    Whether [dissect_ipp] returns (with the length of the buffer) or raises
    the bounds exception is the same with a tree and with a NULL tree, on the
    first visit and on a later one, for a request and for a response, and
    whatever the tree, the columns and the transaction table hold.  The same
    is true of the attribute parser, whose returned offset does not depend
    on the tree either. *)
Theorem dissect_ipp_outcome_depends_on_bytes_only tvb :
  (forall pinfo pinfo' tree tree' data data' s s',
      snd (dissect_ipp tvb pinfo tree data s)
      = snd (dissect_ipp tvb pinfo' tree' data' s'))
  /\ (forall offset tree tree' s s',
        snd (parse_attributes tvb offset tree s)
        = snd (parse_attributes tvb offset tree' s')).
Proof.
  split.
  - intros pinfo pinfo' tree tree' data data' s s'.
    destruct (le_lt_dec 8 (length tvb)) as [Hlong|Hshort].
    + destruct (dissect_ipp_header_readable tvb Hlong) as [Hop Hid].
      destruct (dissect_ipp_run tvb pinfo tree data s _ _ Hop Hid)
        as (s2 & -> & _).
      destruct (dissect_ipp_run tvb pinfo' tree' data' s' _ _ Hop Hid)
        as (s2' & -> & _).
      apply same_outcome_eq, same_outcome_dissect_ipp_message, Hlong.
    + rewrite !dissect_ipp_too_short by exact Hshort. reflexivity.
  - intros offset tree tree' s s'. apply same_outcome_eq.
    unfold parse_attributes. apply same_outcome_parse_attributes_loop.
    reflexivity.
Qed.

(** ** The items of a value record *)

(** The four items that [add_value_head] puts under a tree, the third only
    for a record with a name. *)
Lemma add_value_head_run tag_desc parent tvb offset name_length value_length
  name s :
  ensure_contiguous tvb (offset + 1 + 2) name_length = Ok name ->
  add_value_head tag_desc (Some parent) tvb offset name_length value_length s
  = (set_nodes s
       (ds_nodes s
        ++ [value_item parent hf_ipp_tag offset 1 (NvString tag_desc);
            value_item parent hf_ipp_name_length (offset + 1) 2
              (NvUint name_length)]
        ++ (if name_length =? 0 then []
            else [value_item parent hf_ipp_name (offset + 1 + 2) name_length
                    (NvString
                       (format_text (take (Z.to_nat name_length)
                                       (get_ascii_string name))))])
        ++ [value_item parent hf_ipp_value_length (offset + 1 + 2 + name_length)
              2 (NvUint value_length)]),
     Ok (offset + 1 + 2 + name_length + 2,
         if name_length =? 0 then None else Some (get_ascii_string name))).
Proof.
  intros Hname.
  unfold add_value_head, proto_tree_add_string, proto_tree_add_uint,
    proto_tree_add_node, tvb_get_string_enc_ascii, lift, mbind, M_bind, mret,
    M_ret.
  destruct (name_length =? 0).
  - unfold set_nodes.
    cbn [ds_nodes ds_col_protocol ds_col_info ds_conv ds_data app].
    rewrite <- !app_assoc. reflexivity.
  - rewrite Hname. unfold set_nodes.
    cbn [ds_nodes ds_col_protocol ds_col_info ds_conv ds_data app res_bind].
    rewrite <- !app_assoc. reflexivity.
Qed.

Lemma get_ascii_string_7bit (name : list byte) :
  Forall (fun b => byte_to_Z b < 128) name -> get_ascii_string name = name.
Proof.
  unfold get_ascii_string.
  induction 1 as [|b name Hb _ IH]; [reflexivity|].
  cbn [flat_map]. apply Z.ltb_lt in Hb. rewrite Hb, IH. reflexivity.
Qed.

Lemma c_str_length (bs : list byte) : (length (c_str bs) <= length bs)%nat.
Proof.
  induction bs as [|b bs IH]; [reflexivity|].
  cbn [c_str]. destruct (decide (b = x00)); cbn [length]; lia.
Qed.

(** The test of [add_integer_value] on the name: the C string of the name
    is the well-known name. *)
Lemma name_val_test (name : list byte) (lit : string) :
  Forall (fun b => byte_to_Z b < 128) name ->
  (5 < length (list_byte_of_string lit))%nat ->
  (5 <? Z.of_nat (length name))
  && name_val_is (if Z.of_nat (length name) =? 0 then None
                  else Some (get_ascii_string name)) lit
  = bool_decide (c_str name = list_byte_of_string lit).
Proof.
  intros H7 Hlit. rewrite get_ascii_string_7bit by exact H7.
  pose proof (c_str_length name) as Hlen.
  case_bool_decide as Heq.
  - rewrite Heq in Hlen.
    destruct (Z.of_nat (length name) =? 0) eqn:E; [apply Z.eqb_eq in E; lia|].
    cbn [name_val_is]. unfold c_streq. rewrite bool_decide_eq_true_2 by exact Heq.
    rewrite andb_true_r. apply Z.ltb_lt. lia.
  - destruct (Z.of_nat (length name) =? 0); cbn [name_val_is];
      [apply andb_false_r|].
    unfold c_streq. rewrite bool_decide_eq_false_2 by exact Heq.
    apply andb_false_r.
Qed.

(** X14. The field of the value item of an Integer or Enum value.  For a
    4-byte value under a name of seven-bit bytes, [add_integer_value] adds
    the items of the record head and then one item with the four value
    bytes.  The item is the printer-state field exactly when the name, read
    as a C string (up to its first NUL byte, if it has one), is
    "printer-state", the job-state field exactly when it is "job-state", and
    the plain integer field for every other name: the name is compared as a
    whole, so that "printer-state-reasons" selects the plain integer
    field. *)
Theorem integer_value_field_by_exact_name (pre name suf : list byte)
  (t n1 n2 v1 v2 b0 b1 b2 b3 : byte) tag_desc parent tag s :
  Forall (fun b => byte_to_Z b < 128) name ->
  tag = TAG_INTEGER \/ tag = TAG_ENUM ->
  let tvb := pre ++ t :: n1 :: n2 :: name ++ v1 :: v2
                 :: [b0; b1; b2; b3] ++ suf in
  let offset := Z.of_nat (length pre) in
  (exists head,
      add_integer_value tag_desc (Some parent) tvb offset
        (Z.of_nat (length name)) 4 tag s
      = (set_nodes s
           (ds_nodes s ++ head
            ++ [value_item parent (value_field name)
                  (offset + 1 + 2 + Z.of_nat (length name) + 2) 4
                  (NvItem [b0; b1; b2; b3])]),
         Ok tt)
      /\ Forall (fun n => pn_hf n = hf_ipp_tag \/ pn_hf n = hf_ipp_name_length
                          \/ pn_hf n = hf_ipp_name
                          \/ pn_hf n = hf_ipp_value_length) head)
  /\ value_field (list_byte_of_string "printer-state") = hf_ipp_printer_state
  /\ value_field (list_byte_of_string "job-state") = hf_ipp_job_state
  /\ value_field (list_byte_of_string "printer-state-reasons")
     = hf_ipp_uint32_value.
Proof.
  intros H7 Htag tvb offset. split; [|repeat split; reflexivity].
  unfold add_integer_value.
  rewrite (bind_Ok _ _ _ _ _
             (add_value_head_run tag_desc parent tvb offset _ 4 name s
                (read_record_name pre name _ t n1 n2))).
  cbv beta iota.
  assert ((tag =? TAG_BOOLEAN) = false /\
          ((tag =? TAG_INTEGER) || (tag =? TAG_ENUM)) = true) as [Hb Hie]
    by (destruct Htag as [-> | ->]; split; reflexivity).
  rewrite Hb, Hie. change (4 =? 4) with true. cbv iota.
  rewrite !name_val_test by (exact H7 || (cbn; lia)).
  assert (forall hf st,
             (_ ← proto_tree_add_item (Some parent) hf tvb
                    (offset + 1 + 2 + Z.of_nat (length name) + 2) 4;
              mret tt) st
             = (set_nodes st
                  (ds_nodes st
                   ++ [value_item parent hf
                         (offset + 1 + 2 + Z.of_nat (length name) + 2) 4
                         (NvItem [b0; b1; b2; b3])]),
                Ok tt)) as Hitem.
  { intros hf st. unfold proto_tree_add_item. subst tvb offset.
    rewrite (read_record_value_start pre name [b0; b1; b2; b3] suf)
      by (cbn; lia).
    reflexivity. }
  exists ([value_item parent hf_ipp_tag offset 1 (NvString tag_desc);
           value_item parent hf_ipp_name_length (offset + 1) 2
             (NvUint (Z.of_nat (length name)))]
          ++ (if Z.of_nat (length name) =? 0 then []
              else [value_item parent hf_ipp_name (offset + 1 + 2)
                      (Z.of_nat (length name))
                      (NvString
                         (format_text
                            (take (Z.to_nat (Z.of_nat (length name)))
                               (get_ascii_string name))))])
          ++ [value_item parent hf_ipp_value_length
                (offset + 1 + 2 + Z.of_nat (length name)) 2 (NvUint 4)]).
  split.
  - unfold value_field.
    destruct (bool_decide (c_str name = list_byte_of_string "printer-state"));
      [|destruct (bool_decide (c_str name = list_byte_of_string "job-state"))];
      rewrite Hitem; unfold set_nodes;
      cbn [ds_nodes ds_col_protocol ds_col_info ds_conv ds_data];
      rewrite <- !app_assoc; reflexivity.
  - destruct (Z.of_nat (length name) =? 0); cbn [app];
      repeat (apply Forall_cons_2; [cbn; auto|]); apply Forall_nil_2.
Qed.

(** ** The label of a value of the integer family *)

Lemma read_record_value_whole (pre name value suf : list byte)
  (t n1 n2 v1 v2 : byte) :
  ensure_contiguous (pre ++ t :: n1 :: n2 :: name ++ v1 :: v2 :: value ++ suf)
    (Z.of_nat (length pre) + 1 + 2 + Z.of_nat (length name) + 2)
    (Z.of_nat (length value))
  = Ok value.
Proof.
  rewrite read_record_value_start by lia.
  rewrite Nat2Z.id, take_ge by lia. reflexivity.
Qed.


(** ** Text with a language *)




(** ** The nodes of an attribute *)

Lemma encode_item_layout (pre name value rest : list byte) (tag : byte) :
  pre ++ encode_item (ItemValue tag name value) ++ rest
  = pre ++ tag :: byte_of_Z (Z.of_nat (length name) / 256)
        :: byte_of_Z (Z.of_nat (length name))
        :: name ++ byte_of_Z (Z.of_nat (length value) / 256)
        :: byte_of_Z (Z.of_nat (length value)) :: value ++ rest.
Proof.
  cbn [encode_item be16 app]. rewrite <- !app_assoc. reflexivity.
Qed.

(** X17. What the tree shows for a character-string attribute.  For a
    record with a character-string tag, a name of seven-bit bytes and any
    value, met inside a group, the iteration adds six nodes: under the group
    the subtree of the attribute, which spans the record and is labelled
    "<name>: <value>", and under that subtree the items of the tag (one
    byte, with the description of the tag), the name length (two bytes), the
    name, the value length (two bytes) and the value, each at its place in
    the buffer.  The new subtree becomes the current attribute, and the
    parser stands at the byte after the record. *)
Theorem charstring_attribute_nodes (pre name value rest : list byte)
  (tag : byte) tree group l s :
  TAG_TYPE (byte_to_Z tag) = TAG_TYPE_CHARSTRING ->
  name <> [] ->
  Z.of_nat (length name) < 65536 -> Z.of_nat (length value) < 65536 ->
  Forall (fun b => byte_to_Z b < 128) name ->
  pa_offset l = Z.of_nat (length pre) ->
  pa_as_tree l = Some group ->
  let tvb := pre ++ encode_item (ItemValue tag name value) ++ rest in
  let o := Z.of_nat (length pre) in
  let nl := Z.of_nat (length name) in
  let vl := Z.of_nat (length value) in
  let attr := length (ds_nodes s) in
  parse_attributes_body tvb tree l s
  = (set_nodes s
       (ds_nodes s
        ++ [{| pn_parent := group; pn_hf := hf_text_only; pn_start := o;
               pn_length := 1 + 2 + nl + 2 + vl;
               pn_value := NvText (fmt_label (format_text name)
                                     (format_text value));
               pn_ett := Some ett_ipp_attr; pn_generated := false |};
            value_item attr hf_ipp_tag o 1
              (NvString (val_to_str (byte_to_Z tag) tag_vals fmt_reserved_tag));
            value_item attr hf_ipp_name_length (o + 1) 2 (NvUint nl);
            value_item attr hf_ipp_name (o + 1 + 2) nl
              (NvString (format_text name));
            value_item attr hf_ipp_value_length (o + 1 + 2 + nl) 2 (NvUint vl);
            value_item attr hf_ipp_charstring_value (o + 1 + 2 + nl + 2) vl
              (NvItem value)]),
     Ok (LoopContinue,
         {| pa_offset := o + (1 + 2 + nl + 2 + vl); pa_as_tree := Some group;
            pa_tas := pa_tas l; pa_start_offset := pa_start_offset l;
            pa_attr_tree := Some attr; pa_subtree := pa_subtree l |})).
Proof.
  intros Hty Hname Hnl Hvl H7 Ho Has tvb o nl vl attr.
  assert (nl <> 0) as Hnl0.
  { subst nl. destruct name; [contradiction|cbn [length]; lia]. }
  assert (tvb_get_guint8 tvb (pa_offset l) = Ok (byte_to_Z tag)) as Htag.
  { subst tvb. rewrite Ho. cbn [encode_item app]. apply read_item_tag. }
  destruct (read_item_lengths pre name value rest tag Hnl Hvl)
    as (Hrnl & Hrvl & _).
  fold tvb nl vl o in Hrnl, Hrvl.
  assert (ensure_contiguous tvb (o + 1 + 2) nl = Ok name) as Hrname.
  { subst tvb. rewrite encode_item_layout. apply read_record_name. }
  assert (ensure_contiguous tvb (o + 1 + 2 + nl + 2) vl = Ok value) as Hrvalue.
  { subst tvb. rewrite encode_item_layout. apply read_record_value_whole. }
  unfold parse_attributes_body. rewrite Ho. fold o.
  rewrite Ho in Htag. fold o in Htag.
  rewrite (bind_lift_Ok _ _ _ _ Htag). rewrite Hty.
  change (TAG_TYPE_CHARSTRING =? TAG_TYPE_DELIMITER) with false. cbv iota.
  rewrite (bind_lift_Ok _ _ _ _ Hrnl), (bind_lift_Ok _ _ _ _ Hrvl).
  cbv zeta. rewrite Has.
  change (TAG_TYPE_CHARSTRING =? TAG_TYPE_INTEGER) with false.
  change (TAG_TYPE_CHARSTRING =? TAG_TYPE_OCTETSTRING) with false.
  change (TAG_TYPE_CHARSTRING =? TAG_TYPE_CHARSTRING) with true.
  cbv iota. apply Z.eqb_neq in Hnl0. rewrite Hnl0. cbn [negb].
  unfold add_charstring_tree, tvb_format_text, tvb_get_ptr.
  rewrite Hrname, Hrvalue. cbn [mbind res_bind].
  erewrite bind_Ok.
  2:{ erewrite bind_Ok.
      2:{ erewrite bind_lift_Ok by reflexivity.
          erewrite bind_lift_Ok by reflexivity.
          apply add_subtree_run. }
      unfold add_charstring_value.
      erewrite bind_Ok.
      2:{ erewrite bind_Ok by (apply add_value_head_run; exact Hrname).
          cbv beta iota. unfold proto_tree_add_item.
          erewrite bind_Ok.
          2:{ erewrite bind_lift_Ok by exact Hrvalue. reflexivity. }
          reflexivity. }
      reflexivity. }
  rewrite Hnl0, get_ascii_string_7bit by exact H7.
  subst nl. rewrite Nat2Z.id, take_ge by lia.
  unfold set_nodes.
  cbn [ds_nodes ds_col_protocol ds_col_info ds_conv ds_data mret M_ret].
  rewrite <- !app_assoc. reflexivity.
Qed.

(** X18. An additional value joins the attribute before it.  A value record
    without a name (name length 0), of any class, that is met while an
    attribute is open adds its items under the subtree of that attribute: it
    opens no subtree of its own, every node it adds hangs under the current
    attribute, and the current attribute and the current group stay the
    same.  This holds however the iteration ends, also when the value is not
    in the buffer as a whole. *)
Theorem additional_value_joins_attribute tvb tree l s tag group attr :
  tvb_get_guint8 tvb (pa_offset l) = Ok tag ->
  TAG_TYPE tag <> TAG_TYPE_DELIMITER ->
  tvb_get_ntohs tvb (pa_offset l + 1) = Ok 0 ->
  pa_as_tree l = Some group ->
  pa_attr_tree l = Some attr ->
  (exists extra,
      ds_nodes (fst (parse_attributes_body tvb tree l s)) = ds_nodes s ++ extra
      /\ Forall (fun n => pn_parent n = attr /\ pn_hf n <> hf_text_only) extra)
  /\ forall s' ctl l',
       parse_attributes_body tvb tree l s = (s', Ok (ctl, l')) ->
       pa_attr_tree l' = Some attr /\ pa_as_tree l' = Some group
       /\ pa_tas l' = pa_tas l.
Proof.
  intros Htag Hty Hnl Has Hattr.
  set (P := fun n : proto_node => pn_parent n = attr /\ pn_hf n <> hf_text_only).
  set (R := fun r : loop_ctl * pa_locals =>
              pa_attr_tree (snd r) = Some attr
              /\ pa_as_tree (snd r) = Some group
              /\ pa_tas (snd r) = pa_tas l).
  assert (extends_tree (length (ds_nodes s)) P R
            (parse_attributes_body tvb tree l)) as Hext.
  { unfold parse_attributes_body.
    intros s0. rewrite (bind_lift_Ok _ _ _ _ Htag).
    apply Z.eqb_neq in Hty. rewrite Hty.
    rewrite (bind_lift_Ok _ _ _ _ Hnl). revert s0.
    refine (_ : extends_tree _ _ _ _).
    apply extends_tree_bind_any; [apply extends_tree_lift|]. intros vl.
    cbv zeta. rewrite Has, Hattr. change (negb (0 =? 0)) with false. cbv iota.
    assert (forall tag_desc,
               extends_tree (length (ds_nodes s)) P (fun _ => True)
                 (add_integer_value tag_desc (Some attr) tvb (pa_offset l) 0 vl
                    tag)
               /\ extends_tree (length (ds_nodes s)) P (fun _ => True)
                    (add_octetstring_value tag_desc (Some attr) tvb
                       (pa_offset l) 0 vl)
               /\ extends_tree (length (ds_nodes s)) P (fun _ => True)
                    (add_charstring_value tag_desc (Some attr) tvb
                       (pa_offset l) 0 vl)) as Hvalues.
    { intros tag_desc. apply extends_tree_add_values.
      intros parent hf start length v [= <-] _ Hne.
      split; [reflexivity|exact Hne]. }
    eapply extends_tree_bind with (R := fun a => a = Some attr).
    - destruct (TAG_TYPE tag =? TAG_TYPE_INTEGER);
        [|destruct (TAG_TYPE tag =? TAG_TYPE_OCTETSTRING);
          [|destruct (TAG_TYPE tag =? TAG_TYPE_CHARSTRING)]];
        try (apply extends_tree_ret; reflexivity);
        (eapply extends_tree_bind with (R := fun a => a = Some attr);
         [apply extends_tree_ret; reflexivity|]);
        intros a ->;
        (apply extends_tree_bind_any; [apply Hvalues|]);
        intros _; apply extends_tree_ret; reflexivity.
    - intros a ->. apply extends_tree_ret. repeat split. }
  destruct (extends_tree_run P R _ s Hext) as (extra & Hnodes & HP & HR).
  split; [eauto|].
  intros s' ctl l' Hrun. rewrite Hrun in HR. exact HR.
Qed.

End Dissector.

(** * The properties on concrete messages *)

(** The symbols of the testable properties of the enum lookup. *)
Example enum_value_text_examples :
  enum_value_text (list_byte_of_string "job-state") 5 = "processing"%string
  /\ enum_value_text (list_byte_of_string "document-state") 5
     = "processing"%string
  /\ enum_value_text (list_byte_of_string "copies-enum") 5 = "5"%string
  /\ enum_value_text (list_byte_of_string "job-state") 42
     = "Unknown Job State"%string
  /\ enum_value_text (list_byte_of_string "Printer-State") 3 = "3"%string
  /\ enum_value_text (list_byte_of_string "finishings-supported") 4
     = "staple"%string.
Proof. repeat split; vm_compute; reflexivity. Qed.

(** C1, the code at the failing input.  The attribute name
    "printer-state-x" is none of the nine well-known names, so the enum value
    3 under it should be rendered as the plain integer 3, as the exact
    [strcmp] of [add_integer_value] has it when it picks the value item of
    the same record.  [add_integer_tree] compares only the first 13 bytes of
    the name with "printer-state" and renders the printer state "idle". *)
Theorem enum_label_strict_extension :
  let tvb := bytes_of_Zs [0x23; 0; 15] ++ list_byte_of_string "printer-state-x"
             ++ bytes_of_Zs [0; 4; 0; 0; 0; 3] in
  integer_tree_label format_text_ref tvb 0 15 4 TAG_ENUM
  = Ok "printer-state-x: idle"%string
  /\ integer_tree_label format_text_ref tvb 0 15 4 TAG_ENUM
     <> Ok "printer-state-x: 3"%string
  /\ map pn_hf
       (ds_nodes
          (fst (add_integer_value format_text_ref "enum" (Some 0%nat) tvb 0 15
                  4 TAG_ENUM root_dstate)))
     = [hf_text_only; hf_ipp_tag; hf_ipp_name_length; hf_ipp_name;
        hf_ipp_value_length; hf_ipp_uint32_value].
Proof. repeat split; vm_compute; first [reflexivity | discriminate]. Qed.

(** C2, counterexample.  A buffer that holds the tag byte of an integer
    record and nothing else: the parse does not stop normally, it raises the
    bounds exception. *)
Lemma parse_attributes_raises_on_truncation :
  parse_attributes format_text_ref bytes_to_str_ref (bytes_of_Zs [0x21]) 0
    (Some 0%nat) root_dstate
  = (root_dstate, Throw BoundsError).
Proof. vm_compute. reflexivity. Qed.


(** C4, counterexample.  An additional value (empty name) of the Boolean tag
    with a declared value length of 2 is passed over without any
    length-mismatch note: the tree gets the tag, name-length and value-length
    items only.  A Boolean record that declares one value byte which the
    buffer does not hold makes the iteration raise the bounds exception
    instead of advancing the offset.  So does a TextWithLanguage record that
    is in the buffer as a whole and whose language length puts the text
    length on the last byte of the buffer. *)
Lemma value_record_without_note_or_advance :
  (let run := parse_attributes_body format_text_ref bytes_to_str_ref
                (bytes_of_Zs [0x22; 0; 0; 0; 2; 1; 2]) (Some 0%nat)
                (parse_attributes_init 0 (Some 0%nat)) root_dstate in
   snd run = Ok (LoopContinue,
                 {| pa_offset := 7; pa_as_tree := Some 0%nat; pa_tas := None;
                    pa_start_offset := 0; pa_attr_tree := Some 0%nat;
                    pa_subtree := None |})
   /\ map pn_value (ds_nodes (fst run))
      = [NvText "Frame"; NvString "boolean"; NvUint 0; NvUint 2])
  /\ parse_attributes_body format_text_ref bytes_to_str_ref
       (bytes_of_Zs [0x22; 0; 1; 0x62; 0; 1]) (Some 0%nat)
       (parse_attributes_init 0 (Some 0%nat)) root_dstate
     = (root_dstate, Throw BoundsError)
  /\ parse_attributes_body format_text_ref bytes_to_str_ref
       (bytes_of_Zs [0x35; 0; 1; 0x6E; 0; 4; 0; 1; 0x65; 0x6E]) (Some 0%nat)
       (parse_attributes_init 0 (Some 0%nat)) root_dstate
     = (root_dstate, Throw BoundsError).
Proof. repeat split; vm_compute; reflexivity. Qed.


(** C7, the code at three inputs.  The nested lengths of a TextWithLanguage
    value are checked against the end of the buffer, not against the end of
    the value.  (1) A 4-byte value whose language tag fills it is followed by
    the bytes 00 01 41 42 of the next record: the string is read from there
    and "A (en)" is rendered.  (2) The same kind of value at the end of the
    buffer: the string length is read past the end of the buffer and the
    bounds exception is raised.  (3) A well-formed value that ends the
    buffer is rendered as hexadecimal text, since no byte follows it. *)
Theorem textwithlanguage_checks_buffer_not_value :
  octetstring_value format_text_ref bytes_to_str_ref
    (bytes_of_Zs [0x35; 0; 1; 0x6E; 0; 4; 0; 2; 0x65; 0x6E; 0; 1; 0x41; 0x42])
    0 TAG_TEXTWITHLANGUAGE 1 4
  = Ok "A (en)"%string
  /\ octetstring_value format_text_ref bytes_to_str_ref
       (bytes_of_Zs [0x35; 0; 1; 0x6E; 0; 4; 0; 1; 0x65; 0x6E])
       0 TAG_TEXTWITHLANGUAGE 1 4
     = Throw BoundsError
  /\ octetstring_value format_text_ref bytes_to_str_ref
       (bytes_of_Zs [0x35; 0; 1; 0x6E; 0; 8; 0; 2; 0x65; 0x6E; 0; 2; 0x68;
                     0x69])
       0 TAG_TEXTWITHLANGUAGE 1 8
     = Ok "0002656e00026869"%string.
Proof. repeat split; vm_compute; reflexivity. Qed.

(** A request with one group that holds the enum attribute "job-state" with
    the value 5 and an additional value 9: the additional value opens no new
    attribute, it is put under the attribute before it. *)
Example dissect_ipp_sample_request :
  let tvb := bytes_of_Zs [1; 1; 0; 0x0A; 0; 0; 0; 7; 0x02; 0x23; 0; 9]
             ++ list_byte_of_string "job-state"
             ++ bytes_of_Zs [0; 4; 0; 0; 0; 5; 0x23; 0; 0; 0; 4; 0; 0; 0; 9;
                             0x03] in
  let pinfo := {| pinfo_num := 3; pinfo_destport := 631;
                  pinfo_match_uint := 631; pinfo_fd_visited := false;
                  pinfo_abs_ts := {| secs := 1; nsecs := 0 |} |} in
  let run := dissect_ipp format_text_ref bytes_to_str_ref nstime_delta_ref tvb
               pinfo (Some 0%nat) (Some {| http_type := HTTP_REQUEST |})
               root_dstate in
  snd run = Ok 37
  /\ ds_col_info (fst run) = Some "IPP Request (Get-Jobs)"%string
  /\ map (fun n => (pn_parent n, pn_value n))
       (List.filter (fun n => match pn_hf n with
                         | hf_text_only => true
                         | _ => false
                         end)
          (ds_nodes (fst run)))
     = [(0%nat, NvText "Frame"); (1%nat, NvText "job-attributes-tag");
        (5%nat, NvText "job-state: processing");
        (1%nat, NvText "end-of-attributes-tag")]
  /\ map pn_parent
       (List.filter (fun n => match pn_hf n with
                         | hf_ipp_uint32_value | hf_ipp_job_state => true
                         | _ => false
                         end)
          (ds_nodes (fst run)))
     = [6%nat; 6%nat].
Proof. repeat split; vm_compute; reflexivity. Qed.

(** * The theorems at concrete inputs *)

(** C10 at the buffer 10 00 01 61 00 00 03: an out-of-band value record
    named "a" with an empty value, then the end-of-attributes tag. *)
Lemma parse_attributes_terminates_witness :
  let tvb := bytes_of_Zs [0x10; 0; 1; 0x61; 0; 0; 0x03] in
  let l0 := parse_attributes_init 0 (Some 0%nat) in
  parse_attributes_loop format_text_ref bytes_to_str_ref 100 tvb (Some 0%nat)
    l0 root_dstate
  = parse_attributes format_text_ref bytes_to_str_ref tvb 0 (Some 0%nat)
      root_dstate
  /\ (exists tag, tvb_get_guint8 tvb 0 = Ok tag /\
        if TAG_TYPE tag =? TAG_TYPE_DELIMITER then 6 = 0 + 1
        else exists name_length value_length,
               tvb_get_ntohs tvb (0 + 1) = Ok name_length /\
               tvb_get_ntohs tvb (0 + 1 + 2 + name_length) = Ok value_length /\
               6 = 0 + (1 + 2 + name_length + 2 + value_length) /\
               0 + 5 <= 6)
  /\ (exists l',
        parse_attributes_body format_text_ref bytes_to_str_ref tvb (Some 0%nat)
          l0 root_dstate
        = (root_dstate, Ok (LoopContinue, l'))
        /\ pa_offset l' = 0 + (1 + 2 + 1 + 2 + 0))
  /\ (tvb_offset_exists tvb 7 = false
      \/ tvb_get_guint8 tvb (7 - 1) = Ok TAG_END_OF_ATTRIBUTES).
Proof.
  intros tvb l0.
  destruct (parse_attributes_terminates format_text_ref bytes_to_str_ref)
    as (_ & Hfuel & Hstep & Hskip & Hexit).
  split; [|split; [|split]].
  - apply Hfuel. apply Nat.leb_le. vm_compute. reflexivity.
  - apply (Hstep tvb (Some 0%nat) l0 root_dstate root_dstate LoopContinue
             {| pa_offset := 6; pa_as_tree := Some 0%nat; pa_tas := None;
                pa_start_offset := 0; pa_attr_tree := Some 0%nat;
                pa_subtree := None |}).
    vm_compute. reflexivity.
  - apply (Hskip tvb (Some 0%nat) l0 root_dstate 0x10 1 0);
      vm_compute; first [reflexivity | discriminate].
  - apply (Hexit tvb 0 (Some 0%nat) root_dstate
             (fst (parse_attributes format_text_ref bytes_to_str_ref tvb 0
                     (Some 0%nat) root_dstate))).
    vm_compute. reflexivity.
Defined.

(** C2 at the empty buffer and at the one-byte buffer 21. *)
Lemma parse_attributes_truncated_record_witness :
  parse_attributes_loop format_text_ref bytes_to_str_ref 1 [] (Some 0%nat)
    (parse_attributes_init 0 (Some 0%nat)) root_dstate
  = (root_dstate, Ok 0)
  /\ parse_attributes_loop format_text_ref bytes_to_str_ref 1
       (bytes_of_Zs [0x21]) (Some 0%nat)
       (parse_attributes_init 0 (Some 0%nat)) root_dstate
     = (root_dstate, Throw BoundsError).
Proof.
  destruct (parse_attributes_truncated_record format_text_ref bytes_to_str_ref)
    as (_ & Hend & Htrunc).
  split.
  - apply (Hend 0%nat [] (Some 0%nat) (parse_attributes_init 0 (Some 0%nat))
             root_dstate).
    vm_compute. reflexivity.
  - apply (Htrunc 0%nat (bytes_of_Zs [0x21]) (Some 0%nat)
             (parse_attributes_init 0 (Some 0%nat)) root_dstate 0x21).
    + vm_compute. discriminate.
    + vm_compute. reflexivity.
    + vm_compute. discriminate.
    + left. vm_compute. reflexivity.
Defined.

(** C4 at a Boolean record named "b" that declares two value bytes, and at
    a TextWithLanguage record named "n" whose language length puts the text
    length on the last byte of the buffer. *)
Lemma value_record_advances_witness :
  let tvb := bytes_of_Zs [0x22; 0; 1; 0x62; 0; 2; 1; 2] in
  let twl := bytes_of_Zs [0x35; 0; 1; 0x6E; 0; 4; 0; 1; 0x65; 0x6E] in
  let l0 := parse_attributes_init 0 (Some 0%nat) in
  (exists s' l',
      parse_attributes_body format_text_ref bytes_to_str_ref tvb (Some 0%nat)
        l0 root_dstate
      = (s', Ok (LoopContinue, l'))
      /\ pa_offset l' = 0 + (1 + 2 + 1 + 2 + 2))
  /\ parse_attributes_body format_text_ref bytes_to_str_ref twl (Some 0%nat)
       l0 root_dstate
     = (root_dstate, Throw BoundsError)
  /\ (exists name_length value_length,
        tvb_get_ntohs tvb (0 + 1) = Ok name_length /\
        tvb_get_ntohs tvb (0 + 1 + 2 + name_length) = Ok value_length /\
        8 = 0 + (1 + 2 + name_length + 2 + value_length) /\
        LoopContinue = LoopContinue)
  /\ exists s' l' name,
       tvb_get_ptr tvb (0 + 1 + 2) 1 = Ok name
       /\ parse_attributes_body format_text_ref bytes_to_str_ref tvb
            (Some 0%nat) l0 root_dstate
          = (s', Ok (LoopContinue, l'))
       /\ pa_offset l' = 0 + (1 + 2 + 1 + 2 + 2)
       /\ (1 <> 0 ->
           integer_tree_label format_text_ref tvb 0 1 2 TAG_BOOLEAN
           = Ok (fmt_label (format_text_ref name) (invalid_note TAG_BOOLEAN 2))
           /\ forall parent,
                Some 0%nat = Some parent ->
                In {| pn_parent := parent; pn_hf := hf_text_only;
                      pn_start := 0; pn_length := 1 + 2 + 1 + 2 + 2;
                      pn_value :=
                        NvText (fmt_label (format_text_ref name)
                                  (invalid_note TAG_BOOLEAN 2));
                      pn_ett := Some ett_ipp_attr; pn_generated := false |}
                   (ds_nodes s')).
Proof.
  intros tvb twl l0.
  destruct (value_record_advances format_text_ref bytes_to_str_ref)
    as (Hin & Hadv & Hwrong).
  split; [|split; [|split]].
  - exact (Hin tvb (Some 0%nat) l0 root_dstate 0x22 1 2
             ltac:(vm_compute; discriminate) ltac:(vm_compute; reflexivity)
             ltac:(vm_compute; discriminate) ltac:(vm_compute; reflexivity)
             ltac:(vm_compute; reflexivity) ltac:(vm_compute; discriminate)).
  - exact (Hin twl (Some 0%nat) l0 root_dstate 0x35 1 4
             ltac:(vm_compute; discriminate) ltac:(vm_compute; reflexivity)
             ltac:(vm_compute; discriminate) ltac:(vm_compute; reflexivity)
             ltac:(vm_compute; reflexivity) ltac:(vm_compute; discriminate)).
  - apply (Hadv tvb (Some 0%nat) l0 root_dstate
             (fst (parse_attributes_body format_text_ref bytes_to_str_ref tvb
                     (Some 0%nat) l0 root_dstate))
             LoopContinue
             {| pa_offset := 8; pa_as_tree := Some 0%nat; pa_tas := None;
                pa_start_offset := 0; pa_attr_tree := Some 1%nat;
                pa_subtree := None |} 0x22).
    + vm_compute. reflexivity.
    + vm_compute. reflexivity.
    + vm_compute. discriminate.
  - apply (Hwrong tvb (Some 0%nat) l0 root_dstate TAG_BOOLEAN 1 2).
    + vm_compute. discriminate.
    + vm_compute. reflexivity.
    + left. reflexivity.
    + vm_compute. reflexivity.
    + vm_compute. reflexivity.
    + vm_compute. discriminate.
    + vm_compute. discriminate.
Defined.



(** C8 at a request with id 7 that is visited again, in a conversation that
    holds a completed transaction under that id. *)
Lemma revisit_leaves_pdus_unchanged_witness :
  let pinfo := {| pinfo_num := 12; pinfo_destport := 631;
                  pinfo_match_uint := 631; pinfo_fd_visited := true;
                  pinfo_abs_ts := {| secs := 5; nsecs := 0 |} |} in
  let tvb := bytes_of_Zs [1; 1; 0; 0x0B; 0; 0; 0; 7; 1; 3] in
  let s := set_conv root_dstate
             (Some {| pdus := {[ 7 := {| req_frame := 10; rep_frame := 11;
                                         req_time := {| secs := 4;
                                                        nsecs := 0 |} |} ]} |}) in
  let s' := fst (dissect_ipp format_text_ref bytes_to_str_ref nstime_delta_ref
                   tvb pinfo (Some 0%nat)
                   (Some {| http_type := HTTP_REQUEST |}) s) in
  conv_pdus s' = conv_pdus s
  /\ dom (conv_pdus s') = dom (conv_pdus s)
  /\ forall request_id, conv_pdus s' !! request_id = conv_pdus s !! request_id.
Proof.
  intros pinfo tvb s s'.
  apply (revisit_leaves_pdus_unchanged format_text_ref bytes_to_str_ref
           nstime_delta_ref tvb pinfo (Some 0%nat)
           (Some {| http_type := HTTP_REQUEST |}) s).
  reflexivity.
Defined.

(** C5 at a response with request id 9 in a conversation without IPP data,
    and at a request with request id 7 in a conversation that holds a
    completed transaction under that id. *)
Lemma transaction_store_unmatched_and_replaced_witness :
  let pinfo := {| pinfo_num := 12; pinfo_destport := 631;
                  pinfo_match_uint := 631; pinfo_fd_visited := false;
                  pinfo_abs_ts := {| secs := 5; nsecs := 0 |} |} in
  let response := bytes_of_Zs [1; 1; 0; 0; 0; 0; 0; 9; 3] in
  let request := bytes_of_Zs [1; 1; 0; 0x0B; 0; 0; 0; 7; 1; 3] in
  let s := set_conv root_dstate
             (Some {| pdus := {[ 7 := {| req_frame := 10; rep_frame := 11;
                                         req_time := {| secs := 4;
                                                        nsecs := 0 |} |} ]} |}) in
  let fresh := {| req_frame := 12; rep_frame := 0;
                  req_time := {| secs := 5; nsecs := 0 |} |} in
  (conv_pdus
     (fst (dissect_ipp format_text_ref bytes_to_str_ref nstime_delta_ref
             response pinfo (Some 0%nat)
             (Some {| http_type := HTTP_RESPONSE |}) root_dstate))
   = conv_pdus root_dstate
   /\ snd (dissect_ipp format_text_ref bytes_to_str_ref nstime_delta_ref
             response pinfo (Some 0%nat)
             (Some {| http_type := HTTP_RESPONSE |}) root_dstate)
      = Ok 9)
  /\ conv_pdus
       (fst (dissect_ipp format_text_ref bytes_to_str_ref nstime_delta_ref
               request pinfo (Some 0%nat)
               (Some {| http_type := HTTP_REQUEST |}) s))
     !! 7 = Some fresh.
Proof.
  intros pinfo response request s fresh. split.
  - destruct (transaction_store_unmatched_and_replaced format_text_ref
                bytes_to_str_ref nstime_delta_ref response pinfo (Some 0%nat)
                (Some {| http_type := HTTP_RESPONSE |}) root_dstate 0 9
                eq_refl eq_refl) as [Hunmatched _].
    destruct (Hunmatched eq_refl eq_refl)
      as (_ & Hpdus & _ & _ & Hcomplete).
    split; [exact Hpdus|].
    exact (proj1 (Hcomplete (bytes_of_Zs [1; 1; 0; 0; 0; 0; 0; 9]) [] []
                    ltac:(vm_compute; reflexivity) eq_refl eq_refl)).
  - apply (transaction_store_unmatched_and_replaced format_text_ref bytes_to_str_ref
             nstime_delta_ref request pinfo (Some 0%nat)
             (Some {| http_type := HTTP_REQUEST |}) s 0x0B 7);
      reflexivity.
Defined.

(** * The further properties at concrete inputs *)

Lemma dissect_ipp_short_header_witness :
  let pinfo := {| pinfo_num := 3; pinfo_destport := 631;
                  pinfo_match_uint := 631; pinfo_fd_visited := false;
                  pinfo_abs_ts := {| secs := 1; nsecs := 0 |} |} in
  dissect_ipp format_text_ref bytes_to_str_ref nstime_delta_ref
    (bytes_of_Zs [1; 1; 0; 0x0B; 0; 0; 0]) pinfo (Some 0%nat) None root_dstate
  = (root_dstate, Throw BoundsError).
Proof.
  intros pinfo. apply dissect_ipp_short_header. vm_compute. lia.
Defined.

Lemma dissect_ipp_columns_witness :
  let pinfo := {| pinfo_num := 3; pinfo_destport := 631;
                  pinfo_match_uint := 631; pinfo_fd_visited := false;
                  pinfo_abs_ts := {| secs := 1; nsecs := 0 |} |} in
  let tvb := bytes_of_Zs [1; 1; 0; 0x0B; 0; 0; 0; 1; 0x47; 0; 9] in
  let s' := fst (dissect_ipp format_text_ref bytes_to_str_ref nstime_delta_ref
                   tvb pinfo (Some 0%nat)
                   (Some {| http_type := HTTP_REQUEST |}) root_dstate) in
  ds_col_protocol s' = Some "IPP"%string
  /\ ds_col_info s' = Some "IPP Request (Get-Printer-Attributes)"%string.
Proof.
  intros pinfo tvb s'.
  exact (dissect_ipp_columns format_text_ref bytes_to_str_ref nstime_delta_ref
           tvb pinfo (Some 0%nat) (Some {| http_type := HTTP_REQUEST |})
           root_dstate ltac:(vm_compute; lia)).
Defined.

Lemma dissect_ipp_table_frame_witness :
  let pinfo := {| pinfo_num := 12; pinfo_destport := 631;
                  pinfo_match_uint := 631; pinfo_fd_visited := false;
                  pinfo_abs_ts := {| secs := 5; nsecs := 0 |} |} in
  let tvb := bytes_of_Zs [1; 1; 0; 0x0B; 0; 0; 0; 9; 3] in
  let stored := {| req_frame := 10; rep_frame := 11;
                   req_time := {| secs := 4; nsecs := 0 |} |} in
  let s := set_conv root_dstate (Some {| pdus := {[ 7 := stored ]} |}) in
  conv_pdus
    (fst (dissect_ipp format_text_ref bytes_to_str_ref nstime_delta_ref tvb
            pinfo (Some 0%nat) (Some {| http_type := HTTP_REQUEST |}) s))
  !! 7 = conv_pdus s !! 7.
Proof.
  intros pinfo tvb stored s.
  apply (dissect_ipp_table_frame format_text_ref bytes_to_str_ref
           nstime_delta_ref tvb pinfo (Some 0%nat)
           (Some {| http_type := HTTP_REQUEST |}) s).
  vm_compute. discriminate.
Defined.

Lemma matched_response_completes_transaction_witness :
  let pinfo := {| pinfo_num := 12; pinfo_destport := 40000;
                  pinfo_match_uint := 631; pinfo_fd_visited := false;
                  pinfo_abs_ts := {| secs := 5; nsecs := 0 |} |} in
  let tvb := bytes_of_Zs [1; 1; 0; 0; 0; 0; 0; 7; 3] in
  let stored := {| req_frame := 10; rep_frame := 0;
                   req_time := {| secs := 4; nsecs := 0 |} |} in
  let s := set_conv root_dstate (Some {| pdus := {[ 7 := stored ]} |}) in
  let r := dissect_ipp format_text_ref bytes_to_str_ref nstime_delta_ref tvb
             pinfo (Some 0%nat) (Some {| http_type := HTTP_RESPONSE |}) s in
  conv_pdus (fst r) !! 7
  = Some {| req_frame := 10; rep_frame := 12;
            req_time := {| secs := 4; nsecs := 0 |} |}
  /\ snd r = Ok 9.
Proof.
  intros pinfo tvb stored s r.
  destruct (matched_response_completes_transaction format_text_ref
              bytes_to_str_ref nstime_delta_ref tvb pinfo (Some 0%nat)
              (Some {| http_type := HTTP_RESPONSE |}) s 0 7 stored
              eq_refl eq_refl eq_refl eq_refl eq_refl)
    as (_ & Hstored & _ & (_ & Hcomplete) & _).
  split; [exact Hstored|].
  exact (proj1 (Hcomplete (bytes_of_Zs [1; 1; 0; 0; 0; 0; 0; 7]) [] []
                  ltac:(vm_compute; reflexivity) eq_refl eq_refl)).
Defined.

Lemma request_then_response_pairs_witness :
  let pinfo_req := {| pinfo_num := 10; pinfo_destport := 631;
                      pinfo_match_uint := 631; pinfo_fd_visited := false;
                      pinfo_abs_ts := {| secs := 4; nsecs := 0 |} |} in
  let pinfo_rsp := {| pinfo_num := 12; pinfo_destport := 40000;
                      pinfo_match_uint := 631; pinfo_fd_visited := false;
                      pinfo_abs_ts := {| secs := 5; nsecs := 0 |} |} in
  let request := bytes_of_Zs [1; 1; 0; 0x0B; 0; 0; 0; 7; 1; 3] in
  let response := bytes_of_Zs [1; 1; 0; 0; 0; 0; 0; 7; 3] in
  let s1 := fst (dissect_ipp format_text_ref bytes_to_str_ref nstime_delta_ref
                   request pinfo_req (Some 0%nat) None root_dstate) in
  let s2 := fst (dissect_ipp format_text_ref bytes_to_str_ref nstime_delta_ref
                   response pinfo_rsp (Some 0%nat) None s1) in
  conv_pdus s2 !! 7
  = Some {| req_frame := 10; rep_frame := 12;
            req_time := {| secs := 4; nsecs := 0 |} |}.
Proof.
  intros pinfo_req pinfo_rsp request response s1 s2.
  exact (proj1 (request_then_response_pairs format_text_ref bytes_to_str_ref
                  nstime_delta_ref request response pinfo_req pinfo_rsp
                  (Some 0%nat) (Some 0%nat) None None root_dstate 0x0B 0 7
                  eq_refl eq_refl eq_refl eq_refl eq_refl eq_refl eq_refl
                  eq_refl s1 eq_refl)).
Defined.

Lemma response_link_items_witness :
  let pinfo := {| pinfo_num := 12; pinfo_destport := 40000;
                  pinfo_match_uint := 631; pinfo_fd_visited := false;
                  pinfo_abs_ts := {| secs := 5; nsecs := 500 |} |} in
  let tvb := bytes_of_Zs [1; 1; 0; 0; 0; 0; 0; 7; 3] in
  let t := {| req_frame := 10; rep_frame := 12;
              req_time := {| secs := 4; nsecs := 0 |} |} in
  let s' := fst (dissect_ipp_message format_text_ref bytes_to_str_ref
                   nstime_delta_ref tvb pinfo false 0 (Some 0%nat) t
                   root_dstate) in
  exists extra,
    ds_nodes s'
    = ds_nodes root_dstate
      ++ [{| pn_parent := 0%nat; pn_hf := hf_ipp_response_to; pn_start := 0;
             pn_length := 0; pn_value := NvUint 10; pn_ett := None;
             pn_generated := true |};
          {| pn_parent := 0%nat; pn_hf := hf_ipp_response_time; pn_start := 0;
             pn_length := 0;
             pn_value := NvTime {| secs := 1; nsecs := 500 |};
             pn_ett := None; pn_generated := true |}]
      ++ extra
    /\ Forall (fun n => link_field (pn_hf n) = false) extra.
Proof.
  intros pinfo tvb t s'.
  exact (proj1 (response_link_items format_text_ref bytes_to_str_ref
                  nstime_delta_ref tvb pinfo false 0 0%nat t root_dstate)
           eq_refl ltac:(discriminate)).
Defined.

Lemma parse_attributes_plain_items_witness :
  let items := [ItemDelimiter x01;
                ItemValue x47 (list_byte_of_string "attributes-charset")
                  (list_byte_of_string "utf-8");
                ItemValue x21 (list_byte_of_string "copies")
                  (bytes_of_Zs [0; 0; 0; 2]);
                ItemValue x13 [] []] in
  snd (parse_attributes format_text_ref bytes_to_str_ref
         (bytes_of_Zs [1; 1; 0; 2; 0; 0; 0; 1] ++ encode_items items
            ++ x03 :: list_byte_of_string "%PDF")
         8 (Some 0%nat) root_dstate)
  = Ok 58.
Proof.
  intros items.
  exact (proj1 (parse_attributes_plain_items format_text_ref bytes_to_str_ref
                  (bytes_of_Zs [1; 1; 0; 2; 0; 0; 0; 1]) items
                  (list_byte_of_string "%PDF") (Some 0%nat) root_dstate
                  eq_refl)).
Defined.

Lemma dissect_ipp_complete_message_witness :
  let pinfo := {| pinfo_num := 3; pinfo_destport := 631;
                  pinfo_match_uint := 631; pinfo_fd_visited := false;
                  pinfo_abs_ts := {| secs := 1; nsecs := 0 |} |} in
  let items := [ItemDelimiter x01;
                ItemValue x47 (list_byte_of_string "attributes-charset")
                  (list_byte_of_string "utf-8")] in
  let payload := list_byte_of_string "%PDF" in
  let r := dissect_ipp format_text_ref bytes_to_str_ref nstime_delta_ref
             (bytes_of_Zs [1; 1; 0; 2; 0; 0; 0; 1] ++ encode_items items
                ++ x03 :: payload)
             pinfo (Some 0%nat) None root_dstate in
  snd r = Ok 42 /\ ds_data (fst r) = [(payload, Some 1%nat)].
Proof.
  intros pinfo items payload r.
  exact (dissect_ipp_complete_message format_text_ref bytes_to_str_ref
           nstime_delta_ref (bytes_of_Zs [1; 1; 0; 2; 0; 0; 0; 1]) items
           payload pinfo (Some 0%nat) None root_dstate eq_refl eq_refl).
Defined.

Lemma group_item_spans_its_records_witness :
  let values := [ItemValue x47 (list_byte_of_string "attributes-charset")
                   (list_byte_of_string "utf-8");
                 ItemValue x21 (list_byte_of_string "copies")
                   (bytes_of_Zs [0; 0; 0; 2])] in
  In {| pn_parent := 0%nat; pn_hf := hf_text_only; pn_start := 8;
        pn_length := 44; pn_value := NvText "operation-attributes-tag";
        pn_ett := Some ett_ipp_as; pn_generated := false |}
     (ds_nodes
        (fst (parse_attributes format_text_ref bytes_to_str_ref
                (bytes_of_Zs [1; 1; 0; 2; 0; 0; 0; 1] ++ encode_items []
                   ++ x01 :: encode_items values ++ x02 :: [x44; x00])
                8 (Some 0%nat) root_dstate))).
Proof.
  intros values.
  exact (group_item_spans_its_records format_text_ref bytes_to_str_ref
           (bytes_of_Zs [1; 1; 0; 2; 0; 0; 0; 1]) [] x01 values x02
           [x44; x00] 0%nat root_dstate eq_refl eq_refl eq_refl eq_refl
           eq_refl).
Defined.

Lemma integer_value_field_by_exact_name_witness :
  let name := list_byte_of_string "job-state" in
  let tvb := [x02] ++ x23 :: x00 :: x09 :: name ++ x00 :: x04
                  :: [x00; x00; x00; x05] ++ [x03] in
  exists head,
    add_integer_value format_text_ref "enum" (Some 4%nat) tvb 1 9 4 TAG_ENUM
      root_dstate
    = (set_nodes root_dstate
         (ds_nodes root_dstate ++ head
          ++ [value_item 4 hf_ipp_job_state 15 4
                (NvItem [x00; x00; x00; x05])]),
       Ok tt)
    /\ Forall (fun n => pn_hf n = hf_ipp_tag \/ pn_hf n = hf_ipp_name_length
                        \/ pn_hf n = hf_ipp_name
                        \/ pn_hf n = hf_ipp_value_length) head.
Proof.
  intros name tvb.
  exact (proj1 (integer_value_field_by_exact_name format_text_ref [x02] name
                  [x03] x23 x00 x09 x00 x04 x00 x00 x00 x05 "enum" 4%nat
                  TAG_ENUM root_dstate
                  ltac:(repeat (apply Forall_cons_2; [reflexivity|]);
                        apply Forall_nil_2)
                  (or_intror eq_refl))).
Defined.


Lemma charstring_attribute_nodes_witness :
  let l := {| pa_offset := 1; pa_as_tree := Some 1%nat; pa_tas := Some 1%nat;
              pa_start_offset := 0; pa_attr_tree := Some 1%nat;
              pa_subtree := Some 1%nat |} in
  map pn_value
    (ds_nodes
       (fst (parse_attributes_body format_text_ref bytes_to_str_ref
               ([x01]
                ++ encode_item
                     (ItemValue x44 (list_byte_of_string "media")
                        (list_byte_of_string "a4"))
                ++ [x03])
               (Some 0%nat) l root_dstate)))
  = [NvText "Frame"; NvText "media: a4"; NvString "keyword"; NvUint 5;
     NvString "media"; NvUint 2; NvItem (list_byte_of_string "a4")].
Proof.
  intros l.
  rewrite (charstring_attribute_nodes format_text_ref bytes_to_str_ref [x01]
             (list_byte_of_string "media") (list_byte_of_string "a4") [x03]
             x44 (Some 0%nat) 1%nat l root_dstate eq_refl
             ltac:(discriminate) ltac:(vm_compute; reflexivity)
             ltac:(vm_compute; reflexivity)
             ltac:(repeat (apply Forall_cons_2; [reflexivity|]);
                   apply Forall_nil_2)
             eq_refl eq_refl).
  reflexivity.
Defined.

Lemma additional_value_joins_attribute_witness :
  let tvb := bytes_of_Zs [0x44; 0; 0; 0; 2; 0x61; 0x34; 0x03] in
  let l := {| pa_offset := 0; pa_as_tree := Some 1%nat; pa_tas := Some 1%nat;
              pa_start_offset := 0; pa_attr_tree := Some 2%nat;
              pa_subtree := Some 1%nat |} in
  exists extra,
    ds_nodes (fst (parse_attributes_body format_text_ref bytes_to_str_ref tvb
                     (Some 0%nat) l root_dstate))
    = ds_nodes root_dstate ++ extra
    /\ Forall (fun n => pn_parent n = 2%nat /\ pn_hf n <> hf_text_only) extra.
Proof.
  intros tvb l.
  exact (proj1 (additional_value_joins_attribute format_text_ref
                  bytes_to_str_ref tvb (Some 0%nat) l root_dstate 0x44 1%nat
                  2%nat eq_refl ltac:(vm_compute; discriminate) eq_refl
                  eq_refl eq_refl)).
Defined.
